(** * Market-structure analysis, sizing and backtest simulation of the trading bot

    A shallow embedding of the TypeScript sources: the SMC analyzer (swing
    points, structure breaks, order blocks, fair value gaps), the two position
    sizers, the multi-timeframe aligner, the signal evaluators and the backtest
    engines, followed by the properties established about them.

    Numbers.  A JavaScript [number] that holds a price, a quantity or a balance
    is modelled as an exact rational ([Q]); array indices and counters are
    [nat]; timestamps are [Z].  The analyzer only compares prices, so for it the
    model is exact on every finite input.  Sizing and metrics are computed in
    exact rational arithmetic, with [toFixed] as decimal rounding of the exact
    value: a computation in doubles agrees with it up to the rounding of each
    operation, and [x.toFixed(d)] agrees with [toFixed d x] except where the
    double [x] misses a decimal tie that the exact value hits (1.005 is stored
    slightly below the tie and prints as 1.00).  Non-finite results (a
    division by zero) and thrown exceptions are made explicit as [None] and
    [Thrown]. *)

From Stdlib Require Import QArith Qround Qabs Qminmax Lqa.
From stdpp Require Import gmap strings list pretty.

Local Open Scope Q_scope.

(** ** Comparisons on prices *)

Definition Qltb (x y : Q) : bool := negb (Qle_bool y x).




(** ** Loops

    [for_loop n i body s] runs [body i], [body (i+1)], ... [n] times: the
    JavaScript [for (let k = i; k < i + n; k++)] over a threaded state. *)

Fixpoint for_loop {St : Type} (n : nat) (i : nat) (body : nat -> St -> St) (s : St) : St :=
  match n with
  | O => s
  | S n' => for_loop n' (S i) body (body i s)
  end.



(** ** Data model (types/market.ts, analysis/SMCAnalyzer.ts) *)

Record OHLCV : Type := mkOHLCV {
  timestamp : Z;
  open : Q;
  high : Q;
  low : Q;
  close : Q;
  volume : Q
}.

#[global] Instance OHLCV_inhabited : Inhabited OHLCV :=
  populate (mkOHLCV 0 0 0 0 0 0).

Inductive SwingType : Type := HIGH | LOW.

Record SwingPoint : Type := mkSwingPoint {
  sp_type : SwingType;
  sp_price : Q;
  sp_index : nat;
  sp_timestamp : Z
}.

Inductive BreakType : Type := BOS | CHOCH | SWEEP.

Inductive Direction : Type := BULLISH | BEARISH.

(** ['BULLISH' | 'BEARISH' | 'RANGING'] *)
Inductive TrendDirection : Type :=
| Trending (d : Direction)
| RANGING.

Record StructureBreak : Type := mkStructureBreak {
  sb_type : BreakType;
  sb_direction : Direction;
  sb_index : nat;
  sb_price : Q;
  sb_timestamp : Z;
  sb_isConfirmed : bool
}.

Record OrderBlock : Type := mkOrderBlock {
  ob_type : Direction;
  ob_top : Q;
  ob_bottom : Q;
  ob_index : nat;
  ob_timestamp : Z;
  ob_mitigated : bool;
  ob_mitigationIndex : option nat
}.

Record FairValueGap : Type := mkFairValueGap {
  fvg_type : Direction;
  fvg_top : Q;
  fvg_bottom : Q;
  fvg_index : nat;
  fvg_timestamp : Z;
  fvg_mitigated : bool;
  fvg_mitigationIndex : option nat
}.

Record DealingRange : Type := mkDealingRange {
  dr_high : Q;
  dr_low : Q;
  dr_equilibrium : Q;
  dr_indexHigh : nat;
  dr_indexLow : nat
}.

Record SMCAnalysis : Type := mkSMCAnalysis {
  structure : TrendDirection;
  swingHighs : list SwingPoint;
  swingLows : list SwingPoint;
  breaks : list StructureBreak;
  orderBlocks : list OrderBlock;
  fvgs : list FairValueGap;
  dealingRange : option DealingRange
}.

Definition is_BOS (t : BreakType) : bool :=
  match t with BOS => true | _ => false end.
Definition is_SWEEP (t : BreakType) : bool :=
  match t with SWEEP => true | _ => false end.
Definition is_BULLISH (d : Direction) : bool :=
  match d with BULLISH => true | BEARISH => false end.

(** ** SMCAnalyzer.findSwingHighs / findSwingLows

    Array reads [candles[k]] are total lookups; the loop bounds keep every
    index that is read inside the array. *)

Definition isHigh (candles : list OHLCV) (left right i : nat) : bool :=
  forallb (fun j => negb (Qle_bool (high (candles !!! i)) (high (candles !!! (i - j)%nat))))
          (seq 1 left)
  && forallb (fun j => negb (Qltb (high (candles !!! i)) (high (candles !!! (i + j)%nat))))
             (seq 1 right).

Definition isLow (candles : list OHLCV) (left right i : nat) : bool :=
  forallb (fun j => negb (Qle_bool (low (candles !!! (i - j)%nat)) (low (candles !!! i))))
          (seq 1 left)
  && forallb (fun j => negb (Qltb (low (candles !!! (i + j)%nat)) (low (candles !!! i))))
             (seq 1 right).

Definition swingHighAt (candles : list OHLCV) (left right i : nat) : list SwingPoint :=
  if isHigh candles left right i
  then [mkSwingPoint HIGH (high (candles !!! i)) i (timestamp (candles !!! i))]
  else [].

Definition swingLowAt (candles : list OHLCV) (left right i : nat) : list SwingPoint :=
  if isLow candles left right i
  then [mkSwingPoint LOW (low (candles !!! i)) i (timestamp (candles !!! i))]
  else [].

Definition findSwingHighs (candles : list OHLCV) (left right : nat) : list SwingPoint :=
  for_loop (length candles - right - left) left
           (fun i swings => swings ++ swingHighAt candles left right i) [].

Definition findSwingLows (candles : list OHLCV) (left right : nat) : list SwingPoint :=
  for_loop (length candles - right - left) left
           (fun i swings => swings ++ swingLowAt candles left right i) [].

(** ** SMCAnalyzer.findStructureBreaks *)

Record BreakState : Type := mkBreakState {
  lastHigh : option SwingPoint;
  lastLow : option SwingPoint;
  trend : Direction;
  currentHighIndex : nat;
  currentLowIndex : nat;
  bs_breaks : list StructureBreak
}.

(** [while (cur < swings.length && swings[cur].index < i) { last = swings[cur]; cur++ }] *)
Fixpoint advance (fuel : nat) (swings : list SwingPoint) (i cur : nat)
    (last : option SwingPoint) : nat * option SwingPoint :=
  match fuel with
  | O => (cur, last)
  | S fuel' =>
      match swings !! cur with
      | Some s =>
          if (sp_index s <? i)%nat
          then advance fuel' swings i (S cur) (Some s)
          else (cur, last)
      | None => (cur, last)
      end
  end.

Definition updateActive (highs lows : list SwingPoint) (i : nat) (st : BreakState) : BreakState :=
  let '(ch, lh) := advance (length highs - currentHighIndex st) highs i
                           (currentHighIndex st) (lastHigh st) in
  let '(cl, ll) := advance (length lows - currentLowIndex st) lows i
                           (currentLowIndex st) (lastLow st) in
  mkBreakState lh ll (trend st) ch cl (bs_breaks st).

Definition classify (i : nat) (candle : OHLCV) (st : BreakState) : BreakState :=
  match lastHigh st, lastLow st with
  | Some lh, Some ll =>
      match trend st with
      | BULLISH =>
          if Qltb (sp_price lh) (high candle) then
            let isBOS := Qltb (sp_price lh) (close candle) in
            mkBreakState (if isBOS then None else lastHigh st) (lastLow st) (trend st)
              (currentHighIndex st) (currentLowIndex st)
              (bs_breaks st ++ [mkStructureBreak (if isBOS then BOS else SWEEP) BULLISH i
                                  (sp_price lh) (timestamp candle) isBOS])
          else if Qltb (low candle) (sp_price ll) then
            let isCHOCH := Qltb (close candle) (sp_price ll) in
            mkBreakState (lastHigh st) (if isCHOCH then None else lastLow st)
              (if isCHOCH then BEARISH else trend st)
              (currentHighIndex st) (currentLowIndex st)
              (bs_breaks st ++ [mkStructureBreak (if isCHOCH then CHOCH else SWEEP) BEARISH i
                                  (sp_price ll) (timestamp candle) isCHOCH])
          else st
      | BEARISH =>
          if Qltb (low candle) (sp_price ll) then
            let isBOS := Qltb (close candle) (sp_price ll) in
            mkBreakState (lastHigh st) (if isBOS then None else lastLow st) (trend st)
              (currentHighIndex st) (currentLowIndex st)
              (bs_breaks st ++ [mkStructureBreak (if isBOS then BOS else SWEEP) BEARISH i
                                  (sp_price ll) (timestamp candle) isBOS])
          else if Qltb (sp_price lh) (high candle) then
            let isCHOCH := Qltb (sp_price lh) (close candle) in
            mkBreakState (if isCHOCH then None else lastHigh st) (lastLow st)
              (if isCHOCH then BULLISH else trend st)
              (currentHighIndex st) (currentLowIndex st)
              (bs_breaks st ++ [mkStructureBreak (if isCHOCH then CHOCH else SWEEP) BULLISH i
                                  (sp_price lh) (timestamp candle) isCHOCH])
          else st
      end
  | _, _ => st
  end.

Definition breakStep (candles : list OHLCV) (highs lows : list SwingPoint)
    (i : nat) (st : BreakState) : BreakState :=
  classify i (candles !!! i) (updateActive highs lows i st).

Definition initialBreakState : BreakState :=
  mkBreakState None None BULLISH 0 0 [].

(** The state after the candles [0 .. n-1] have been processed. *)
Definition breakStateAfter (candles : list OHLCV) (highs lows : list SwingPoint)
    (n : nat) : BreakState :=
  for_loop n 0 (breakStep candles highs lows) initialBreakState.

Definition findStructureBreaks (candles : list OHLCV) (highs lows : list SwingPoint)
    : list StructureBreak :=
  bs_breaks (breakStateAfter candles highs lows (length candles)).

(** The active high and low the classifier compares candle [i] against. *)
Definition activeAt (candles : list OHLCV) (highs lows : list SwingPoint) (i : nat)
    : option SwingPoint * option SwingPoint :=
  let st := updateActive highs lows i (breakStateAfter candles highs lows i) in
  (lastHigh st, lastLow st).

(** ** SMCAnalyzer.findOrderBlocks *)

(** The backward search [for (i = bk.index - 1; i >= max(0, bk.index - 50); i--)]:
    [count] candidates below [idx], nearest first. *)
Fixpoint lastContraryCandle (candles : list OHLCV) (dir : Direction) (idx count : nat)
    : option OrderBlock :=
  match count with
  | O => None
  | S count' =>
      let i := (idx - 1)%nat in
      let candle := candles !!! i in
      match dir with
      | BULLISH =>
          if Qltb (close candle) (open candle)
          then Some (mkOrderBlock BULLISH (high candle) (low candle) i (timestamp candle) false None)
          else lastContraryCandle candles dir i count'
      | BEARISH =>
          if Qltb (open candle) (close candle)
          then Some (mkOrderBlock BEARISH (high candle) (low candle) i (timestamp candle) false None)
          else lastContraryCandle candles dir i count'
      end
  end.

Definition searchLimit : nat := 50.

Definition orderBlockOf (candles : list OHLCV) (bk : StructureBreak) : list OrderBlock :=
  match lastContraryCandle candles (sb_direction bk) (sb_index bk)
          (sb_index bk - Nat.max 0 (sb_index bk - searchLimit)) with
  | Some ob => [ob]
  | None => []
  end.

Definition touchesOB (ob : OrderBlock) (candle : OHLCV) : bool :=
  match ob_type ob with
  | BULLISH => Qle_bool (low candle) (ob_top ob)
  | BEARISH => Qle_bool (ob_bottom ob) (high candle)
  end.

(** The mitigation scan of one order block: [n] candles from index [i]. *)
Fixpoint scanOrderBlock (candles : list OHLCV) (n i : nat) (ob : OrderBlock) : OrderBlock :=
  match n with
  | O => ob
  | S n' =>
      if ob_mitigated ob then ob
      else
        scanOrderBlock candles n' (S i)
          (if touchesOB ob (candles !!! i)
           then mkOrderBlock (ob_type ob) (ob_top ob) (ob_bottom ob) (ob_index ob)
                  (ob_timestamp ob) true (Some i)
           else ob)
  end.

Definition mitigateOrderBlock (candles : list OHLCV) (ob : OrderBlock) : OrderBlock :=
  scanOrderBlock candles (length candles - (ob_index ob + 5)) (ob_index ob + 5) ob.

Definition findOrderBlocks (candles : list OHLCV) (bks : list StructureBreak)
    : list OrderBlock :=
  map (mitigateOrderBlock candles) (flat_map (orderBlockOf candles) bks).

(** ** SMCAnalyzer.findFVGs *)

Definition gapsAt (candles : list OHLCV) (i : nat) : list FairValueGap :=
  let first := candles !!! (i - 1)%nat in
  let third := candles !!! (i + 1)%nat in
  let current := candles !!! i in
  (if Qltb (high first) (low third)
   then [mkFairValueGap BULLISH (low third) (high first) i (timestamp current) false None]
   else [])
  ++
  (if Qltb (high third) (low first)
   then [mkFairValueGap BEARISH (low first) (high third) i (timestamp current) false None]
   else []).

Definition touchesFVG (fvg : FairValueGap) (candle : OHLCV) : bool :=
  match fvg_type fvg with
  | BULLISH => Qle_bool (low candle) (fvg_top fvg)
  | BEARISH => Qle_bool (fvg_bottom fvg) (high candle)
  end.

Fixpoint scanFVG (candles : list OHLCV) (n i : nat) (fvg : FairValueGap) : FairValueGap :=
  match n with
  | O => fvg
  | S n' =>
      if touchesFVG fvg (candles !!! i)
      then mkFairValueGap (fvg_type fvg) (fvg_top fvg) (fvg_bottom fvg) (fvg_index fvg)
             (fvg_timestamp fvg) true (Some i)
      else scanFVG candles n' (S i) fvg
  end.

Definition mitigateFVG (candles : list OHLCV) (fvg : FairValueGap) : FairValueGap :=
  scanFVG candles (length candles - (fvg_index fvg + 2)) (fvg_index fvg + 2) fvg.

Definition rawFVGs (candles : list OHLCV) : list FairValueGap :=
  for_loop (length candles - 1 - 1) 1 (fun i gaps => gaps ++ gapsAt candles i) [].

Definition findFVGs (candles : list OHLCV) : list FairValueGap :=
  map (mitigateFVG candles) (rawFVGs candles).

(** ** SMCAnalyzer.findDealingRange and analyze *)

Definition findDealingRange (highs lows : list SwingPoint) : option DealingRange :=
  match last highs, last lows with
  | Some lastH, Some lastL =>
      Some (mkDealingRange (sp_price lastH) (sp_price lastL)
              ((sp_price lastH + sp_price lastL) / 2) (sp_index lastH) (sp_index lastL))
  | _, _ => None
  end.

(** The structure read off a break list: the direction of the last break that
    is not a SWEEP, RANGING when there is none. *)
Definition structureOf (bks : list StructureBreak) : TrendDirection :=
  match last (List.filter (fun b => negb (is_SWEEP (sb_type b))) bks) with
  | Some lastBreak => Trending (sb_direction lastBreak)
  | None => RANGING
  end.

Definition analyze (candles : list OHLCV) : SMCAnalysis :=
  let swingHighs := findSwingHighs candles 2 2 in
  let swingLows := findSwingLows candles 2 2 in
  let breaks := findStructureBreaks candles swingHighs swingLows in
  let orderBlocks := findOrderBlocks candles breaks in
  let fvgs := findFVGs candles in
  let dealingRange := findDealingRange swingHighs swingLows in
  mkSMCAnalysis (structureOf breaks) swingHighs swingLows breaks orderBlocks fvgs dealingRange.

(** ** Specification predicates for swings *)

(** What [isHigh] and [isLow] decide, in terms of the candles around [i]. *)
Definition SwingHighAt (candles : list OHLCV) (left right i : nat) : Prop :=
  (forall k, (i - left <= k < i)%nat -> ~ high (candles !!! i) <= high (candles !!! k))
  /\ (forall k, (i < k <= i + right)%nat -> ~ high (candles !!! i) < high (candles !!! k)).

Definition SwingLowAt (candles : list OHLCV) (left right i : nat) : Prop :=
  (forall k, (i - left <= k < i)%nat -> ~ low (candles !!! k) <= low (candles !!! i))
  /\ (forall k, (i < k <= i + right)%nat -> ~ low (candles !!! k) < low (candles !!! i)).

Definition ascending (swings : list SwingPoint) : Prop :=
  forall i j a b, swings !! i = Some a -> swings !! j = Some b ->
                  (i < j)%nat -> (sp_index a < sp_index b)%nat.

(** ** Specification predicates for structure breaks *)

(** The swing a break takes its price from, and that this swing's confirmation
    index (its index plus the right window) lies strictly before the break. *)
Definition referencesConfirmedSwing (highs lows : list SwingPoint) (right : nat)
    (b : StructureBreak) : Prop :=
  exists s, In s (if is_BULLISH (sb_direction b) then highs else lows)
            /\ sp_price s = sb_price b
            /\ (sp_index s + right < sb_index b)%nat.

Definition BreakInv (highs lows : list SwingPoint) (right : nat) (n : nat)
    (st : BreakState) : Prop :=
  (forall s, lastHigh st = Some s -> In s highs /\ (sp_index s < n)%nat)
  /\ (forall s, lastLow st = Some s -> In s lows /\ (sp_index s < n)%nat)
  /\ (forall b, In b (bs_breaks st) -> referencesConfirmedSwing highs lows right b).

(** ** Scenario data and scenario predicates *)

(** Candles written as timestamp, open, high, low, close (volume 100). *)
Definition candle (t : Z) (o h l c : Q) : OHLCV := mkOHLCV t o h l c 100.

(** Eleven candles: an outside bar at index 8 is both a swing high and a
    swing low, but only once candles 9 and 10 are known. *)
Definition lookaheadCandles : list OHLCV :=
  [ candle 0 10 10 9 10; candle 1 10 11 9 10; candle 2 10 20 9 10;
    candle 3 10 12 5 10; candle 4 7 12 6 11; candle 5 10 12 6 10;
    candle 6 10 12 6 10; candle 7 10 12 6 10; candle 8 10 25 3 8;
    candle 9 8 9 4 7; candle 10 10 12 6 10 ].

(** Five candles whose highs are 10, 11, 20, 20 and 12: the candle after the
    peak at index 2 ties with it. *)
Definition plateauCandles : list OHLCV :=
  [ candle 0 10 10 9 10; candle 1 10 11 9 10; candle 2 10 20 9 10;
    candle 3 10 20 9 10; candle 4 10 12 9 10 ].

(** Scenario A: [open_i < close_i < open_{i+1}] for every consecutive pair. *)
Definition strictlyIncreasing (candles : list OHLCV) : Prop :=
  (forall i, (i < length candles)%nat -> open (candles !!! i) < close (candles !!! i))
  /\ (forall i, (S i < length candles)%nat ->
                close (candles !!! i) < open (candles !!! S i)).

Definition strictlyIncreasingb (candles : list OHLCV) : bool :=
  forallb (fun i => Qltb (open (candles !!! i)) (close (candles !!! i)))
          (seq 0 (length candles))
  && forallb (fun i => Qltb (close (candles !!! i)) (open (candles !!! S i)))
             (seq 0 (length candles - 1)).

Definition lowsBelowOpens (candles : list OHLCV) : Prop :=
  forall i, (i < length candles)%nat -> low (candles !!! i) <= open (candles !!! i).

Definition risingHighs (candles : list OHLCV) : Prop :=
  forall i, (S i < length candles)%nat -> high (candles !!! i) < high (candles !!! S i).

Definition risingHighsb (candles : list OHLCV) : bool :=
  forallb (fun i => Qltb (high (candles !!! i)) (high (candles !!! S i)))
          (seq 0 (length candles - 1)).

(** Sixty rising candles without wicks: candle [i] opens at [2i], closes at
    [2i+1], with high = close and low = open. *)
Definition risingCandle (i : nat) : OHLCV :=
  let o := inject_Z (2 * Z.of_nat i) in
  let c := inject_Z (2 * Z.of_nat i + 1) in
  candle (Z.of_nat i) o c o c.

Definition risingCandles : list OHLCV := map risingCandle (seq 0 60).

Definition countBreaks (t : BreakType) (bks : list StructureBreak) : nat :=
  length (List.filter (fun b => match sb_type b, t with
                                | BOS, BOS | CHOCH, CHOCH | SWEEP, SWEEP => true
                                | _, _ => false
                                end) bks).

(** Invariant of the classifier on strictly increasing candles. *)
Definition BullishOnly (st : BreakState) : Prop :=
  trend st = BULLISH
  /\ forall b, In b (bs_breaks st) ->
       sb_type b <> CHOCH /\ (sb_type b = BOS -> sb_direction b = BULLISH).

(** ** Specification predicates for mitigation *)

(** An order block as the backward search creates it. *)
Definition freshOrderBlock (ob : OrderBlock) : Prop :=
  ob_mitigated ob = false /\ ob_mitigationIndex ob = None.

(** The mitigation state of a reported order block, read against the
    candles: flagged at the first candle from [index + 5] on that touches the
    zone, unflagged when no such candle exists. *)
Definition mitigatedAtFirstTouch (candles : list OHLCV) (ob : OrderBlock) : Prop :=
  match ob_mitigationIndex ob with
  | Some m =>
      ob_mitigated ob = true
      /\ (ob_index ob + 5 <= m < length candles)%nat
      /\ touchesOB ob (candles !!! m) = true
      /\ forall k, (ob_index ob + 5 <= k < m)%nat -> touchesOB ob (candles !!! k) = false
  | None =>
      ob_mitigated ob = false
      /\ forall k, (ob_index ob + 5 <= k < length candles)%nat ->
                   touchesOB ob (candles !!! k) = false
  end.

Definition markMitigated (ob : OrderBlock) (i : nat) : OrderBlock :=
  mkOrderBlock (ob_type ob) (ob_top ob) (ob_bottom ob) (ob_index ob)
    (ob_timestamp ob) true (Some i).

(** Four candles with a bullish gap between candle 0 and candle 2 that candle
    3 re-enters, and one later candle. *)
Definition gapCandles : list OHLCV :=
  [ candle 0 9 10 9 10; candle 1 10 12 10 12; candle 2 12 14 11 13;
    candle 3 13 13 10 11 ].

Definition gapExtension : list OHLCV := [ candle 4 11 12 11 12 ].

(** * Multi-timeframe alignment (engine/MultiTimeframeEngine.ts) *)

Record HTFContext : Type := mkHTFContext {
  htf_trend : TrendDirection;
  htf_trendStrength : Q;          (* 0-100 *)
  htf_liquidityTarget : option Q;
  htf_liquidityType : option SwingType;
  htf_swingHigh : Q;
  htf_swingLow : Q;
  htf_currentPrice : Q;
  htf_reasoning : list string
}.

Record AlignedTrend : Type := mkAlignedTrend {
  alignedTrend : TrendDirection;
  isAligned : bool;
  confidence : Q
}.

Definition trend_eqb (a b : TrendDirection) : bool :=
  match a, b with
  | Trending BULLISH, Trending BULLISH => true
  | Trending BEARISH, Trending BEARISH => true
  | RANGING, RANGING => true
  | _, _ => false
  end.

Definition isRanging (t : TrendDirection) : bool :=
  match t with RANGING => true | Trending _ => false end.

Definition determineAlignedTrend (daily fourHour : option HTFContext) : AlignedTrend :=
  match daily, fourHour with
  | Some daily, Some fourHour =>
      let dailyTrend := htf_trend daily in
      let fourHourTrend := htf_trend fourHour in
      if trend_eqb dailyTrend fourHourTrend && negb (isRanging dailyTrend) then
        let avgStrength := (htf_trendStrength daily + htf_trendStrength fourHour) / 2 in
        mkAlignedTrend dailyTrend true (avgStrength / 100)
      else if negb (isRanging dailyTrend) && isRanging fourHourTrend
              && Qltb 60 (htf_trendStrength daily) then
        mkAlignedTrend dailyTrend false (htf_trendStrength daily / 150)
      else
        mkAlignedTrend RANGING false 0
  | _, _ => mkAlignedTrend RANGING false 0
  end.

(** A context with the given trend and strength, the remaining fields empty. *)
Definition context (t : TrendDirection) (strength : Q) : HTFContext :=
  mkHTFContext t strength None None 0 0 0 [].

(** * Outcomes of calls *)

Inductive JsError : Type := TypeError.

(** A call either returns a value or throws. *)
Inductive Outcome (A : Type) : Type :=
| Returned (a : A)
| Thrown (e : JsError).
Arguments Returned {A} a.
Arguments Thrown {A} e.

(** * Position sizing *)

(** ** Number formatting

    [toFixed d x] is the number denoted by the string [x.toFixed(d)] for the
    exact value [x]: [x] rounded to [d] decimals, ties away from zero.  Where
    the source keeps such a string and later applies [parseFloat], the model
    keeps this number. *)

Definition pow10 (d : nat) : Q := inject_Z (10 ^ Z.of_nat d).

Definition toFixed (d : nat) (x : Q) : Q :=
  if Qle_bool 0 x
  then inject_Z (Qfloor (x * pow10 d + (1 # 2))) / pow10 d
  else - (inject_Z (Qfloor (- x * pow10 d + (1 # 2))) / pow10 d).

(** JavaScript truthiness of an optional number: defined and not zero. *)
Definition truthy (x : option Q) : bool :=
  match x with
  | Some v => negb (Qeq_bool v 0)
  | None => false
  end.

(** ** core/AccountManager.ts *)

Record AccountManagerConfig : Type := mkAccountManagerConfig {
  am_initialCapital : Q;
  am_commission : Q;
  am_slippage : Q;
  am_riskPerTrade : Q;      (* e.g. 0.02 for 2% *)
  am_maxDailyLoss : Q;
  am_maxTradesPerDay : nat;
  am_leverage : Q
}.

Record AccountState : Type := mkAccountState {
  as_initialCapital : Q;
  as_capital : Q;
  as_equity : Q;
  as_todayPNL : Q;
  as_weeklyPNL : Q;
  as_tradesToday : nat;
  as_winningStreak : nat;
  as_losingStreak : nat;
  as_maxEquity : Q;
  as_maxDrawdown : Q
}.

Record AccountManager : Type := mkAccountManager {
  am_state : AccountState;
  am_config : AccountManagerConfig
}.

Definition newAccountManager (config : AccountManagerConfig) : AccountManager :=
  mkAccountManager
    (mkAccountState (am_initialCapital config) (am_initialCapital config)
       (am_initialCapital config) 0 0 0 0 0 (am_initialCapital config) 0)
    config.

Record PositionSize : Type := mkPositionSize {
  shares : Q;
  ps_riskAmount : Q
}.

(** [Math.floor(shares * 100) / 100] *)
Definition floor2 (x : Q) : Q := inject_Z (Qfloor (x * 100)) / 100.

Definition calculatePositionSize (am : AccountManager) (entryPrice stopLoss : Q)
    : PositionSize :=
  let riskPerShare := Qabs (entryPrice - stopLoss) in
  if Qeq_bool riskPerShare 0 then mkPositionSize 0 0
  else
    let riskAmount := as_capital (am_state am) * am_riskPerTrade (am_config am) in
    let shares0 := riskAmount / riskPerShare in
    let maxPositionValue := as_capital (am_state am) * am_leverage (am_config am) in
    let requestedPositionValue := shares0 * entryPrice in
    let shares1 := if Qltb maxPositionValue requestedPositionValue
                   then maxPositionValue / entryPrice
                   else shares0 in
    mkPositionSize (floor2 shares1) (floor2 shares1 * riskPerShare).

Definition updateOnTradeStart (am : AccountManager) : AccountManager :=
  let s := am_state am in
  mkAccountManager
    (mkAccountState (as_initialCapital s) (as_capital s) (as_equity s) (as_todayPNL s)
       (as_weeklyPNL s) (S (as_tradesToday s)) (as_winningStreak s) (as_losingStreak s)
       (as_maxEquity s) (as_maxDrawdown s))
    (am_config am).

Definition updateOnTradeEnd (am : AccountManager) (pnl : Q) : AccountManager :=
  let s := am_state am in
  let capital := as_capital s + pnl in
  let win := Qltb 0 pnl in
  let maxEquity := if Qltb (as_maxEquity s) capital then capital else as_maxEquity s in
  let currentDrawdown := maxEquity - capital in
  mkAccountManager
    (mkAccountState (as_initialCapital s) capital (as_equity s) (as_todayPNL s + pnl)
       (as_weeklyPNL s + pnl) (as_tradesToday s)
       (if win then S (as_winningStreak s) else 0%nat)
       (if win then 0%nat else S (as_losingStreak s))
       maxEquity
       (if Qltb (as_maxDrawdown s) currentDrawdown then currentDrawdown
        else as_maxDrawdown s))
    (am_config am).

(** ** execution/PositionSizer.ts *)

Record PositionSizingConfig : Type := mkPositionSizingConfig {
  accountBalance : Q;
  riskPercentage : Q;        (* percent *)
  maxRiskPercentage : Q;
  minRiskPercentage : Q;
  maxDailyLoss : Q;
  maxMonthlyLoss : Q;
  maxConsecutiveLosses : nat;
  maxOpenPositions : nat
}.

(** [new PositionSizer({ accountBalance, riskPercentage })]: the remaining
    options take the constructor's defaults. *)
Definition sizingConfig (balance riskPct : Q) : PositionSizingConfig :=
  mkPositionSizingConfig balance riskPct 3 (1 # 4) 5 15 3 3.

Inductive Side : Type := LONG | SHORT.

Record TradeResult : Type := mkTradeResult {
  tr_entryPrice : Q;
  tr_exitPrice : Q;
  tr_quantity : Q;
  tr_profitLoss : Q;
  tr_tradeType : Side
}.

Record PositionSizer : Type := mkPositionSizer {
  config : PositionSizingConfig;
  tradeHistory : list TradeResult;
  currentBalance : Q;
  dailyLoss : Q;
  monthlyLoss : Q;
  consecutiveLosses : nat;
  openPositionsCount : nat
}.

Definition newPositionSizer (cfg : PositionSizingConfig) : PositionSizer :=
  mkPositionSizer cfg [] (accountBalance cfg) 0 0 0 0.

(** The two fields of a sizing method's result that are read again. *)
Record MethodResult : Type := mkMethodResult {
  m_quantity : Q;       (* quantity.toFixed(4) *)
  m_riskAmount : Q      (* riskAmount.toFixed(2) *)
}.

Definition clampRisk (ps : PositionSizer) (pct : Q) : Q :=
  Qmin (Qmax pct (minRiskPercentage (config ps))) (maxRiskPercentage (config ps)).

Definition fixedPercentageRisk (ps : PositionSizer) (entryPrice stopLossPrice : Q)
    : MethodResult :=
  let riskAmount := currentBalance ps * (riskPercentage (config ps) / 100) in
  let riskPerPoint := Qabs (entryPrice - stopLossPrice) in
  let quantity := riskAmount / riskPerPoint in
  mkMethodResult (toFixed 4 quantity) (toFixed 2 riskAmount).

(** [kellyCriterion]: the risk amount, [None] for the [null] results. *)
Definition kellyCriterion (ps : PositionSizer) (winProbability riskRewardRatio : Q)
    (useHalfKelly : bool) : option Q :=
  if Qltb winProbability 0 || Qltb 1 winProbability then None
  else if Qle_bool riskRewardRatio 0 then None
  else
    let p := winProbability in
    let q := 1 - winProbability in
    let b := riskRewardRatio in
    let kellyFraction0 := (b * p - q) / b in
    let kellyFraction := if Qltb kellyFraction0 0 then 0 else kellyFraction0 in
    let finalFraction0 := if useHalfKelly then kellyFraction * (1 # 2) else kellyFraction in
    let finalFraction := Qmin finalFraction0 (maxRiskPercentage (config ps) / 100) in
    Some (toFixed 2 (currentBalance ps * finalFraction)).

Definition kellyCriterionWithPrice (ps : PositionSizer)
    (entryPrice stopLossPrice takeProfitPrice winProbability : Q) : option MethodResult :=
  let riskPerPoint := Qabs (entryPrice - stopLossPrice) in
  let rewardPerPoint := Qabs (takeProfitPrice - entryPrice) in
  let riskRewardRatio := rewardPerPoint / riskPerPoint in
  match kellyCriterion ps winProbability riskRewardRatio true with
  | None => None
  | Some riskAmount =>
      Some (mkMethodResult (toFixed 4 (riskAmount / riskPerPoint)) riskAmount)
  end.

Definition volatilityAdjustedSizing (ps : PositionSizer)
    (entryPrice stopLossPrice atr averageAtr : Q) : option MethodResult :=
  if Qeq_bool atr 0 || Qeq_bool averageAtr 0 then None
  else
    let volatilityRatio := atr / averageAtr in
    let adjustedRiskPercent := clampRisk ps (riskPercentage (config ps) / volatilityRatio) in
    let riskAmount := currentBalance ps * (adjustedRiskPercent / 100) in
    let riskPerPoint := Qabs (entryPrice - stopLossPrice) in
    Some (mkMethodResult (toFixed 4 (riskAmount / riskPerPoint)) (toFixed 2 riskAmount)).

(** The names every object inherits from [Object.prototype]: looked up in
    the [gradeMultipliers] object they yield a function (or, for [__proto__],
    the prototype itself), not a number. *)
Definition objectPrototypeMembers : list string :=
  [ "constructor"; "__defineGetter__"; "__defineSetter__"; "hasOwnProperty";
    "__lookupGetter__"; "__lookupSetter__"; "isPrototypeOf"; "propertyIsEnumerable";
    "toString"; "valueOf"; "__proto__"; "toLocaleString" ].

(** [gradeMultipliers[tradeGrade] || 0.75]: [None] when the lookup finds an
    inherited member instead of a number. *)
Definition gradeMultiplier (tradeGrade : string) : option Q :=
  if String.eqb tradeGrade "A+" then Some (3 # 2)
  else if String.eqb tradeGrade "A" then Some (5 # 4)
  else if String.eqb tradeGrade "B+" then Some 1
  else if String.eqb tradeGrade "B" then Some (3 # 4)
  else if String.eqb tradeGrade "C" then Some (1 # 2)
  else if String.eqb tradeGrade "D" then Some (1 # 4)
  else if existsb (String.eqb tradeGrade) objectPrototypeMembers then None
  else Some (3 # 4).

(** For an inherited member [multiplier.toFixed(2)] is a call of [undefined]
    and throws a [TypeError]. *)
Definition confidenceGradedSizing (ps : PositionSizer) (entryPrice stopLossPrice : Q)
    (tradeGrade : string) (confidenceScore : Q) : Outcome MethodResult :=
  match gradeMultiplier tradeGrade with
  | None => Thrown TypeError
  | Some multiplier =>
      let effectiveMultiplier := multiplier * ((1 # 2) + confidenceScore * (1 # 2)) in
      let adjustedRiskPercent :=
        clampRisk ps (riskPercentage (config ps) * effectiveMultiplier) in
      let riskAmount := currentBalance ps * (adjustedRiskPercent / 100) in
      let riskPerPoint := Qabs (entryPrice - stopLossPrice) in
      Returned (mkMethodResult (toFixed 4 (riskAmount / riskPerPoint)) (toFixed 2 riskAmount))
  end.

Definition momentumMultiplier (momentumScore : Q) : Q :=
  if Qle_bool (9 # 10) momentumScore then 3 # 2
  else if Qle_bool (7 # 10) momentumScore then 5 # 4
  else if Qle_bool (1 # 2) momentumScore then 1
  else if Qle_bool (3 # 10) momentumScore then 3 # 5
  else 3 # 10.

Definition momentumBasedSizing (ps : PositionSizer) (entryPrice stopLossPrice : Q)
    (momentumScore : Q) : MethodResult :=
  let multiplier := momentumMultiplier momentumScore in
  let adjustedRiskPercent := clampRisk ps (riskPercentage (config ps) * multiplier) in
  let riskAmount := currentBalance ps * (adjustedRiskPercent / 100) in
  let riskPerPoint := Qabs (entryPrice - stopLossPrice) in
  mkMethodResult (toFixed 4 (riskAmount / riskPerPoint)) (toFixed 2 riskAmount).

Record RiskChecks : Type := mkRiskChecks {
  belowMaxDailyLoss : bool;
  belowMaxMonthlyLoss : bool;
  belowMaxOpenPositions : bool;
  notTooManyConsecutiveLosses : bool;
  sufficientCapital : bool
}.

Record RiskCheck : Type := mkRiskCheck {
  canOpen : bool;
  checks : RiskChecks;
  failureReasons : list string
}.

Definition canOpenPosition (ps : PositionSizer) (riskAmount : Q) : RiskCheck :=
  let cfg := config ps in
  let checks :=
    mkRiskChecks
      (Qle_bool (dailyLoss ps + riskAmount) (accountBalance cfg * (maxDailyLoss cfg / 100)))
      (Qle_bool (monthlyLoss ps + riskAmount) (accountBalance cfg * (maxMonthlyLoss cfg / 100)))
      (openPositionsCount ps <? maxOpenPositions cfg)%nat
      (consecutiveLosses ps <? maxConsecutiveLosses cfg)%nat
      (Qle_bool riskAmount (currentBalance ps * (5 # 100))) in
  let named :=
    [ ("belowMaxDailyLoss", belowMaxDailyLoss checks);
      ("belowMaxMonthlyLoss", belowMaxMonthlyLoss checks);
      ("belowMaxOpenPositions", belowMaxOpenPositions checks);
      ("notTooManyConsecutiveLosses", notTooManyConsecutiveLosses checks);
      ("sufficientCapital", sufficientCapital checks) ] in
  mkRiskCheck (forallb snd named) checks
    (map fst (List.filter (fun kv => negb (snd kv)) named)).

Definition recordTrade (ps : PositionSizer) (entryPrice exitPrice quantity profitLoss : Q)
    (tradeType : Side) : PositionSizer :=
  let loss := Qltb profitLoss 0 in
  mkPositionSizer (config ps)
    (tradeHistory ps ++ [mkTradeResult entryPrice exitPrice quantity profitLoss tradeType])
    (currentBalance ps + profitLoss)
    (if loss then dailyLoss ps + Qabs profitLoss else dailyLoss ps)
    (if loss then monthlyLoss ps + Qabs profitLoss else monthlyLoss ps)
    (if loss then S (consecutiveLosses ps) else 0%nat)
    (Nat.max 0 (openPositionsCount ps - 1)).

Record SizingParams : Type := mkSizingParams {
  entryPrice : Q;
  stopLossPrice : Q;
  takeProfitPrice : option Q;
  atr : option Q;
  averageAtr : option Q;
  winProbability : option Q;
  tradeGrade : option string;
  confidenceScore : option Q;
  momentumScore : option Q
}.

(** The call [intelligentSizing({ entryPrice, stopLossPrice })]. *)
Definition sizingParams (entry stop : Q) : SizingParams :=
  mkSizingParams entry stop None None None None None None None.

Record Recommendation : Type := mkRecommendation {
  rec_quantity : Q;       (* weightedQty.toFixed(4) *)
  rec_riskAmount : Q;     (* riskAmount.toFixed(2) *)
  rec_entryPrice : Q;
  rec_stopLoss : Q
}.

Record SizingResult : Type := mkSizingResult {
  recommendation : Recommendation;
  riskCheck : RiskCheck
}.

(** [intelligentSizing].  The call throws when the confidence-graded method
    does.  Every method divides by [|entry - stop|]; for [entry = stop] the
    JavaScript quantities are not finite numbers, which is outside this
    model: the result is [Returned None] there. *)
Definition intelligentSizing (ps : PositionSizer) (params : SizingParams)
    : Outcome (option SizingResult) :=
  let entry := entryPrice params in
  let stop := stopLossPrice params in
  let winProb := default (55 # 100) (winProbability params) in
  let grade := default "B" (tradeGrade params) in
  let confScore := default (1 # 2) (confidenceScore params) in
  let momScore := default (1 # 2) (momentumScore params) in
  match confidenceGradedSizing ps entry stop grade confScore with
  | Thrown err => Thrown err
  | Returned confidence =>
      if Qeq_bool (Qabs (entry - stop)) 0 then Returned None
      else
        let fixed := fixedPercentageRisk ps entry stop in
        let kelly :=
          if truthy (takeProfitPrice params)
          then kellyCriterionWithPrice ps entry stop (default 0 (takeProfitPrice params))
                 winProb
          else None in
        let volatility :=
          if truthy (atr params) && truthy (averageAtr params)
          then volatilityAdjustedSizing ps entry stop (default 0 (atr params))
                 (default 0 (averageAtr params))
          else None in
        let momentum := momentumBasedSizing ps entry stop momScore in
        let q0 := m_quantity fixed in
        let q1 := match kelly with Some k => m_quantity k | None => m_quantity fixed end in
        let q2 := match volatility with Some v => m_quantity v | None => m_quantity fixed end in
        let q3 := m_quantity confidence in
        let q4 := m_quantity momentum in
        let weightedQty :=
          q0 * (2 # 10) + q1 * (25 # 100) + q2 * (2 # 10) + q3 * (2 # 10) + q4 * (15 # 100) in
        let riskAmount := m_riskAmount confidence in
        Returned
          (Some (mkSizingResult
                   (mkRecommendation (toFixed 4 weightedQty) (toFixed 2 riskAmount) entry stop)
                   (canOpenPosition ps riskAmount)))
  end.

(** The leverage limit of the sizer in client/DeltaApiClient.ts when none is
    configured ([config.maxLeverage || 10]); that sizer ends
    [intelligentSizing] by capping the quantity at
    [currentBalance * maxLeverage / entryPrice]. *)
Definition DEFAULT_MAX_LEVERAGE : Q := 10.

(** * Signals (types/trading.ts) *)

Inductive Action : Type := BUY | SELL | NO_TRADE.

Record TradeSignal : Type := mkTradeSignal {
  action : Action;
  sig_confidence : Q;
  reasoning : list string;
  price : Q;
  sig_timestamp : Z;
  stopLoss : option Q;
  takeProfit1 : option Q;
  takeProfit2 : option Q;
  timeframe : option string
}.

(** [x || d] on an optional number: [x] when it is defined and not zero. *)
Definition orElse (x : option Q) (d : Q) : Q :=
  match x with
  | Some v => if Qeq_bool v 0 then d else v
  | None => d
  end.

(** * Backtest engine over the SMC strategy (backtest/BacktestEngine.ts, part_004) *)

Record BacktestConfig : Type := mkBacktestConfig {
  cfg_initialCapital : Q;
  cfg_riskPerTrade : Q;      (* percent *)
  cfg_commission : Q;
  cfg_slippage : Q
}.

Record BacktestPosition : Type := mkBacktestPosition {
  bp_coin : string;
  bp_type : Side;
  bp_entryPrice : Q;
  bp_entryTime : Z;
  bp_quantity : Q;
  bp_stopLoss : Q;
  bp_takeProfit : Q;
  bp_riskAmount : Q;
  bp_highWaterMark : Q;
  bp_isBreakeven : bool
}.

Inductive TradeStatus : Type := WIN | LOSS.

Record BacktestTrade : Type := mkBacktestTrade {
  bt_coin : string;
  bt_type : Side;
  bt_entryPrice : Q;
  bt_exitPrice : Q;
  bt_quantity : Q;
  bt_entryTime : Z;
  bt_exitTime : Z;
  bt_durationHours : Q;     (* the number in [duration], one decimal *)
  bt_grossPL : Q;
  bt_netPL : Q;
  bt_plPercent : Q;         (* two decimals *)
  bt_riskReward : Q;        (* two decimals *)
  bt_status : TradeStatus;
  bt_reason : string
}.

Record EquityPoint : Type := mkEquityPoint {
  ep_time : Z;
  ep_equity : Q;
  ep_price : Q
}.

Record BacktestEngine : Type := mkBacktestEngine {
  initialCapital : Q;
  riskPerTrade : Q;
  commission : Q;
  slippage : Q;
  capital : Q;
  equity : Q;
  positions : gmap string BacktestPosition;
  trades : list BacktestTrade;
  equityHistory : list EquityPoint;
  positionSizer : PositionSizer
}.

(** [config.x || default] *)
Definition orDefault (x d : Q) : Q := if Qeq_bool x 0 then d else x.

Definition newBacktestEngine (cfg : BacktestConfig) : BacktestEngine :=
  let initialCapital := orDefault (cfg_initialCapital cfg) 25000 in
  let riskPerTrade := orDefault (cfg_riskPerTrade cfg) 2 in
  mkBacktestEngine initialCapital riskPerTrade
    (orDefault (cfg_commission cfg) (1 # 1000))
    (orDefault (cfg_slippage cfg) (5 # 10000))
    initialCapital initialCapital ∅ [] []
    (newPositionSizer (sizingConfig initialCapital riskPerTrade)).

(** The reset at the start of [runBacktest]. *)
Definition resetEngine (e : BacktestEngine) : BacktestEngine :=
  mkBacktestEngine (initialCapital e) (riskPerTrade e) (commission e) (slippage e)
    (initialCapital e) (initialCapital e) ∅ [] []
    (newPositionSizer (sizingConfig (initialCapital e) (riskPerTrade e))).

Definition calculateRiskReward (position : BacktestPosition) : Q :=
  let '(risk, reward) :=
    match bp_type position with
    | LONG => (bp_entryPrice position - bp_stopLoss position,
               bp_takeProfit position - bp_entryPrice position)
    | SHORT => (bp_stopLoss position - bp_entryPrice position,
                bp_entryPrice position - bp_takeProfit position)
    end in
  if Qle_bool risk 0 then 0 else toFixed 2 (reward / risk).

Definition calculateDuration (start finish : Z) : Q :=
  toFixed 1 (inject_Z (finish - start) / inject_Z (1000 * 60 * 60)).

Definition actionName (a : Action) : string :=
  match a with BUY => "BUY" | SELL => "SELL" | NO_TRADE => "NO_TRADE" end.

(** [executeSellSignal(coin, candle, signal, results, reasonOverride)] *)
Definition executeSellSignal (e : BacktestEngine) (coin : string) (candle : OHLCV)
    (signalAction : Action) (reasonOverride : option string) : BacktestEngine :=
  match positions e !! coin with
  | None => e
  | Some position =>
      let exitPrice0 :=
        match reasonOverride with
        | Some r =>
            if String.eqb r "TAKE_PROFIT" then bp_takeProfit position
            else if String.eqb r "STOP_LOSS" then bp_stopLoss position
            else close candle
        | None => close candle
        end in
      let exitPrice :=
        match bp_type position with
        | LONG => exitPrice0 * (1 - slippage e)
        | SHORT => exitPrice0 * (1 + slippage e)
        end in
      let positionValue := bp_quantity position * bp_entryPrice position in
      let exitValue := bp_quantity position * exitPrice in
      let grossPL :=
        match bp_type position with
        | LONG => exitValue - positionValue
        | SHORT => positionValue - exitValue
        end in
      let commissionCost := exitValue * commission e in
      let netPL := grossPL - commissionCost in
      let trade :=
        mkBacktestTrade coin (bp_type position) (bp_entryPrice position) exitPrice
          (bp_quantity position) (bp_entryTime position) (timestamp candle)
          (calculateDuration (bp_entryTime position) (timestamp candle))
          grossPL netPL (toFixed 2 (netPL / positionValue * 100))
          (calculateRiskReward position)
          (if Qltb 0 netPL then WIN else LOSS)
          (default (actionName signalAction) reasonOverride) in
      mkBacktestEngine (initialCapital e) (riskPerTrade e) (commission e) (slippage e)
        (capital e) (equity e + (grossPL - commissionCost))
        (delete coin (positions e)) (trades e ++ [trade]) (equityHistory e)
        (recordTrade (positionSizer e) (bp_entryPrice position) exitPrice
           (bp_quantity position) netPL (bp_type position))
  end.

(** [coin.toUpperCase()] on ASCII symbols. *)
Definition upperChar (c : Ascii.ascii) : Ascii.ascii :=
  let n := Ascii.nat_of_ascii c in
  if ((97 <=? n) && (n <=? 122))%nat then Ascii.ascii_of_nat (n - 32) else c.

Fixpoint toUpperCase (s : string) : string :=
  match s with
  | EmptyString => EmptyString
  | String c rest => String (upperChar c) (toUpperCase rest)
  end.

Definition highCapSymbols : list string :=
  ["BTCUSD"; "ETHUSD"; "SOLUSD"; "BNBUSD"; "XRPUSD"; "BTC"; "ETH"; "SOL"; "BNB"; "XRP"].

Definition isHighCap (coin : string) : bool :=
  existsb (String.eqb (toUpperCase coin)) highCapSymbols.

Definition withStop (p : BacktestPosition) (stop : Q) (breakeven : bool) (mark : Q)
    : BacktestPosition :=
  mkBacktestPosition (bp_coin p) (bp_type p) (bp_entryPrice p) (bp_entryTime p)
    (bp_quantity p) stop (bp_takeProfit p) (bp_riskAmount p) mark breakeven.

Definition setPositions (e : BacktestEngine) (ps : gmap string BacktestPosition)
    : BacktestEngine :=
  mkBacktestEngine (initialCapital e) (riskPerTrade e) (commission e) (slippage e)
    (capital e) (equity e) ps (trades e) (equityHistory e) (positionSizer e).

(** Breakeven promotion and trailing of an open position that was not
    stopped out or taken profit on this candle (steps 3 and 4 of [checkStops]). *)
Definition trailPosition (coin : string) (candle : OHLCV) (position : BacktestPosition)
    : BacktestPosition :=
  match bp_type position with
  | LONG =>
      let risk := bp_entryPrice position - bp_stopLoss position in
      let beThreshold := risk * (1 # 2) in
      let p1 :=
        if negb (bp_isBreakeven position)
           && Qle_bool (bp_entryPrice position + beThreshold) (high candle)
        then withStop position (bp_entryPrice position) true (bp_highWaterMark position)
        else position in
      if Qltb (bp_highWaterMark p1) (high candle) then
        let currentProfit := (high candle - bp_entryPrice p1) / bp_entryPrice p1 in
        let trailDist := if isHighCap coin then 985 # 1000 else 98 # 100 in
        let newSL := high candle * trailDist in
        if Qltb (3 # 100) currentProfit && Qltb (bp_stopLoss p1) newSL
        then withStop p1 newSL (bp_isBreakeven p1) (high candle)
        else withStop p1 (bp_stopLoss p1) (bp_isBreakeven p1) (high candle)
      else p1
  | SHORT =>
      let risk := bp_stopLoss position - bp_entryPrice position in
      let beThreshold := risk * (1 # 2) in
      let p1 :=
        if negb (bp_isBreakeven position)
           && Qle_bool (low candle) (bp_entryPrice position - beThreshold)
        then withStop position (bp_entryPrice position) true (bp_highWaterMark position)
        else position in
      if Qltb (low candle) (bp_highWaterMark p1) then
        let currentProfit := (bp_entryPrice p1 - low candle) / bp_entryPrice p1 in
        let trailDist := if isHighCap coin then 1015 # 1000 else 102 # 100 in
        let newSL := low candle * trailDist in
        if Qltb (3 # 100) currentProfit && Qltb newSL (bp_stopLoss p1)
        then withStop p1 newSL (bp_isBreakeven p1) (low candle)
        else withStop p1 (bp_stopLoss p1) (bp_isBreakeven p1) (low candle)
      else p1
  end.

(** The body of [this.positions.forEach((position, coin) => ...)]. *)
Definition checkStop (candle : OHLCV) (e : BacktestEngine)
    (entry : string * BacktestPosition) : BacktestEngine :=
  let '(coin, position) := entry in
  match bp_type position with
  | LONG =>
      if Qle_bool (low candle) (bp_stopLoss position)
      then executeSellSignal e coin candle SELL (Some "STOP_LOSS")
      else if Qle_bool (bp_takeProfit position) (high candle)
      then executeSellSignal e coin candle SELL (Some "TAKE_PROFIT")
      else setPositions e (<[coin := trailPosition coin candle position]> (positions e))
  | SHORT =>
      if Qle_bool (bp_stopLoss position) (high candle)
      then executeSellSignal e coin candle BUY (Some "STOP_LOSS")
      else if Qle_bool (low candle) (bp_takeProfit position)
      then executeSellSignal e coin candle BUY (Some "TAKE_PROFIT")
      else setPositions e (<[coin := trailPosition coin candle position]> (positions e))
  end.

Definition checkStops (e : BacktestEngine) (candle : OHLCV) : BacktestEngine :=
  foldl (checkStop candle) e (map_to_list (positions e)).

Definition unrealizedPL (candle : OHLCV) (p : BacktestPosition) : Q :=
  let currentVal := bp_quantity p * close candle in
  let cost := bp_quantity p * bp_entryPrice p in
  match bp_type p with
  | LONG => currentVal - cost
  | SHORT => cost - currentVal
  end.

Definition updateEquityHistory (e : BacktestEngine) (candle : OHLCV) : BacktestEngine :=
  let currentEquity :=
    foldl (fun acc entry => acc + unrealizedPL candle (snd entry)) (equity e)
          (map_to_list (positions e)) in
  mkBacktestEngine (initialCapital e) (riskPerTrade e) (commission e) (slippage e)
    (capital e) (equity e) (positions e) (trades e)
    (equityHistory e ++ [mkEquityPoint (timestamp candle) currentEquity (close candle)])
    (positionSizer e).

(** The entry logic of [runBacktest] for a BUY or SELL signal when no
    position is open: the position is opened, or the iteration is left by
    [continue], or the sizing throws (into the [catch] of the loop body), or
    the sizing is not a finite number. *)
Inductive EntryOutcome : Type :=
| Opened (e : BacktestEngine) (sizing : SizingResult)
| Skipped (message : string)
| Threw (err : JsError)
| NotFinite.

Definition sideOf (a : Action) : Side :=
  match a with BUY => LONG | _ => SHORT end.

Definition tryOpen (e : BacktestEngine) (coin : string) (currentCandle : OHLCV)
    (signal : TradeSignal) : EntryOutcome :=
  let stopLossPrice :=
    orElse (stopLoss signal)
           (match action signal with
            | BUY => price signal * (98 # 100)
            | _ => price signal * (102 # 100)
            end) in
  match intelligentSizing (positionSizer e) (sizingParams (price signal) stopLossPrice) with
  | Thrown err => Threw err
  | Returned None => NotFinite
  | Returned (Some sizing) =>
      let tradeSize := rec_quantity (recommendation sizing) in
      if Qle_bool tradeSize 0 then Skipped "Invalid Size"
      else
        let side := sideOf (action signal) in
        let fee := tradeSize * price signal * commission e in
        if Qltb (equity e) fee then Skipped "Insufficient Equity"
        else
          let position :=
            mkBacktestPosition coin side
              (price signal * match side with
                              | LONG => 1 + slippage e
                              | SHORT => 1 - slippage e
                              end)
              (timestamp currentCandle) tradeSize
              (if Qeq_bool (rec_stopLoss (recommendation sizing)) 0
               then orElse (stopLoss signal) (price signal)
               else rec_stopLoss (recommendation sizing))
              (orElse (takeProfit1 signal) 0)
              (rec_riskAmount (recommendation sizing))
              (price signal) false in
          Opened
            (mkBacktestEngine (initialCapital e) (riskPerTrade e) (commission e)
               (slippage e) (capital e) (equity e - fee)
               (<[coin := position]> (positions e)) (trades e) (equityHistory e)
               (positionSizer e))
            sizing
  end.

(** The [try] block of one loop iteration, given the outcome of
    [strategyEngine.evaluate]; [None] when the sizing left the finite numbers. *)
Definition tryBlock (e : BacktestEngine) (coin : string) (currentCandle : OHLCV)
    (evaluated : Outcome TradeSignal) : option BacktestEngine :=
  match evaluated with
  | Thrown _ => Some e
  | Returned signal =>
      match positions e !! coin with
      | None =>
          match action signal with
          | NO_TRADE => Some (updateEquityHistory e currentCandle)
          | _ =>
              match tryOpen e coin currentCandle signal with
              | Opened e' _ => Some (updateEquityHistory e' currentCandle)
              | Skipped _ => Some e
              | Threw _ => Some e
              | NotFinite => None
              end
          end
      | Some position =>
          let e' :=
            match bp_type position, action signal with
            | LONG, SELL | SHORT, BUY =>
                executeSellSignal e coin currentCandle (action signal) (Some "MANUAL")
            | _, _ => e
            end in
          Some (updateEquityHistory e' currentCandle)
      end
  end.

Section RunBacktest.

(** [this.strategyEngine.evaluate(recentCandles, coin)] *)
Variable evaluate : list OHLCV -> string -> Outcome TradeSignal.

Definition candleStep (coin : string) (candles : list OHLCV) (i : nat)
    (st : option BacktestEngine) : option BacktestEngine :=
  match st with
  | None => None
  | Some e =>
      let recentCandles := take (i + 1) candles in
      let currentCandle := candles !!! i in
      tryBlock (checkStops e currentCandle) coin currentCandle
               (evaluate recentCandles coin)
  end.

(** The loop [for (let i = 50; i < candles.length; i++)] and the forced
    close of a position left open at the end. *)
Definition simulate (e : BacktestEngine) (coin : string) (candles : list OHLCV)
    : option BacktestEngine :=
  match for_loop (length candles - 50) 50 (candleStep coin candles)
          (Some (resetEngine e)) with
  | None => None
  | Some e' =>
      Some (match positions e' !! coin with
            | Some _ => executeSellSignal e' coin (candles !!! (length candles - 1)%nat)
                          SELL None
            | None => e'
            end)
  end.

(** [runBacktest]: reading [candles[0].timestamp] throws on an empty array. *)
Definition runBacktest (e : BacktestEngine) (coin : string) (candles : list OHLCV)
    : Outcome (option BacktestEngine) :=
  match candles with
  | [] => Thrown TypeError
  | _ => Returned (simulate e coin candles)
  end.

End RunBacktest.

(** ** BacktestEngine.calculateMetrics

    The Sharpe ratio (a square root) and the drawdown are not part of this
    record; the other fields are the numbers written by [toFixed(2)]. *)

Definition isWin (t : BacktestTrade) : bool :=
  match bt_status t with WIN => true | LOSS => false end.

Definition sumNetPL (ts : list BacktestTrade) : Q :=
  foldl (fun sum t => sum + bt_netPL t) 0 ts.

Definition winningSum (ts : list BacktestTrade) : Q :=
  sumNetPL (List.filter isWin ts).

(** The sum over the losing trades, before [Math.abs]. *)
Definition grossLoss (ts : list BacktestTrade) : Q :=
  sumNetPL (List.filter (fun t => negb (isWin t)) ts).

Definition losingSum (ts : list BacktestTrade) : Q := Qabs (grossLoss ts).

Definition profitFactor (ts : list BacktestTrade) : Q :=
  if Qltb 0 (losingSum ts)
  then toFixed 2 (winningSum ts / losingSum ts)
  else toFixed 2 (winningSum ts).

Record Metrics : Type := mkMetrics {
  mt_totalReturn : Q;
  mt_totalReturnPercent : Q;
  mt_winRate : Q;
  mt_profitFactor : Q;
  mt_totalTrades : nat;
  mt_winningTrades : nat;
  mt_losingTrades : nat
}.

(** [None] is the empty object returned when there are no trades. *)
Definition calculateMetrics (e : BacktestEngine) : option Metrics :=
  match trades e with
  | [] => None
  | ts =>
      let winningTrades := List.filter isWin ts in
      let losingTrades := List.filter (fun t => negb (isWin t)) ts in
      let totalReturn := equity e - initialCapital e in
      Some (mkMetrics (toFixed 2 totalReturn)
              (toFixed 2 (totalReturn / initialCapital e * 100))
              (toFixed 2 (inject_Z (Z.of_nat (length winningTrades))
                          / inject_Z (Z.of_nat (length ts)) * 100))
              (profitFactor ts)
              (length ts) (length winningTrades) (length losingTrades))
  end.

(** * Backtest engine over a pluggable strategy (src/backtest/BacktestEngine.ts) *)

Inductive StrategyAction : Type := SA_BUY | SA_SELL | WAIT.

Record Signal : Type := mkSignal {
  s_action : StrategyAction;
  s_price : Q;
  s_stopLoss : Q;
  s_takeProfit : Q;
  s_confidence : Q;
  s_setup : option string
}.

Inductive ExitType : Type := STOP_LOSS | TAKE_PROFIT | TIME_EXIT | END_OF_DATA | TRAILING_STOP.

(** [Position] without its [id], which is built from the wall clock and a
    random number and is never read. *)
Record Position : Type := mkPosition {
  p_entryTime : Z;
  p_entryPrice : Q;
  p_stopLoss : Q;
  p_takeProfit : Q;
  p_shares : Q;
  p_direction : Side;
  p_strategy : string;
  p_setup : string;
  p_riskAmount : Q;
  p_riskPercent : Q;
  p_initialCapital : Q
}.

Record Trade : Type := mkTrade {
  t_position : Position;
  t_exitTime : Z;
  t_exitPrice : Q;
  t_exitType : ExitType;
  t_pnl : Q;
  t_pnlPercent : Q;
  t_riskReward : Q
}.

Record StrategyBacktest : Type := mkStrategyBacktest {
  sb_config : AccountManagerConfig;
  accountManager : AccountManager;
  currentPosition : option Position;
  sb_trades : list Trade;
  equityCurve : list (Z * Q)
}.

Definition newStrategyBacktest (leverage : Q) (initial commissionRate slip risk : Q)
    : StrategyBacktest :=
  let cfg := mkAccountManagerConfig initial commissionRate slip risk (5 # 100) 10 leverage in
  mkStrategyBacktest cfg (newAccountManager cfg) None [] [].

Definition checkExit (position : Position) (candle : OHLCV) : option (Q * ExitType) :=
  match p_direction position with
  | LONG =>
      if Qle_bool (low candle) (p_stopLoss position)
      then Some (p_stopLoss position, STOP_LOSS)
      else if Qle_bool (p_takeProfit position) (high candle)
      then Some (p_takeProfit position, TAKE_PROFIT)
      else None
  | SHORT =>
      if Qle_bool (p_stopLoss position) (high candle)
      then Some (p_stopLoss position, STOP_LOSS)
      else if Qle_bool (low candle) (p_takeProfit position)
      then Some (p_takeProfit position, TAKE_PROFIT)
      else None
  end.

Definition closePosition (b : StrategyBacktest) (position : Position) (exitPrice : Q)
    (type : ExitType) (candle : OHLCV) : StrategyBacktest :=
  let pnl0 :=
    match p_direction position with
    | LONG => (exitPrice - p_entryPrice position) * p_shares position
    | SHORT => (p_entryPrice position - exitPrice) * p_shares position
    end in
  let exitCost := p_shares position * exitPrice
                  * (am_commission (sb_config b) + am_slippage (sb_config b)) in
  let pnl := pnl0 - exitCost in
  let trade :=
    mkTrade position (timestamp candle) exitPrice type pnl
      (pnl / p_initialCapital position * 100) (Qabs (pnl / p_riskAmount position)) in
  mkStrategyBacktest (sb_config b) (updateOnTradeEnd (accountManager b) pnl) None
    (sb_trades b ++ [trade]) (equityCurve b).

Definition openPosition (b : StrategyBacktest) (signal : Signal) (candle : OHLCV)
    (strategyName : string) : StrategyBacktest :=
  let sizing := calculatePositionSize (accountManager b) (s_price signal) (s_stopLoss signal) in
  if Qle_bool (shares sizing) 0 then b
  else
    let capitalNow := as_capital (am_state (accountManager b)) in
    let position :=
      mkPosition (timestamp candle) (s_price signal) (s_stopLoss signal)
        (s_takeProfit signal) (shares sizing)
        (match s_action signal with SA_BUY => LONG | _ => SHORT end)
        strategyName (default "" (s_setup signal)) (ps_riskAmount sizing)
        (ps_riskAmount sizing / capitalNow * 100) capitalNow in
    let entryCost := p_shares position * p_entryPrice position
                     * am_commission (sb_config b) in
    mkStrategyBacktest (sb_config b)
      (updateOnTradeEnd (updateOnTradeStart (accountManager b)) (- entryCost))
      (Some position) (sb_trades b) (equityCurve b).

Definition calculateUnrealizedPnL (b : StrategyBacktest) (candle : OHLCV) : Q :=
  match currentPosition b with
  | None => 0
  | Some pos =>
      match p_direction pos with
      | LONG => (close candle - p_entryPrice pos) * p_shares pos
      | SHORT => (p_entryPrice pos - close candle) * p_shares pos
      end
  end.

Section StrategyRun.

(** [strategy.analyze(previousCandles)] and [strategy.name] *)
Variable analyzeStrategy : list OHLCV -> Signal.
Variable strategyName : string.

Definition strategyStep (historicalData : list OHLCV) (i : nat) (b : StrategyBacktest)
    : StrategyBacktest :=
  let currentCandle := historicalData !!! i in
  let previousCandles := take (i + 1) historicalData in
  let b1 :=
    match currentPosition b with
    | Some position =>
        match checkExit position currentCandle with
        | Some (exitPrice, type) => closePosition b position exitPrice type currentCandle
        | None => b
        end
    | None => b
    end in
  let signal := analyzeStrategy previousCandles in
  let b2 :=
    match s_action signal with
    | WAIT => b1
    | _ => openPosition b1 signal currentCandle strategyName
    end in
  mkStrategyBacktest (sb_config b2) (accountManager b2) (currentPosition b2) (sb_trades b2)
    (equityCurve b2
     ++ [(timestamp currentCandle,
          as_capital (am_state (accountManager b2)) + calculateUnrealizedPnL b2 currentCandle)]).

(** [run]: trades and the open position are reset, the account and the
    equity curve are not. *)
Definition run (b : StrategyBacktest) (historicalData : list OHLCV) : StrategyBacktest :=
  for_loop (length historicalData - 50) 50 (strategyStep historicalData)
    (mkStrategyBacktest (sb_config b) (accountManager b) None [] (equityCurve b)).

End StrategyRun.

(** ** calculateResults: the profit factor and its companions *)

Definition sumPnl (ts : list Trade) : Q := foldl (fun s t => s + t_pnl t) 0 ts.

Definition wins (ts : list Trade) : list Trade :=
  List.filter (fun t => Qltb 0 (t_pnl t)) ts.

Definition losses (ts : list Trade) : list Trade :=
  List.filter (fun t => Qle_bool (t_pnl t) 0) ts.

Definition countQ {A : Type} (l : list A) : Q := inject_Z (Z.of_nat (length l)).

Definition avgWin (ts : list Trade) : Q :=
  match wins ts with [] => 0 | w => sumPnl w / countQ w end.

Definition avgLoss (ts : list Trade) : Q :=
  match losses ts with [] => 0 | l => Qabs (sumPnl l / countQ l) end.

Definition resultsProfitFactor (ts : list Trade) : Q :=
  if Qltb 0 (avgLoss ts) then sumPnl (wins ts) / Qabs (sumPnl (losses ts))
  else if Qltb 0 (sumPnl ts) then 100
  else 0.

Definition resultsWinRate (ts : list Trade) : Q :=
  countQ (wins ts) / (match ts with [] => 1 | _ => countQ ts end) * 100.

Definition expectancy (ts : list Trade) : Q :=
  resultsWinRate ts / 100 * avgWin ts - (1 - resultsWinRate ts / 100) * avgLoss ts.

(** ** Scenario data for the backtest engines *)

(** A stand-in strategy engine: BUY at the last close, stop one below, target
    one hundred above; an empty window throws like the engines' [evaluate]. *)
Definition alwaysBuy (candles : list OHLCV) (coin : string) : Outcome TradeSignal :=
  match last candles with
  | None => Thrown TypeError
  | Some c =>
      Returned (mkTradeSignal BUY (8 # 10) [] (close c) (timestamp c)
                  (Some (close c - 1)) (Some (close c + 100)) None None)
  end.

(** Fifty-four candles that open and close at 100 and dip to 98. *)
Definition dippingCandles : list OHLCV :=
  map (fun i => candle (Z.of_nat i) 100 100 98 100) (seq 0 54).

Definition defaultEngine : BacktestEngine :=
  newBacktestEngine (mkBacktestConfig 10000 2 (1 # 1000) (5 # 10000)).

(** The engine state when the entry logic runs for candle 53: candles 50 to
    52 processed, stops checked against candle 53. *)
Definition engineBeforeFourthEntry : option BacktestEngine :=
  match for_loop 3 50 (candleStep alwaysBuy "BTCUSD" dippingCandles)
          (Some (resetEngine defaultEngine)) with
  | Some e => Some (checkStops e (dippingCandles !!! 53%nat))
  | None => None
  end.

(** A winning trade of one unit bought at 100 with net profit [pl]. *)
Definition winningTrade (pl : Q) : BacktestTrade :=
  mkBacktestTrade "BTCUSD" LONG 100 (100 + pl) 1 0 3600000 1 pl pl pl 0 WIN "TAKE_PROFIT".

Definition losingTrade (pl : Q) : BacktestTrade :=
  mkBacktestTrade "BTCUSD" LONG 100 (100 + pl) 1 0 3600000 1 pl pl pl 0 LOSS "STOP_LOSS".

(** A strategy that always buys at the close, stop two below, target one
    hundred above; fifty-two quiet candles around 100. *)
Definition alwaysLong (candles : list OHLCV) : Signal :=
  let c := candles !!! (length candles - 1)%nat in
  mkSignal SA_BUY (close c) (close c - 2) (close c + 100) (8 # 10) None.

Definition quietCandles : list OHLCV :=
  map (fun i => candle (Z.of_nat i) 100 101 99 100) (seq 0 52).

Definition strategyBacktest : StrategyBacktest :=
  newStrategyBacktest 10 10000 (1 # 1000) (5 # 10000) (2 # 100).

(** * Signal evaluation *)

(** ** Strategy configuration (config/StrategyConfig.ts) *)

Record StrategyConfig : Type := mkStrategyConfig {
  requireHTFAlignment : bool;
  allowSingleHTFTrend : bool;
  strictFibZone : bool;
  allowEquilibriumZone : bool;
  requireCLSCandle : bool;
  clsWickMinPercent : Q;
  requireCIOD : bool;
  ciodLookback : nat;
  requireOrderBlockRetest : bool;
  orderBlockProximity : Q;
  minRiskReward : Q;
  enableTieredSignals : bool
}.


Definition STRICT_CONFIG : StrategyConfig :=
  mkStrategyConfig true false true false true (3 # 10) true 5 true 1 2 false.

Definition BALANCED_CONFIG : StrategyConfig :=
  mkStrategyConfig false true false true false (25 # 100) false 7 true (15 # 10) (18 # 10) true.

(** ** analysis/OrderBlockAnalyzer.ts (part_015) *)

Module OrderBlockAnalyzer.

Record OrderBlock : Type := mkOrderBlock {
  oba_price : Q;
  oba_high : Q;
  oba_low : Q;
  oba_type : Direction;
  oba_index : nat;
  oba_candle : OHLCV;
  oba_strength : Q;
  oba_isMitigated : bool
}.

Definition MIN_OB_MOVE_PERCENT : Q := 15 # 10.

(** [Math.max(...xs)] and [Math.min(...xs)] over the three candles after
    [index]. *)
Definition highestHigh (candles : list OHLCV) (index : nat) : Q :=
  Qmax (Qmax (high (candles !!! (index + 1)%nat)) (high (candles !!! (index + 2)%nat)))
       (high (candles !!! (index + 3)%nat)).

Definition lowestLow (candles : list OHLCV) (index : nat) : Q :=
  Qmin (Qmin (low (candles !!! (index + 1)%nat)) (low (candles !!! (index + 2)%nat)))
       (low (candles !!! (index + 3)%nat)).

Definition checkIfMitigated (candles : list OHLCV) (obIndex : nat) (obLow obHigh : Q)
    (obType : Direction) : bool :=
  existsb (fun i =>
             match obType with
             | BULLISH => Qltb (close (candles !!! i)) obLow
             | BEARISH => Qltb obHigh (close (candles !!! i))
             end)
          (seq (obIndex + 4) (length candles - (obIndex + 4))).

Definition checkBullishOrderBlock (candles : list OHLCV) (index : nat)
    : option OrderBlock :=
  if (length candles - 3 <=? index)%nat then None
  else
    let currentCandle := candles !!! index in
    let movePercent :=
      (highestHigh candles index - high currentCandle) / high currentCandle * 100 in
    if Qle_bool MIN_OB_MOVE_PERCENT movePercent then
      Some (mkOrderBlock ((high currentCandle + low currentCandle) / 2)
              (high currentCandle) (low currentCandle) BULLISH index currentCandle
              movePercent
              (checkIfMitigated candles index (low currentCandle) (high currentCandle)
                 BULLISH))
    else None.

Definition checkBearishOrderBlock (candles : list OHLCV) (index : nat)
    : option OrderBlock :=
  if (length candles - 3 <=? index)%nat then None
  else
    let currentCandle := candles !!! index in
    let movePercent :=
      (low currentCandle - lowestLow candles index) / low currentCandle * 100 in
    if Qle_bool MIN_OB_MOVE_PERCENT movePercent then
      Some (mkOrderBlock ((high currentCandle + low currentCandle) / 2)
              (high currentCandle) (low currentCandle) BEARISH index currentCandle
              movePercent
              (checkIfMitigated candles index (low currentCandle) (high currentCandle)
                 BEARISH))
    else None.

Definition blocksAt (candles : list OHLCV) (i : nat) : list OrderBlock :=
  match checkBullishOrderBlock candles i with Some ob => [ob] | None => [] end
  ++ match checkBearishOrderBlock candles i with Some ob => [ob] | None => [] end.

Definition detectOrderBlocks (candles : list OHLCV) (lookback : nat) : list OrderBlock :=
  if (length candles <? 10)%nat then []
  else
    let startIndex := Nat.max 0 (length candles - lookback) in
    List.filter (fun ob => negb (oba_isMitigated ob))
      (for_loop (length candles - 3 - startIndex) startIndex
         (fun i orderBlocks => orderBlocks ++ blocksAt candles i) []).

Definition isPriceNearOrderBlock (currentPrice : Q) (orderBlock : OrderBlock)
    (tolerance : Q) : bool :=
  let obMid := (oba_high orderBlock + oba_low orderBlock) / 2 in
  let distance := Qabs (currentPrice - obMid) / obMid in
  Qle_bool distance tolerance.

End OrderBlockAnalyzer.

(** ** Rendering [x.toFixed(d)] as text *)

Fixpoint zeros (n : nat) : string :=
  match n with
  | O => ""
  | S n' => "0" +:+ zeros n'
  end.

Definition padZeros (d : nat) (s : string) : string :=
  zeros (d - String.length s) +:+ s.

Definition toFixedString (d : nat) (x : Q) : string :=
  let scale := (10 ^ Z.of_nat d)%Z in
  let n := Qfloor (Qabs x * inject_Z scale + (1 # 2)) in
  let whole := pretty (n / scale)%Z in
  let text :=
    match d with
    | O => whole
    | _ => whole +:+ "." +:+ padZeros d (pretty (n mod scale)%Z)
    end in
  if Qltb x 0 then "-" +:+ text else text.

(** ** engine/StrategyEngine.ts: the synchronous SMC evaluator *)

Definition MIN_SL_DISTANCE_PERCENT : Q := 2 # 10.
Definition MAX_RR_CAP : Q := 10.

Definition directionOf (t : TrendDirection) : option Direction :=
  match t with Trending d => Some d | RANGING => None end.

Definition direction_eqb (a b : Direction) : bool :=
  match a, b with
  | BULLISH, BULLISH | BEARISH, BEARISH => true
  | _, _ => false
  end.

Definition noTradeSignal (lastCandle : OHLCV) : TradeSignal :=
  mkTradeSignal NO_TRADE 0 [] (close lastCandle) (timestamp lastCandle) None None None None.

(** The body of the [try] block; it returns the signal in every branch. *)
Definition evaluateSMC (cfg : StrategyConfig) (candles : list OHLCV) (lastCandle : OHLCV)
    : TradeSignal :=
  let signal := noTradeSignal lastCandle in
  let currentPrice := close lastCandle in
  let smc := analyze candles in
  match structure smc with
  | RANGING => signal
  | Trending trend =>
      let obs := OrderBlockAnalyzer.detectOrderBlocks candles 50 in
      let validOBs :=
        List.filter (fun ob => direction_eqb (OrderBlockAnalyzer.oba_type ob) trend
                               && negb (OrderBlockAnalyzer.oba_isMitigated ob)) obs in
      match last validOBs with
      | None => signal
      | Some ob =>
          if negb (OrderBlockAnalyzer.isPriceNearOrderBlock currentPrice ob (1 # 100))
          then signal
          else
            let stopLoss0 :=
              match trend with
              | BULLISH => OrderBlockAnalyzer.oba_low ob
              | BEARISH => OrderBlockAnalyzer.oba_high ob
              end in
            let target :=
              match trend with
              | BULLISH => orElse (option_map dr_high (dealingRange smc))
                                  (currentPrice * (102 # 100))
              | BEARISH => orElse (option_map dr_low (dealingRange smc))
                                  (currentPrice * (98 # 100))
              end in
            let risk0 := orDefault (Qabs (currentPrice - stopLoss0)) (1 # 10000) in
            let minRisk := currentPrice * (MIN_SL_DISTANCE_PERCENT / 100) in
            let tooTight := Qltb risk0 minRisk in
            let stopLoss1 :=
              if tooTight
              then match trend with
                   | BULLISH => currentPrice - minRisk
                   | BEARISH => currentPrice + minRisk
                   end
              else stopLoss0 in
            let risk := if tooTight then minRisk else risk0 in
            let reward := Qabs (target - currentPrice) in
            let rr0 := reward / risk in
            let rr := if Qltb MAX_RR_CAP rr0 then MAX_RR_CAP else rr0 in
            if Qltb rr (minRiskReward cfg) then signal
            else
              let act := match trend with BULLISH => BUY | BEARISH => SELL end in
              mkTradeSignal act (6 # 10)
                ["SMC Sync: " +:+ actionName act +:+ " RR: " +:+ toFixedString 2 rr +:+ ":1"]
                currentPrice (timestamp lastCandle) (Some stopLoss1) (Some target) None None
      end
  end.

(** [StrategyEngine.evaluate]: the last candle is read before the length is
    checked. *)
Definition evaluate (cfg : StrategyConfig) (candles : list OHLCV) : Outcome TradeSignal :=
  match last candles with
  | None => Thrown TypeError
  | Some lastCandle =>
      if (length candles <? 100)%nat then Returned (noTradeSignal lastCandle)
      else Returned (evaluateSMC cfg candles lastCandle)
  end.

(** ** The pattern-based evaluator (part_001): [createSignal] *)

Section PatternEngine.

(** [Date.now()] at the time of the call. *)
Variable now : Z.

Definition createSignal (act : Action) (conf : Q) (reasons : list string) (p : Q)
    (sl tp1 tp2 : option Q) (tf : option string) : TradeSignal :=
  mkTradeSignal act conf reasons p now sl tp1 tp2 tf.

(** Lines 356 to 701 of [evaluate]: the arguments handed to [createSignal]
    for fifty candles or more, computed from the candles and the timeframe
    by detectors and indicators that are not among the sources (the early
    NO_TRADE returns hand over no stop, target or timeframe). *)
Variable scoreCandles : list OHLCV -> string -> TradeSignal.

Definition evaluatePatterns (candles : list OHLCV) (tf : string) : TradeSignal :=
  if (length candles <? 50)%nat then
    createSignal NO_TRADE 0 ["Insufficient data (need 50+)"]
      (orElse (option_map close (last candles)) 0) None None None None
  else
    let s := scoreCandles candles tf in
    createSignal (action s) (sig_confidence s) (reasoning s) (price s)
      (stopLoss s) (takeProfit1 s) (takeProfit2 s) (timeframe s).

End PatternEngine.

(** * Further specification predicates *)

(** What a structure break records about its candle: the candle traded
    beyond the break price, and the break is confirmed exactly when the
    candle also closed beyond it. *)
Definition breakMatchesCandle (candles : list OHLCV) (b : StructureBreak) : Prop :=
  (sb_index b < length candles)%nat
  /\ sb_timestamp b = timestamp (candles !!! sb_index b)
  /\ sb_isConfirmed b = negb (is_SWEEP (sb_type b))
  /\ match sb_direction b with
     | BULLISH =>
         sb_price b < high (candles !!! sb_index b)
         /\ (sb_isConfirmed b = true <-> sb_price b < close (candles !!! sb_index b))
     | BEARISH =>
         low (candles !!! sb_index b) < sb_price b
         /\ (sb_isConfirmed b = true <-> close (candles !!! sb_index b) < sb_price b)
     end.

Definition breaksAscending (bks : list StructureBreak) : Prop :=
  forall i j a b, bks !! i = Some a -> bks !! j = Some b ->
                  (i < j)%nat -> (sb_index a < sb_index b)%nat.

Definition BreakListInv (candles : list OHLCV) (n : nat) (st : BreakState) : Prop :=
  breaksAscending (bs_breaks st)
  /\ forall b, In b (bs_breaks st) -> (sb_index b < n)%nat /\ breakMatchesCandle candles b.

(** A candle coloured against a break direction: red (close below open) for a
    BULLISH break, green for a BEARISH one. *)
Definition contraryCandle (dir : Direction) (c : OHLCV) : bool :=
  match dir with
  | BULLISH => Qltb (close c) (open c)
  | BEARISH => Qltb (open c) (close c)
  end.

(** An order block and the break it was derived from. *)
Definition originOf (candles : list OHLCV) (bk : StructureBreak) (ob : OrderBlock) : Prop :=
  ob_type ob = sb_direction bk
  /\ (ob_index ob < sb_index bk <= ob_index ob + searchLimit)%nat
  /\ ob_top ob = high (candles !!! ob_index ob)
  /\ ob_bottom ob = low (candles !!! ob_index ob)
  /\ ob_timestamp ob = timestamp (candles !!! ob_index ob)
  /\ contraryCandle (sb_direction bk) (candles !!! ob_index ob) = true
  /\ forall k, (ob_index ob < k < sb_index bk)%nat ->
               contraryCandle (sb_direction bk) (candles !!! k) = false.

Definition gapMitigatedAtFirstTouch (candles : list OHLCV) (fvg : FairValueGap) : Prop :=
  match fvg_mitigationIndex fvg with
  | Some m =>
      fvg_mitigated fvg = true
      /\ (fvg_index fvg + 2 <= m < length candles)%nat
      /\ touchesFVG fvg (candles !!! m) = true
      /\ forall k, (fvg_index fvg + 2 <= k < m)%nat -> touchesFVG fvg (candles !!! k) = false
  | None =>
      fvg_mitigated fvg = false
      /\ forall k, (fvg_index fvg + 2 <= k < length candles)%nat ->
                   touchesFVG fvg (candles !!! k) = false
  end.

Definition gapBetweenNeighbours (candles : list OHLCV) (fvg : FairValueGap) : Prop :=
  (1 <= fvg_index fvg)%nat /\ (fvg_index fvg + 1 < length candles)%nat
  /\ fvg_bottom fvg < fvg_top fvg
  /\ match fvg_type fvg with
     | BULLISH => fvg_bottom fvg = high (candles !!! (fvg_index fvg - 1)%nat)
                  /\ fvg_top fvg = low (candles !!! (fvg_index fvg + 1)%nat)
     | BEARISH => fvg_top fvg = low (candles !!! (fvg_index fvg - 1)%nat)
                  /\ fvg_bottom fvg = high (candles !!! (fvg_index fvg + 1)%nat)
     end.

Definition markGapMitigated (fvg : FairValueGap) (i : nat) : FairValueGap :=
  mkFairValueGap (fvg_type fvg) (fvg_top fvg) (fvg_bottom fvg) (fvg_index fvg)
    (fvg_timestamp fvg) true (Some i).

(** ** Sequences of recorded trades and of closed-trade results *)

Definition recordTradeResult (ps : PositionSizer) (t : TradeResult) : PositionSizer :=
  recordTrade ps (tr_entryPrice t) (tr_exitPrice t) (tr_quantity t) (tr_profitLoss t)
    (tr_tradeType t).

Definition recordTrades (ps : PositionSizer) (ts : list TradeResult) : PositionSizer :=
  foldl recordTradeResult ps ts.

Definition isLoss (t : TradeResult) : bool := Qltb (tr_profitLoss t) 0.

(** The sum of the profits and losses of a list of recorded trades. *)
Definition totalProfitLoss (ts : list TradeResult) : Q :=
  foldl (fun s t => s + tr_profitLoss t) 0 ts.

Definition applyPnls (am : AccountManager) (pnls : list Q) : AccountManager :=
  foldl updateOnTradeEnd am pnls.

Definition sumQ (xs : list Q) : Q := foldl Qplus 0 xs.

(** ** core/AccountManager.ts: the revenge-trading guard

    [isRevengeTrading] returns a status and, when the status is set, one of
    three warning messages; the message is modelled by the rule that
    produced it. *)

Inductive RevengeWarning : Type := TradeLimitReached | LosingStreakWarning | DailyLossLimit.

Record RevengeCheck : Type := mkRevengeCheck {
  rc_status : bool;
  rc_message : option RevengeWarning
}.

Definition isRevengeTrading (am : AccountManager) : RevengeCheck :=
  let s := am_state am in
  let c := am_config am in
  if (am_maxTradesPerDay c <=? as_tradesToday s)%nat
  then mkRevengeCheck true (Some TradeLimitReached)
  else if (3 <=? as_losingStreak s)%nat
  then mkRevengeCheck true (Some LosingStreakWarning)
  else
    let dailyPnLPercent := as_todayPNL s / am_initialCapital c in
    if Qle_bool dailyPnLPercent (- am_maxDailyLoss c)
    then mkRevengeCheck true (Some DailyLossLimit)
    else mkRevengeCheck false None.

Definition resetDailyStats (am : AccountManager) : AccountManager :=
  let s := am_state am in
  mkAccountManager
    (mkAccountState (as_initialCapital s) (as_capital s) (as_equity s) 0
       (as_weeklyPNL s) 0 (as_winningStreak s) (as_losingStreak s)
       (as_maxEquity s) (as_maxDrawdown s))
    (am_config am).

(** ** Invariants of a backtest run (part_004)

    What every engine state reached while backtesting [coin] from the engine
    [e0] satisfies: positions are held for [coin] only, the configuration and
    [capital] are untouched, the sizer's balance is the initial capital plus
    the net result of the closed trades, and [equity] does not exceed it. *)

Definition onlyCoin (coin : string) (m : gmap string BacktestPosition) : Prop :=
  forall k p, m !! k = Some p -> k = coin.

(** What [executeSellSignal] hands to [PositionSizer.recordTrade] for a
    closed trade. *)
Definition tradeResultOf (t : BacktestTrade) : TradeResult :=
  mkTradeResult (bt_entryPrice t) (bt_exitPrice t) (bt_quantity t) (bt_netPL t) (bt_type t).

Definition EngineInv (e0 : BacktestEngine) (coin : string) (e : BacktestEngine) : Prop :=
  onlyCoin coin (positions e)
  /\ initialCapital e = initialCapital e0
  /\ commission e = commission e0
  /\ slippage e = slippage e0
  /\ capital e = initialCapital e0
  /\ currentBalance (positionSizer e) == initialCapital e0 + sumNetPL (trades e)
  /\ equity e <= currentBalance (positionSizer e)
  /\ tradeHistory (positionSizer e) = map tradeResultOf (trades e).

(** A stand-in strategy engine that buys at 100 with the stop at 99 and the
    target at 200, whatever the candles are. *)
Definition buyAtHundred (candles : list OHLCV) (coin : string) : Outcome TradeSignal :=
  Returned (mkTradeSignal BUY (8 # 10) [] 100 0 (Some 99) (Some 200) None None).

(** [closedAs e e' coin p reason px]: from [e] to [e'] the position [p] of
    [coin] was closed in one trade with the given reason and exit price. *)
Definition closedAs (e e' : BacktestEngine) (coin : string) (p : BacktestPosition)
    (reason : string) (px : Q) : Prop :=
  positions e' !! coin = None
  /\ exists t, trades e' = trades e ++ [t]
               /\ bt_reason t = reason
               /\ bt_exitPrice t = px
               /\ bt_quantity t = bp_quantity p
               /\ equity e' == equity e + bt_netPL t.

(** [kept e e' coin p']: the position of [coin] stays open as [p'], nothing is
    booked. *)
Definition kept (e e' : BacktestEngine) (coin : string) (p' : BacktestPosition) : Prop :=
  positions e' !! coin = Some p' /\ trades e' = trades e /\ equity e' = equity e.

(** An open long position of ten units bought at 100 with the stop at 95 and
    the target at 110, and the default engine holding it. *)
Definition openLong : BacktestPosition :=
  mkBacktestPosition "BTCUSD" LONG 100 0 10 95 110 50 100 false.

Definition engineWithLong : BacktestEngine :=
  setPositions defaultEngine {[ "BTCUSD" := openLong ]}.

(** A long position with a wide stop (11 below the entry), and the same
    position after a candle with high 105: the stop is trailed to 103.425,
    above the entry, while the breakeven threshold 105.5 is not reached. *)
Definition wideLong : BacktestPosition :=
  mkBacktestPosition "BTCUSD" LONG 100 0 10 89 120 110 100 false.

Definition trailedLong : BacktestPosition :=
  trailPosition "BTCUSD" (candle 1 100 105 99 104) wideLong.

(** ** Specification predicates for the order-block detector (part_015) *)

Definition pricesPositive (candles : list OHLCV) : bool :=
  forallb (fun c => Qltb 0 (low c) && Qltb 0 (high c)) candles.

(** What [detectOrderBlocks] reports about a block: an unmitigated candle of
    the lookback window followed within three candles by a move of at least
    1.5% beyond it, with no later close through its far side. *)
Definition unmitigatedBlock (candles : list OHLCV) (lookback : nat)
    (ob : OrderBlockAnalyzer.OrderBlock) : Prop :=
  let i := OrderBlockAnalyzer.oba_index ob in
  let c := candles !!! i in
  (10 <= length candles)%nat
  /\ (length candles - lookback <= i)%nat /\ (i + 3 < length candles)%nat
  /\ OrderBlockAnalyzer.oba_candle ob = c
  /\ OrderBlockAnalyzer.oba_high ob = high c
  /\ OrderBlockAnalyzer.oba_low ob = low c
  /\ OrderBlockAnalyzer.oba_price ob = (high c + low c) / 2
  /\ OrderBlockAnalyzer.oba_isMitigated ob = false
  /\ OrderBlockAnalyzer.MIN_OB_MOVE_PERCENT <= OrderBlockAnalyzer.oba_strength ob
  /\ match OrderBlockAnalyzer.oba_type ob with
     | BULLISH =>
         high c * (1015 # 1000) <= OrderBlockAnalyzer.highestHigh candles i
         /\ forall k, (i + 4 <= k < length candles)%nat -> low c <= close (candles !!! k)
     | BEARISH =>
         OrderBlockAnalyzer.lowestLow candles i <= low c * (985 # 1000)
         /\ forall k, (i + 4 <= k < length candles)%nat -> close (candles !!! k) <= high c
     end.

(** Ten candles: six around 100, then four that trade up to 102. *)
Definition impulseCandles : list OHLCV :=
  map (fun i => if (i <? 6)%nat then candle (Z.of_nat i) (995 # 10) 100 99 (995 # 10)
                else candle (Z.of_nat i) 101 102 (1005 # 10) (1015 # 10))
      (seq 0 10).



(** ** MultiTimeframeEngine: trend strength and context validation *)

(** [xs.slice(-n)] for [n] at most the length: the last [n] elements. *)
Definition lastN {A : Type} (n : nat) (l : list A) : list A := drop (length l - n) l.

Definition movesWith (trend : TrendDirection) (prev cur : OHLCV) : bool :=
  match trend with
  | Trending BULLISH => Qltb (close prev) (close cur)
  | Trending BEARISH => Qltb (close cur) (close prev)
  | RANGING => false
  end.

(** The counting loop of [calculateTrendStrength]. *)
Definition trendingCandles (recentCandles : list OHLCV) (trend : TrendDirection) : nat :=
  for_loop (length recentCandles - 1) 1
    (fun i n => if movesWith trend (recentCandles !!! (i - 1)%nat) (recentCandles !!! i)
                then S n else n)
    0%nat.

Definition calculateTrendStrength (candles : list OHLCV) (trend : TrendDirection) : Q :=
  if isRanging trend then 0
  else
    let lookback := Nat.min 20 (length candles) in
    let recentCandles := lastN lookback candles in
    inject_Z (Z.of_nat (trendingCandles recentCandles trend))
    / inject_Z (Z.of_nat (length recentCandles - 1)) * 100.

Inductive FibZone : Type := PREMIUM | DISCOUNT | EQUILIBRIUM.

(** [validateHTFContext]: the [isValid] field. *)
Definition validateHTFContext (ltfPrice : Q) (htfTrend : TrendDirection) (fibZone : FibZone)
    : bool :=
  match htfTrend, fibZone with
  | RANGING, _ => false
  | Trending BEARISH, PREMIUM => true
  | Trending BULLISH, DISCOUNT => true
  | _, _ => false
  end.

(** A context as [analyzeHTFContext] fills its trend and strength fields. *)
Definition analyzedContext (candles : list OHLCV) (trend : TrendDirection) : HTFContext :=
  context trend (calculateTrendStrength candles trend).

(** ** SMCAnalyzer.calculateSDTargets *)

Record StandardDeviationTarget : Type := mkStandardDeviationTarget {
  sd_level : Q;
  sd_price : Q
}.

Definition calculateSDTargets (origin anchor : Q) : list StandardDeviationTarget :=
  let ranges := [2; 5 # 2; 4] in
  let diff := anchor - origin in
  map (fun ext => mkStandardDeviationTarget ext (anchor + ext * diff)) ranges.

(** [sp] is the swing of the list with the greatest index. *)
Definition latestSwing (swings : list SwingPoint) (i : nat) : Prop :=
  (exists sp, In sp swings /\ sp_index sp = i)
  /\ forall sp, In sp swings -> (sp_index sp <= i)%nat.

(** ** The pattern engine's signal quality score (part_001) *)

Record SignalQuality : Type := mkSignalQuality {
  sq_score : nat;
  sq_grade : string;
  sq_confluenceCount : nat;
  sq_regimeMatch : bool;
  sq_htfAligned : bool;
  sq_volumeConfirmed : bool
}.

Definition calculateSignalQuality (confluenceCount : nat)
    (regimeMatch htfAligned volumeConfirmed : bool) : SignalQuality :=
  let score0 := Nat.min (confluenceCount * 10) 40 in
  let score1 := if regimeMatch then (score0 + 20)%nat else score0 in
  let score2 := if htfAligned then (score1 + 25)%nat else score1 in
  let score := if volumeConfirmed then (score2 + 15)%nat else score2 in
  let grade :=
    if (85 <=? score)%nat then "A+"
    else if (70 <=? score)%nat then "A"
    else if (60 <=? score)%nat then "B"
    else if (50 <=? score)%nat then "C"
    else "D" in
  mkSignalQuality score grade confluenceCount regimeMatch htfAligned volumeConfirmed.

(** The quality gate of the pattern engine's [evaluate]: a signal is
    rejected when its score is below 45. *)
Definition passesQualityGate (q : SignalQuality) : bool := negb (sq_score q <? 45)%nat.

(** Two closed trades of the strategy backtest: a target hit worth 100 and a
    stop-out costing 20. *)
Definition twoTrades : list Trade :=
  [ mkTrade (mkPosition 0 100 98 110 10 LONG "trend" "" 20 (2 # 10) 10000)
      1 110 TAKE_PROFIT 100 1 5;
    mkTrade (mkPosition 2 100 98 110 10 LONG "trend" "" 20 (2 # 10) 10100)
      3 98 STOP_LOSS (- (20)) (- (2 # 10)) 1 ].

(** * Liquidity analysis (analysis/LiquidityAnalyzer.ts, part_015) *)

Module LiquidityAnalyzer.

Definition EQUAL_LEVEL_TOLERANCE : Q := 2 # 1000.
Definition MIN_TOUCHES : nat := 2.
Definition SWEEP_CONFIRMATION_CANDLES : nat := 3.

(** [xs.slice(-n)]: the last [n] elements; [slice(-0)] is the whole array. *)
Definition sliceLast {A : Type} (n : nat) (l : list A) : list A :=
  if (n =? 0)%nat then l else drop (length l - n) l.

(** [xs.slice(a, b)] *)
Definition slice {A : Type} (a b : nat) (l : list A) : list A := take (b - a) (drop a l).

Record LiquiditySweep : Type := mkLiquiditySweep {
  ls_level : Q;
  ls_type : SwingType;
  ls_sweepIndex : nat;
  ls_sweepCandle : OHLCV;
  ls_reversalConfirmed : bool
}.

(** A candle that trades through the level and closes back inside. *)
Definition swept (type : SwingType) (level : Q) (c : OHLCV) : bool :=
  match type with
  | HIGH => Qltb level (high c) && Qltb (close c) level
  | LOW => Qltb (low c) level && Qltb level (close c)
  end.

Definition checkReversalConfirmation (candles : list OHLCV) (sweepType : SwingType) : bool :=
  if (length candles <? SWEEP_CONFIRMATION_CANDLES)%nat then false
  else
    let firstClose := close (candles !!! 0%nat) in
    let lastClose := close (candles !!! (length candles - 1)%nat) in
    match sweepType with
    | HIGH => Qltb lastClose firstClose
    | LOW => Qltb firstClose lastClose
    end.

(** The loop returns at the first swept candle of the window. *)
Definition detectLiquiditySweep (candles : list OHLCV) (level : Q) (type : SwingType)
    (lookback : nat) : option LiquiditySweep :=
  if (length candles <? lookback + SWEEP_CONFIRMATION_CANDLES)%nat then None
  else
    let recentCandles := sliceLast lookback candles in
    match List.find (fun i => swept type level (recentCandles !!! i))
            (seq 0 (length recentCandles - SWEEP_CONFIRMATION_CANDLES)) with
    | None => None
    | Some i =>
        let confirmationCandles :=
          slice (i + 1) (i + 1 + SWEEP_CONFIRMATION_CANDLES) recentCandles in
        Some (mkLiquiditySweep level type (length candles - lookback + i)
                (recentCandles !!! i)
                (checkReversalConfirmation confirmationCandles type))
    end.

(** ** Equal highs and lows *)

Record Pivot : Type := mkPivot {
  pv_price : Q;
  pv_index : nat
}.

Record LiquidityLevel : Type := mkLiquidityLevel {
  ll_price : Q;
  ll_type : SwingType;
  ll_strength : nat;
  ll_indices : list nat;
  ll_isSwept : bool
}.

(** The two inner loops of [findSwingHighs]: no bar of the left and right
    windows has a high at or above the current one. *)
Definition isPivotHigh (candles : list OHLCV) (leftBars rightBars i : nat) : bool :=
  let currentHigh := high (candles !!! i) in
  forallb (fun j => negb (Qle_bool currentHigh (high (candles !!! j))))
          (seq (i - leftBars) leftBars)
  && forallb (fun j => negb (Qle_bool currentHigh (high (candles !!! j))))
             (seq (i + 1) rightBars).

Definition isPivotLow (candles : list OHLCV) (leftBars rightBars i : nat) : bool :=
  let currentLow := low (candles !!! i) in
  forallb (fun j => negb (Qle_bool (low (candles !!! j)) currentLow))
          (seq (i - leftBars) leftBars)
  && forallb (fun j => negb (Qle_bool (low (candles !!! j)) currentLow))
             (seq (i + 1) rightBars).

Definition findSwingHighs (candles : list OHLCV) (leftBars rightBars : nat) : list Pivot :=
  for_loop (length candles - rightBars - leftBars) leftBars
    (fun i swings =>
       swings ++ (if isPivotHigh candles leftBars rightBars i
                  then [mkPivot (high (candles !!! i)) i] else []))
    [].

Definition findSwingLows (candles : list OHLCV) (leftBars rightBars : nat) : list Pivot :=
  for_loop (length candles - rightBars - leftBars) leftBars
    (fun i swings =>
       swings ++ (if isPivotLow candles leftBars rightBars i
                  then [mkPivot (low (candles !!! i)) i] else []))
    [].

(** One iteration of the outer loop of [groupEqualLevels]: the swing joins
    the first level within the tolerance, whose price becomes the running
    average, or starts a new level at the end. *)
Fixpoint addSwing (type : SwingType) (indexOffset : nat) (swing : Pivot)
    (levels : list LiquidityLevel) : list LiquidityLevel :=
  match levels with
  | [] => [mkLiquidityLevel (pv_price swing) type 1 [(indexOffset + pv_index swing)%nat] false]
  | level :: rest =>
      let priceDiff := Qabs (pv_price swing - ll_price level) / ll_price level in
      if Qle_bool priceDiff EQUAL_LEVEL_TOLERANCE then
        let strength := S (ll_strength level) in
        mkLiquidityLevel
          ((ll_price level * inject_Z (Z.of_nat (strength - 1)) + pv_price swing)
           / inject_Z (Z.of_nat strength))
          (ll_type level) strength
          (ll_indices level ++ [(indexOffset + pv_index swing)%nat])
          (ll_isSwept level)
        :: rest
      else level :: addSwing type indexOffset swing rest
  end.

(** [levels.sort((a, b) => b.strength - a.strength)]: a stable sort by
    descending strength. *)
Fixpoint insertByStrength (x : LiquidityLevel) (sorted : list LiquidityLevel)
    : list LiquidityLevel :=
  match sorted with
  | [] => [x]
  | y :: rest =>
      if (ll_strength y <? ll_strength x)%nat then x :: y :: rest
      else y :: insertByStrength x rest
  end.

Definition sortByStrength (levels : list LiquidityLevel) : list LiquidityLevel :=
  foldl (fun acc x => insertByStrength x acc) [] levels.

Definition groupedLevels (swings : list Pivot) (type : SwingType) (indexOffset : nat)
    : list LiquidityLevel :=
  foldl (fun levels swing => addSwing type indexOffset swing levels) [] swings.

Definition groupEqualLevels (swings : list Pivot) (type : SwingType) (indexOffset : nat)
    : list LiquidityLevel :=
  sortByStrength
    (List.filter (fun l => (MIN_TOUCHES <=? ll_strength l)%nat)
       (groupedLevels swings type indexOffset)).

Definition findEqualHighs (candles : list OHLCV) (lookback : nat) : list LiquidityLevel :=
  let lookback := if (length candles <? lookback)%nat then length candles else lookback in
  let recentCandles := sliceLast lookback candles in
  let swingHighs := findSwingHighs recentCandles 3 3 in
  groupEqualLevels swingHighs HIGH (length candles - lookback).

Definition findEqualLows (candles : list OHLCV) (lookback : nat) : list LiquidityLevel :=
  let lookback := if (length candles <? lookback)%nat then length candles else lookback in
  let recentCandles := sliceLast lookback candles in
  let swingLows := findSwingLows recentCandles 3 3 in
  groupEqualLevels swingLows LOW (length candles - lookback).

End LiquidityAnalyzer.

(** Thirteen candles around 100; candle 5 trades up to 103 and closes back
    at 100, and the closes fall afterwards. *)
Definition sweepCandles : list OHLCV :=
  map (fun i => if (i =? 5)%nat then candle (Z.of_nat i) 100 103 99 100
                else if (i <? 5)%nat then candle (Z.of_nat i) 100 101 99 100
                else candle (Z.of_nat i) 100 101 (99 - inject_Z (Z.of_nat i))
                            (100 - inject_Z (Z.of_nat i)))
      (seq 0 13).

(** ** Specification predicates for liquidity levels *)

Definition sumAt (f : nat -> Q) (indices : list nat) : Q :=
  foldr (fun i s => f i + s) 0 indices.

(** A strict pivot of the candle array: the extreme strictly beats the three
    bars on either side. *)
Definition strictPivot (f : OHLCV -> Q) (above : bool) (candles : list OHLCV) (i : nat) : Prop :=
  (3 <= i)%nat /\ (i + 3 < length candles)%nat
  /\ forall k, (i - 3 <= k <= i + 3)%nat -> k <> i ->
               if above then f (candles !!! k) < f (candles !!! i)
               else f (candles !!! i) < f (candles !!! k).

(** A level of equal highs or lows: at least two touches, one index per
    touch, each index a strict pivot inside the lookback window, and the
    price the mean of the touched extremes. *)
Definition levelOfPivots (f : OHLCV -> Q) (above : bool) (type : SwingType)
    (candles : list OHLCV) (lookback : nat) (level : LiquidityAnalyzer.LiquidityLevel) : Prop :=
  LiquidityAnalyzer.ll_type level = type
  /\ LiquidityAnalyzer.ll_isSwept level = false
  /\ (2 <= LiquidityAnalyzer.ll_strength level)%nat
  /\ LiquidityAnalyzer.ll_strength level = length (LiquidityAnalyzer.ll_indices level)
  /\ (forall i, In i (LiquidityAnalyzer.ll_indices level) ->
        (length candles - lookback <= i)%nat /\ strictPivot f above candles i)
  /\ LiquidityAnalyzer.ll_price level
      * inject_Z (Z.of_nat (LiquidityAnalyzer.ll_strength level))
      == sumAt (fun i => f (candles !!! i)) (LiquidityAnalyzer.ll_indices level)
  /\ 0 < LiquidityAnalyzer.ll_price level.

Fixpoint strengthDescending (levels : list LiquidityAnalyzer.LiquidityLevel) : Prop :=
  match levels with
  | [] => True
  | a :: rest =>
      (forall b, In b rest ->
                 (LiquidityAnalyzer.ll_strength b <= LiquidityAnalyzer.ll_strength a)%nat)
      /\ strengthDescending rest
  end.

(** What the grouping loop maintains for every level, for swings whose index
    [i] (offset included) is [valid] and has the positive price [priceAt i]. *)
Definition LevelInv (priceAt : nat -> Q) (valid : nat -> Prop) (type : SwingType)
    (level : LiquidityAnalyzer.LiquidityLevel) : Prop :=
  LiquidityAnalyzer.ll_type level = type
  /\ LiquidityAnalyzer.ll_isSwept level = false
  /\ (1 <= LiquidityAnalyzer.ll_strength level)%nat
  /\ LiquidityAnalyzer.ll_strength level = length (LiquidityAnalyzer.ll_indices level)
  /\ (forall i, In i (LiquidityAnalyzer.ll_indices level) -> valid i /\ 0 < priceAt i)
  /\ LiquidityAnalyzer.ll_price level
      * inject_Z (Z.of_nat (LiquidityAnalyzer.ll_strength level))
      == sumAt priceAt (LiquidityAnalyzer.ll_indices level).

(** Sixteen candles with two equal strict pivot highs of 105 at indices 4
    and 11. *)
Definition doubleTopCandles : list OHLCV :=
  map (fun i => if ((i =? 4) || (i =? 11))%nat then candle (Z.of_nat i) 100 105 99 100
                else candle (Z.of_nat i) 100 101 99 100)
      (seq 0 16).

(** The default engine holding the given closed trades. *)
Definition engineWithTrades (ts : list BacktestTrade) : BacktestEngine :=
  mkBacktestEngine (initialCapital defaultEngine) (riskPerTrade defaultEngine)
    (commission defaultEngine) (slippage defaultEngine) (capital defaultEngine)
    (equity defaultEngine) ∅ ts [] (positionSizer defaultEngine).
(** * Properties *)

(** ** Comparisons and loops *)

Lemma Qltb_lt (x y : Q) : Qltb x y = true <-> x < y.
Proof.
  unfold Qltb. rewrite negb_true_iff. split.
  - intros H. apply Qnot_le_lt. intros Hle.
    apply Qle_bool_iff in Hle. congruence.
  - intros H. destruct (Qle_bool y x) eqn:E; auto.
    apply Qle_bool_iff in E. lra.
Qed.

Lemma Qltb_ge (x y : Q) : Qltb x y = false <-> y <= x.
Proof.
  unfold Qltb. rewrite negb_false_iff. apply Qle_bool_iff.
Qed.

Lemma Qle_bool_gt (x y : Q) : Qle_bool x y = false <-> y < x.
Proof.
  rewrite <- Qltb_lt. unfold Qltb.
  destruct (Qle_bool x y); simpl; split; congruence.
Qed.

Lemma for_loop_snoc {St : Type} (n i : nat) (body : nat -> St -> St) (s : St) :
  for_loop (S n) i body s = body (i + n)%nat (for_loop n i body s).
Proof.
  revert i s. induction n as [|n IH]; intros i s.
  - simpl. now rewrite Nat.add_0_r.
  - change (for_loop (S (S n)) i body s) with (for_loop (S n) (S i) body (body i s)).
    rewrite IH. simpl. f_equal. lia.
Qed.

Lemma for_loop_push {A : Type} (f : nat -> list A) (n i : nat) (acc : list A) :
  for_loop n i (fun k l => l ++ f k) acc = acc ++ flat_map f (seq i n).
Proof.
  revert i acc. induction n as [|n IH]; intros i acc; simpl.
  - now rewrite app_nil_r.
  - rewrite IH. now rewrite <- app_assoc.
Qed.

(** ** Swing detection *)

Lemma findSwingHighs_flat_map (candles : list OHLCV) (left right : nat) :
  findSwingHighs candles left right
  = flat_map (swingHighAt candles left right) (seq left (length candles - right - left)).
Proof. unfold findSwingHighs. now rewrite for_loop_push. Qed.

Lemma findSwingLows_flat_map (candles : list OHLCV) (left right : nat) :
  findSwingLows candles left right
  = flat_map (swingLowAt candles left right) (seq left (length candles - right - left)).
Proof. unfold findSwingLows. now rewrite for_loop_push. Qed.


Lemma isHigh_spec (candles : list OHLCV) (left right i : nat) :
  (left <= i)%nat ->
  isHigh candles left right i = true <-> SwingHighAt candles left right i.
Proof.
  intros Hi. unfold isHigh, SwingHighAt.
  rewrite andb_true_iff, !forallb_forall. split.
  - intros [HL HR]. split.
    + intros k Hk Hle.
      specialize (HL (i - k)%nat). rewrite in_seq in HL.
      replace (i - (i - k))%nat with k in HL by lia.
      assert (Hb : negb (Qle_bool (high (candles !!! i)) (high (candles !!! k))) = true)
        by (apply HL; lia).
      apply negb_true_iff in Hb. apply Qle_bool_iff in Hle. congruence.
    + intros k Hk Hlt.
      specialize (HR (k - i)%nat). rewrite in_seq in HR.
      replace (i + (k - i))%nat with k in HR by lia.
      assert (Hb : negb (Qltb (high (candles !!! i)) (high (candles !!! k))) = true)
        by (apply HR; lia).
      apply negb_true_iff in Hb. apply Qltb_lt in Hlt. congruence.
  - intros [HL HR]. split.
    + intros j Hj. apply in_seq in Hj. apply negb_true_iff.
      destruct (Qle_bool _ _) eqn:E; auto.
      apply Qle_bool_iff in E. exfalso. apply (HL (i - j)%nat); [lia | exact E].
    + intros j Hj. apply in_seq in Hj. apply negb_true_iff.
      destruct (Qltb _ _) eqn:E; auto.
      apply Qltb_lt in E. exfalso. apply (HR (i + j)%nat); [lia | exact E].
Qed.

Lemma isLow_spec (candles : list OHLCV) (left right i : nat) :
  (left <= i)%nat ->
  isLow candles left right i = true <-> SwingLowAt candles left right i.
Proof.
  intros Hi. unfold isLow, SwingLowAt.
  rewrite andb_true_iff, !forallb_forall. split.
  - intros [HL HR]. split.
    + intros k Hk Hle.
      specialize (HL (i - k)%nat). rewrite in_seq in HL.
      replace (i - (i - k))%nat with k in HL by lia.
      assert (Hb : negb (Qle_bool (low (candles !!! k)) (low (candles !!! i))) = true)
        by (apply HL; lia).
      apply negb_true_iff in Hb. apply Qle_bool_iff in Hle. congruence.
    + intros k Hk Hlt.
      specialize (HR (k - i)%nat). rewrite in_seq in HR.
      replace (i + (k - i))%nat with k in HR by lia.
      assert (Hb : negb (Qltb (low (candles !!! k)) (low (candles !!! i))) = true)
        by (apply HR; lia).
      apply negb_true_iff in Hb. apply Qltb_lt in Hlt. congruence.
  - intros [HL HR]. split.
    + intros j Hj. apply in_seq in Hj. apply negb_true_iff.
      destruct (Qle_bool _ _) eqn:E; auto.
      apply Qle_bool_iff in E. exfalso. apply (HL (i - j)%nat); [lia | exact E].
    + intros j Hj. apply in_seq in Hj. apply negb_true_iff.
      destruct (Qltb _ _) eqn:E; auto.
      apply Qltb_lt in E. exfalso. apply (HR (i + j)%nat); [lia | exact E].
Qed.

Lemma in_findSwingHighs (candles : list OHLCV) (left right : nat) (sp : SwingPoint) :
  In sp (findSwingHighs candles left right) <->
  (left <= sp_index sp)%nat /\ (sp_index sp + right < length candles)%nat
  /\ sp = mkSwingPoint HIGH (high (candles !!! sp_index sp)) (sp_index sp)
            (timestamp (candles !!! sp_index sp))
  /\ SwingHighAt candles left right (sp_index sp).
Proof.
  rewrite findSwingHighs_flat_map, in_flat_map. split.
  - intros (i & Hi & Hin). apply in_seq in Hi. unfold swingHighAt in Hin.
    destruct (isHigh candles left right i) eqn:E; [|destruct Hin].
    destruct Hin as [<-|[]]. simpl.
    apply isHigh_spec in E; [|lia]. repeat split; try lia; apply E.
  - intros (Hl & Hr & Heq & Hsw). exists (sp_index sp). split.
    + apply in_seq. lia.
    + unfold swingHighAt. apply isHigh_spec in Hsw; [|lia].
      rewrite Hsw. left. now symmetry.
Qed.

Lemma in_findSwingLows (candles : list OHLCV) (left right : nat) (sp : SwingPoint) :
  In sp (findSwingLows candles left right) <->
  (left <= sp_index sp)%nat /\ (sp_index sp + right < length candles)%nat
  /\ sp = mkSwingPoint LOW (low (candles !!! sp_index sp)) (sp_index sp)
            (timestamp (candles !!! sp_index sp))
  /\ SwingLowAt candles left right (sp_index sp).
Proof.
  rewrite findSwingLows_flat_map, in_flat_map. split.
  - intros (i & Hi & Hin). apply in_seq in Hi. unfold swingLowAt in Hin.
    destruct (isLow candles left right i) eqn:E; [|destruct Hin].
    destruct Hin as [<-|[]]. simpl.
    apply isLow_spec in E; [|lia]. repeat split; try lia; apply E.
  - intros (Hl & Hr & Heq & Hsw). exists (sp_index sp). split.
    + apply in_seq. lia.
    + unfold swingLowAt. apply isLow_spec in Hsw; [|lia].
      rewrite Hsw. left. now symmetry.
Qed.


(** A list built by pushing, for [k = i, i+1, ...], items whose index is [k]
    is ascending by index. *)
Lemma flat_map_seq_ascending (f : nat -> list SwingPoint) (i n : nat) :
  (forall k sp, In sp (f k) -> sp_index sp = k) ->
  (forall k, (length (f k) <= 1)%nat) ->
  ascending (flat_map f (seq i n)).
Proof.
  intros Hidx Hlen. revert i. induction n as [|n IH]; intros i; simpl.
  - intros p q a b Ha. now rewrite lookup_nil in Ha.
  - intros p q a b Ha Hb Hpq.
    assert (Hrest : forall x, In x (flat_map f (seq (S i) n)) -> (i < sp_index x)%nat).
    { intros x Hx. apply in_flat_map in Hx as (k & Hk & Hx).
      apply in_seq in Hk. apply Hidx in Hx. lia. }
    specialize (Hlen i).
    destruct (f i) as [|x [|y l]] eqn:Ef; simpl in *; try lia.
    + eapply IH; eauto.
    + destruct p as [|p].
      * destruct q as [|q]; [lia|]. simpl in Ha, Hb. inversion Ha; subst a.
        assert (sp_index x = i) by (apply Hidx; rewrite Ef; now left).
        assert (i < sp_index b)%nat; [|lia].
        apply Hrest. apply list_elem_of_In. eapply list_elem_of_lookup_2; eauto.
      * destruct q as [|q]; [lia|]. simpl in Ha, Hb.
        eapply (IH (S i) p q); eauto. lia.
Qed.

Lemma findSwingHighs_ascending (candles : list OHLCV) (left right : nat) :
  ascending (findSwingHighs candles left right).
Proof.
  rewrite findSwingHighs_flat_map. apply flat_map_seq_ascending.
  - intros k sp. unfold swingHighAt. destruct (isHigh _ _ _ _); simpl; [|tauto].
    intros [<-|[]]. reflexivity.
  - intros k. unfold swingHighAt. destruct (isHigh _ _ _ _); simpl; lia.
Qed.

Lemma findSwingLows_ascending (candles : list OHLCV) (left right : nat) :
  ascending (findSwingLows candles left right).
Proof.
  rewrite findSwingLows_flat_map. apply flat_map_seq_ascending.
  - intros k sp. unfold swingLowAt. destruct (isLow _ _ _ _); simpl; [|tauto].
    intros [<-|[]]. reflexivity.
  - intros k. unfold swingLowAt. destruct (isLow _ _ _ _); simpl; lia.
Qed.

(** C4: every swing high returned at index [i] has no candle in
    [[i-left, i-1]] with a high at or above it and no candle in
    [[i+1, i+right]] with a high above it; swing lows mirror this; both lists
    are ascending by index. *)
Theorem swings_are_local_extrema (candles : list OHLCV) (left right : nat) :
  (forall sp, In sp (findSwingHighs candles left right) ->
     (left <= sp_index sp)%nat /\ (sp_index sp + right < length candles)%nat
     /\ sp_price sp = high (candles !!! sp_index sp)
     /\ (forall k, (sp_index sp - left <= k < sp_index sp)%nat ->
                   ~ high (candles !!! sp_index sp) <= high (candles !!! k))
     /\ (forall k, (sp_index sp < k <= sp_index sp + right)%nat ->
                   ~ high (candles !!! sp_index sp) < high (candles !!! k)))
  /\ (forall sp, In sp (findSwingLows candles left right) ->
     (left <= sp_index sp)%nat /\ (sp_index sp + right < length candles)%nat
     /\ sp_price sp = low (candles !!! sp_index sp)
     /\ (forall k, (sp_index sp - left <= k < sp_index sp)%nat ->
                   ~ low (candles !!! k) <= low (candles !!! sp_index sp))
     /\ (forall k, (sp_index sp < k <= sp_index sp + right)%nat ->
                   ~ low (candles !!! k) < low (candles !!! sp_index sp)))
  /\ ascending (findSwingHighs candles left right)
  /\ ascending (findSwingLows candles left right).
Proof.
  split; [|split; [|split]].
  - intros sp Hin. apply in_findSwingHighs in Hin as (Hl & Hr & Heq & HL & HR).
    repeat split; auto. rewrite Heq at 1. reflexivity.
  - intros sp Hin. apply in_findSwingLows in Hin as (Hl & Hr & Heq & HL & HR).
    repeat split; auto. rewrite Heq at 1. reflexivity.
  - apply findSwingHighs_ascending.
  - apply findSwingLows_ascending.
Qed.

Lemma swings_are_local_extrema_witness :
  In (mkSwingPoint HIGH 20 2 2) (findSwingHighs lookaheadCandles 2 2)
  /\ (forall k, (2 < k <= 2 + 2)%nat ->
        ~ high (lookaheadCandles !!! 2%nat) < high (lookaheadCandles !!! k)).
Proof.
  assert (Hin : In (mkSwingPoint HIGH 20 2 2) (findSwingHighs lookaheadCandles 2 2))
    by (vm_compute; left; reflexivity).
  split; [exact Hin|].
  exact (proj2 (proj2 (proj2 (proj2
           (proj1 (swings_are_local_extrema lookaheadCandles 2 2) _ Hin))))).
Defined.

(** ** Structure breaks *)

Lemma breakStateAfter_S (candles : list OHLCV) (highs lows : list SwingPoint) (n : nat) :
  breakStateAfter candles highs lows (S n)
  = classify n (candles !!! n)
      (updateActive highs lows n (breakStateAfter candles highs lows n)).
Proof.
  unfold breakStateAfter. rewrite for_loop_snoc. reflexivity.
Qed.

Lemma advance_last (fuel : nat) (swings : list SwingPoint) (i cur : nat)
    (last : option SwingPoint) :
  snd (advance fuel swings i cur last) = last
  \/ exists s, snd (advance fuel swings i cur last) = Some s
               /\ In s swings /\ (sp_index s < i)%nat.
Proof.
  revert cur last. induction fuel as [|fuel IH]; intros cur last; simpl.
  - now left.
  - destruct (swings !! cur) as [s|] eqn:E; [|now left].
    destruct (sp_index s <? i)%nat eqn:Hlt; [|now left].
    apply Nat.ltb_lt in Hlt.
    assert (Hs : In s swings).
    { apply list_elem_of_In. eapply list_elem_of_lookup_2; eauto. }
    destruct (IH (S cur) (Some s)) as [->|(s' & -> & Hin & Hidx)]; right; eauto.
Qed.

(** When the loop stops, it stopped for the loop's own reason: the cursor is
    at the end or points to a swing at or after [i]. *)
Lemma advance_exit (fuel : nat) (swings : list SwingPoint) (i cur : nat)
    (last : option SwingPoint) :
  (length swings - cur <= fuel)%nat ->
  match swings !! fst (advance fuel swings i cur last) with
  | Some s => (i <= sp_index s)%nat
  | None => True
  end.
Proof.
  revert cur last. induction fuel as [|fuel IH]; intros cur last Hf; simpl.
  - rewrite lookup_ge_None_2; [exact I | lia].
  - destruct (swings !! cur) as [s|] eqn:E; simpl.
    + destruct (sp_index s <? i)%nat eqn:Hlt.
      * apply IH. lia.
      * simpl. rewrite E. apply Nat.ltb_ge in Hlt. exact Hlt.
    + now rewrite E.
Qed.

Lemma updateActive_fields (highs lows : list SwingPoint) (i : nat) (st : BreakState) :
  lastHigh (updateActive highs lows i st)
    = snd (advance (length highs - currentHighIndex st) highs i
             (currentHighIndex st) (lastHigh st))
  /\ lastLow (updateActive highs lows i st)
    = snd (advance (length lows - currentLowIndex st) lows i
             (currentLowIndex st) (lastLow st))
  /\ trend (updateActive highs lows i st) = trend st
  /\ bs_breaks (updateActive highs lows i st) = bs_breaks st.
Proof.
  unfold updateActive.
  destruct (advance (length highs - _) highs i _ _) as [ch lh].
  destruct (advance (length lows - _) lows i _ _) as [cl ll].
  simpl. auto.
Qed.

Lemma updateActive_inv (highs lows : list SwingPoint) (right n : nat) (st : BreakState) :
  BreakInv highs lows right n st ->
  BreakInv highs lows right n (updateActive highs lows n st).
Proof.
  intros (HH & HL & HB).
  destruct (updateActive_fields highs lows n st) as (EH & EL & _ & EB).
  split; [|split].
  - intros s Hs. rewrite EH in Hs.
    destruct (advance_last (length highs - currentHighIndex st) highs n
                (currentHighIndex st) (lastHigh st)) as [E|(s' & E & Hin & Hlt)];
      rewrite E in Hs.
    + now apply HH.
    + inversion Hs; subst. auto.
  - intros s Hs. rewrite EL in Hs.
    destruct (advance_last (length lows - currentLowIndex st) lows n
                (currentLowIndex st) (lastLow st)) as [E|(s' & E & Hin & Hlt)];
      rewrite E in Hs.
    + now apply HL.
    + inversion Hs; subst. auto.
  - now rewrite EB.
Qed.

(** A candle that trades above a swing high lies beyond that swing's right
    window; likewise below a swing low. *)
Lemma above_swing_high_is_late (candles : list OHLCV) (left right n : nat) (s : SwingPoint) :
  In s (findSwingHighs candles left right) ->
  (sp_index s < n)%nat ->
  sp_price s < high (candles !!! n) ->
  (sp_index s + right < n)%nat.
Proof.
  intros Hin Hlt Hbreak.
  apply in_findSwingHighs in Hin as (_ & _ & Heq & _ & HR).
  destruct (Nat.lt_ge_cases (sp_index s + right) n) as [|Hge]; [assumption|].
  exfalso. apply (HR n); [lia|]. rewrite Heq in Hbreak. exact Hbreak.
Qed.

Lemma below_swing_low_is_late (candles : list OHLCV) (left right n : nat) (s : SwingPoint) :
  In s (findSwingLows candles left right) ->
  (sp_index s < n)%nat ->
  low (candles !!! n) < sp_price s ->
  (sp_index s + right < n)%nat.
Proof.
  intros Hin Hlt Hbreak.
  apply in_findSwingLows in Hin as (_ & _ & Heq & _ & HR).
  destruct (Nat.lt_ge_cases (sp_index s + right) n) as [|Hge]; [assumption|].
  exfalso. apply (HR n); [lia|]. rewrite Heq in Hbreak. exact Hbreak.
Qed.

Lemma classify_inv (candles : list OHLCV) (left right n : nat) (st : BreakState) :
  let highs := findSwingHighs candles left right in
  let lows := findSwingLows candles left right in
  BreakInv highs lows right n st ->
  BreakInv highs lows right (S n) (classify n (candles !!! n) st).
Proof.
  intros highs lows (HH & HL & HB).
  assert (Hkeep : BreakInv highs lows right (S n) st).
  { split; [|split]; auto.
    - intros s Hs. destruct (HH s Hs). split; auto.
    - intros s Hs. destruct (HL s Hs). split; auto. }
  unfold classify.
  destruct (lastHigh st) as [lh|] eqn:ELH; [|exact Hkeep].
  destruct (lastLow st) as [ll|] eqn:ELL; [|exact Hkeep].
  destruct (HH lh eq_refl) as [HinH HltH].
  destruct (HL ll eq_refl) as [HinL HltL].
  assert (Hbull : sp_price lh < high (candles !!! n) ->
                  forall t c, referencesConfirmedSwing highs lows right
                    (mkStructureBreak t BULLISH n (sp_price lh) (timestamp (candles !!! n)) c)).
  { intros Hbreak t c. exists lh. simpl. repeat split; auto.
    eapply above_swing_high_is_late; eauto. }
  assert (Hbear : low (candles !!! n) < sp_price ll ->
                  forall t c, referencesConfirmedSwing highs lows right
                    (mkStructureBreak t BEARISH n (sp_price ll) (timestamp (candles !!! n)) c)).
  { intros Hbreak t c. exists ll. simpl. repeat split; auto.
    eapply below_swing_low_is_late; eauto. }
  destruct (trend st);
    destruct (Qltb (sp_price lh) (high (candles !!! n))) eqn:EH;
    destruct (Qltb (low (candles !!! n)) (sp_price ll)) eqn:EL;
    try exact Hkeep;
    (split; [|split]; simpl;
     [ intros s Hs;
       repeat match type of Hs with
              | (if ?c then _ else _) = _ => destruct c
              end;
       try discriminate;
       inversion Hs; subst; split; auto
     | intros s Hs;
       repeat match type of Hs with
              | (if ?c then _ else _) = _ => destruct c
              end;
       try discriminate;
       inversion Hs; subst; split; auto
     | intros b Hb; apply in_app_iff in Hb as [Hb|[<-|[]]];
       [ now apply HB
       | first [ apply Hbull; now apply Qltb_lt
               | apply Hbear; now apply Qltb_lt ] ] ]).
Qed.

Lemma breakStateAfter_inv (candles : list OHLCV) (left right n : nat) :
  let highs := findSwingHighs candles left right in
  let lows := findSwingLows candles left right in
  BreakInv highs lows right n (breakStateAfter candles highs lows n).
Proof.
  intros highs lows. induction n as [|n IH].
  - split; [|split]; simpl; intros ? H; try discriminate; destruct H.
  - rewrite breakStateAfter_S. apply classify_inv. apply updateActive_inv. exact IH.
Qed.

(** C1 (amended): the cursor makes a swing the active high or low as soon as
    its index is below the current candle index [i], and every structure
    break takes its price from a swing whose confirmation index (swing index
    plus the right window) is strictly before the break candle. *)
Theorem breaks_reference_confirmed_swings (candles : list OHLCV) (left right : nat) :
  let highs := findSwingHighs candles left right in
  let lows := findSwingLows candles left right in
  (forall i s,
      fst (activeAt candles highs lows i) = Some s
      \/ snd (activeAt candles highs lows i) = Some s ->
      (sp_index s < i)%nat)
  /\ (forall b, In b (findStructureBreaks candles highs lows) ->
                referencesConfirmedSwing highs lows right b).
Proof.
  intros highs lows. split.
  - intros i s Hs. unfold activeAt in Hs. simpl in Hs.
    pose proof (breakStateAfter_inv candles left right i) as Hinv.
    apply updateActive_inv in Hinv. destruct Hinv as (HH & HL & _).
    destruct Hs as [Hs|Hs]; [apply HH in Hs|apply HL in Hs]; tauto.
  - intros b Hb. unfold findStructureBreaks in Hb.
    destruct (breakStateAfter_inv candles left right (length candles)) as (_ & _ & HB).
    now apply HB.
Qed.

Lemma breaks_reference_confirmed_swings_witness :
  referencesConfirmedSwing (findSwingHighs lookaheadCandles 2 2)
    (findSwingLows lookaheadCandles 2 2) 2
    (mkStructureBreak SWEEP BULLISH 8 20 8 false).
Proof.
  apply (proj2 (breaks_reference_confirmed_swings lookaheadCandles 2 2)).
  vm_compute. left. reflexivity.
Defined.

(** C1 as stated fails: while candle 9 is processed the active high is the
    swing at index 8, whose confirmation index 8 + 2 = 10 is after 9. *)
Lemma active_swing_not_yet_confirmed :
  ~ (forall (candles : list OHLCV) (i : nat) (s : SwingPoint),
        (i < length candles)%nat ->
        fst (activeAt candles (findSwingHighs candles 2 2) (findSwingLows candles 2 2) i)
          = Some s
        \/ snd (activeAt candles (findSwingHighs candles 2 2) (findSwingLows candles 2 2) i)
          = Some s ->
        (sp_index s + 2 < i)%nat).
Proof.
  intros H.
  assert (Hlt : (sp_index (mkSwingPoint HIGH 25 8 8) + 2 < 9)%nat).
  { apply (H lookaheadCandles).
    - vm_compute. lia.
    - left. vm_compute. reflexivity. }
  vm_compute in Hlt. lia.
Qed.

(** ** Reported structure *)

Lemma filter_all_sweeps (bks : list StructureBreak) :
  (forall b, In b bks -> sb_type b = SWEEP) ->
  List.filter (fun b => negb (is_SWEEP (sb_type b))) bks = [].
Proof.
  induction bks as [|b bks IH]; intros H; simpl; [reflexivity|].
  rewrite (H b) by now left. simpl. apply IH. intros x Hx. apply H. now right.
Qed.

Lemma structureOf_RANGING (bks : list StructureBreak) :
  structureOf bks = RANGING <-> forall b, In b bks -> sb_type b = SWEEP.
Proof.
  unfold structureOf. split.
  - intros H b Hb.
    destruct (last (List.filter _ bks)) as [x|] eqn:E; [discriminate|].
    apply last_None in E.
    destruct (sb_type b) eqn:Et; auto; exfalso;
      assert (Hin : In b (List.filter (fun b => negb (is_SWEEP (sb_type b))) bks))
        by (apply List.filter_In; split; [assumption | now rewrite Et]);
      rewrite E in Hin; destruct Hin.
  - intros H. now rewrite filter_all_sweeps.
Qed.

Lemma structureOf_last_confirmed (pre post : list StructureBreak) (b : StructureBreak) :
  sb_type b <> SWEEP ->
  (forall x, In x post -> sb_type x = SWEEP) ->
  structureOf (pre ++ b :: post) = Trending (sb_direction b).
Proof.
  intros Hb Hpost. unfold structureOf.
  rewrite List.filter_app. simpl.
  rewrite (filter_all_sweeps post Hpost).
  assert (E : negb (is_SWEEP (sb_type b)) = true)
    by (destruct (sb_type b); auto; congruence).
  rewrite E. now rewrite last_snoc.
Qed.

Lemma closes_increase (candles : list OHLCV) :
  strictlyIncreasing candles ->
  forall j i, (j < i)%nat -> (i < length candles)%nat ->
              close (candles !!! j) < close (candles !!! i).
Proof.
  intros [Hoc Hco] j i Hji Hi. induction i as [|i IH]; [lia|].
  assert (Hstep : close (candles !!! i) < close (candles !!! S i)).
  { specialize (Hco i Hi). specialize (Hoc (S i) Hi). lra. }
  destruct (Nat.eq_dec j i) as [->|Hne]; [exact Hstep|].
  assert (close (candles !!! j) < close (candles !!! i)) by (apply IH; lia).
  lra.
Qed.

Lemma classify_bullish_only (candles : list OHLCV) (left right n : nat) (st : BreakState) :
  strictlyIncreasing candles -> lowsBelowOpens candles ->
  (n < length candles)%nat ->
  BreakInv (findSwingHighs candles left right) (findSwingLows candles left right) right n st ->
  BullishOnly st ->
  BullishOnly (classify n (candles !!! n) st).
Proof.
  intros Hinc Hlow Hn (HH & HL & _) [Ht Hb].
  unfold classify.
  destruct (lastHigh st) as [lh|] eqn:ELH; [|now split].
  destruct (lastLow st) as [ll|] eqn:ELL; [|now split].
  destruct (HL ll eq_refl) as [HinL HltL].
  assert (Hno : Qltb (close (candles !!! n)) (sp_price ll) = false).
  { apply Qltb_ge.
    apply in_findSwingLows in HinL as (_ & Hr & Heq & _).
    rewrite Heq. simpl.
    assert (Hidx : (sp_index ll < length candles)%nat) by lia.
    pose proof (Hlow _ Hidx) as H1.
    pose proof (proj1 Hinc _ Hidx) as H2.
    pose proof (closes_increase candles Hinc _ _ HltL Hn) as H3.
    lra. }
  rewrite Ht, Hno.
  destruct (Qltb (sp_price lh) (high (candles !!! n))).
  - split; simpl; [reflexivity|].
    intros b Hin. apply in_app_iff in Hin as [Hin|[<-|[]]]; [now apply Hb|].
    simpl. destruct (Qltb (sp_price lh) (close (candles !!! n))); split; congruence.
  - destruct (Qltb (low (candles !!! n)) (sp_price ll)); [|now split].
    split; simpl; [reflexivity|].
    intros b Hin. apply in_app_iff in Hin as [Hin|[<-|[]]]; [now apply Hb|].
    simpl. split; congruence.
Qed.

Lemma updateActive_bullish_only (highs lows : list SwingPoint) (i : nat) (st : BreakState) :
  BullishOnly st -> BullishOnly (updateActive highs lows i st).
Proof.
  intros [Ht Hb]. destruct (updateActive_fields highs lows i st) as (_ & _ & ET & EB).
  split; [now rewrite ET | now rewrite EB].
Qed.

Lemma breakStateAfter_bullish_only (candles : list OHLCV) (left right n : nat) :
  strictlyIncreasing candles -> lowsBelowOpens candles ->
  (n <= length candles)%nat ->
  BullishOnly (breakStateAfter candles (findSwingHighs candles left right)
                 (findSwingLows candles left right) n).
Proof.
  intros Hinc Hlow. induction n as [|n IH]; intros Hn.
  - split; [reflexivity|]. intros b [].
  - rewrite breakStateAfter_S.
    apply (classify_bullish_only candles left right); auto; try lia.
    + apply updateActive_inv. apply breakStateAfter_inv.
    + apply updateActive_bullish_only. apply IH. lia.
Qed.

Lemma risingHighs_no_swing_high (candles : list OHLCV) (left right : nat) :
  risingHighs candles -> (1 <= right)%nat ->
  findSwingHighs candles left right = [].
Proof.
  intros Hrise Hr.
  destruct (findSwingHighs candles left right) as [|sp l] eqn:E; [reflexivity|].
  assert (Hin : In sp (findSwingHighs candles left right)) by (rewrite E; now left).
  apply in_findSwingHighs in Hin as (_ & Hlen & _ & _ & HR).
  exfalso. apply (HR (S (sp_index sp))); [lia|]. apply Hrise. lia.
Qed.

Lemma advance_nil (fuel i cur : nat) (last : option SwingPoint) :
  advance fuel [] i cur last = (cur, last).
Proof. destruct fuel; reflexivity. Qed.

Lemma no_swing_high_no_breaks (candles : list OHLCV) (lows : list SwingPoint) (n : nat) :
  lastHigh (breakStateAfter candles [] lows n) = None
  /\ bs_breaks (breakStateAfter candles [] lows n) = [].
Proof.
  induction n as [|n [IH1 IH2]]; [now split|].
  rewrite breakStateAfter_S.
  destruct (updateActive_fields [] lows n (breakStateAfter candles [] lows n))
    as (EH & _ & _ & EB).
  rewrite advance_nil in EH. simpl in EH. rewrite IH1 in EH. rewrite IH2 in EB.
  unfold classify. rewrite EH. now split.
Qed.

Lemma strictlyIncreasingb_correct (candles : list OHLCV) :
  strictlyIncreasingb candles = true -> strictlyIncreasing candles.
Proof.
  unfold strictlyIncreasingb. rewrite andb_true_iff, !forallb_forall.
  intros [H1 H2]. split; intros i Hi; apply Qltb_lt.
  - apply H1. apply in_seq. lia.
  - apply H2. apply in_seq. lia.
Qed.

Lemma risingHighsb_correct (candles : list OHLCV) :
  risingHighsb candles = true -> risingHighs candles.
Proof.
  unfold risingHighsb. rewrite forallb_forall.
  intros H i Hi. apply Qltb_lt. apply H. apply in_seq. lia.
Qed.

(** C2 (amended): the reported structure is the direction of the last break
    that is not a SWEEP, RANGING when there is none, whatever SWEEPs follow;
    on strictly increasing candles whose lows do not exceed their opens no
    CHOCH is emitted and every BOS is BULLISH, so the structure is never
    BEARISH; when the highs rise strictly as well (candles without wicks) no
    swing high exists, no break is emitted and the structure is RANGING. *)
Theorem structure_follows_last_confirmed_break (candles : list OHLCV) :
  (structure (analyze candles) = RANGING <->
     forall b, In b (breaks (analyze candles)) -> sb_type b = SWEEP)
  /\ (forall pre b post,
        breaks (analyze candles) = pre ++ b :: post ->
        sb_type b <> SWEEP ->
        (forall x, In x post -> sb_type x = SWEEP) ->
        structure (analyze candles) = Trending (sb_direction b))
  /\ (strictlyIncreasing candles -> lowsBelowOpens candles ->
        structure (analyze candles) <> Trending BEARISH
        /\ forall b, In b (breaks (analyze candles)) ->
             sb_type b <> CHOCH /\ (sb_type b = BOS -> sb_direction b = BULLISH))
  /\ (risingHighs candles ->
        breaks (analyze candles) = [] /\ structure (analyze candles) = RANGING).
Proof.
  unfold analyze. simpl. split; [|split; [|split]].
  - apply structureOf_RANGING.
  - intros pre b post E Hb Hpost. rewrite E. now apply structureOf_last_confirmed.
  - intros Hinc Hlow.
    destruct (breakStateAfter_bullish_only candles 2 2 (length candles) Hinc Hlow
                (Nat.le_refl _)) as [_ Hb].
    fold (findStructureBreaks candles (findSwingHighs candles 2 2)
            (findSwingLows candles 2 2)) in Hb.
    split; [|exact Hb].
    unfold structureOf.
    destruct (last (List.filter _ _)) as [x|] eqn:E; [|discriminate].
    apply last_Some_elem_of, list_elem_of_In, List.filter_In in E as [Hin Hx].
    destruct (Hb x Hin) as [Hc Hbos].
    destruct (sb_type x) eqn:Et; try discriminate; try congruence.
    rewrite Hbos by reflexivity. discriminate.
  - intros Hrise.
    rewrite (risingHighs_no_swing_high candles 2 2 Hrise) by lia.
    unfold findStructureBreaks.
    destruct (no_swing_high_no_breaks candles (findSwingLows candles 2 2)
                (length candles)) as [_ ->].
    split; reflexivity.
Qed.

Lemma structure_follows_last_confirmed_break_witness :
  strictlyIncreasing risingCandles /\ risingHighs risingCandles
  /\ breaks (analyze risingCandles) = []
  /\ structure (analyze risingCandles) = RANGING.
Proof.
  assert (H1 : strictlyIncreasing risingCandles)
    by (apply strictlyIncreasingb_correct; vm_compute; reflexivity).
  assert (H2 : risingHighs risingCandles)
    by (apply risingHighsb_correct; vm_compute; reflexivity).
  split; [exact H1|]. split; [exact H2|].
  exact (proj2 (proj2 (proj2 (structure_follows_last_confirmed_break risingCandles))) H2).
Defined.

(** C2 as stated fails: sixty strictly increasing candles without wicks yield
    no BOS and the structure RANGING. *)
Lemma rising_candles_are_ranging :
  ~ (forall candles : list OHLCV,
        length candles = 60%nat -> strictlyIncreasing candles ->
        structure (analyze candles) = Trending BULLISH
        /\ (1 <= countBreaks BOS (breaks (analyze candles)))%nat
        /\ countBreaks SWEEP (breaks (analyze candles)) = 0%nat).
Proof.
  intros H.
  destruct (H risingCandles) as (Hs & _).
  - reflexivity.
  - apply strictlyIncreasingb_correct. vm_compute. reflexivity.
  - vm_compute in Hs. discriminate.
Qed.

(** ** Zone mitigation *)

Lemma scanOrderBlock_mitigated (candles : list OHLCV) (n i : nat) (ob : OrderBlock) :
  ob_mitigated ob = true -> scanOrderBlock candles n i ob = ob.
Proof. intros H. destruct n; simpl; [reflexivity | now rewrite H]. Qed.

Lemma scanOrderBlock_first_touch (candles : list OHLCV) (n i : nat) (ob : OrderBlock) :
  ob_mitigated ob = false ->
  (exists m, scanOrderBlock candles n i ob = markMitigated ob m
             /\ (i <= m < i + n)%nat
             /\ touchesOB ob (candles !!! m) = true
             /\ forall k, (i <= k < m)%nat -> touchesOB ob (candles !!! k) = false)
  \/ (scanOrderBlock candles n i ob = ob
      /\ forall k, (i <= k < i + n)%nat -> touchesOB ob (candles !!! k) = false).
Proof.
  intros Hfresh. revert i. induction n as [|n IH]; intros i; simpl.
  - right. split; [reflexivity|]. intros k Hk. lia.
  - rewrite Hfresh. destruct (touchesOB ob (candles !!! i)) eqn:Et.
    + left. exists i. split; [|split; [lia|split; [exact Et|]]].
      * now apply scanOrderBlock_mitigated.
      * intros k Hk. lia.
    + destruct (IH (S i)) as [(m & E & Hm & Htouch & Hbefore)|[E Hnone]].
      * left. exists m. split; [exact E|]. split; [lia|]. split; [exact Htouch|].
        intros k Hk. destruct (Nat.eq_dec k i) as [->|]; [exact Et|]. apply Hbefore. lia.
      * right. split; [exact E|].
        intros k Hk. destruct (Nat.eq_dec k i) as [->|]; [exact Et|]. apply Hnone. lia.
Qed.

Lemma scanOrderBlock_extend (c c' : list OHLCV) (n n' i : nat) (ob : OrderBlock) :
  (forall k, (i <= k < i + n)%nat -> c !!! k = c' !!! k) ->
  (n <= n')%nat ->
  ob_mitigated (scanOrderBlock c n i ob) = true ->
  scanOrderBlock c' n' i ob = scanOrderBlock c n i ob.
Proof.
  revert n' i ob. induction n as [|n IH]; intros n' i ob Hsame Hle Hmit.
  - simpl in *. now apply scanOrderBlock_mitigated.
  - destruct n' as [|n']; [lia|]. simpl in *.
    destruct (ob_mitigated ob); [reflexivity|].
    rewrite <- (Hsame i) by lia.
    apply IH; [|lia|exact Hmit]. intros k Hk. apply Hsame. lia.
Qed.

Lemma mitigateOrderBlock_extend (candles ext : list OHLCV) (ob : OrderBlock) :
  ob_mitigated (mitigateOrderBlock candles ob) = true ->
  mitigateOrderBlock (candles ++ ext) ob = mitigateOrderBlock candles ob.
Proof.
  unfold mitigateOrderBlock. intros H. apply scanOrderBlock_extend; [| |exact H].
  - intros k Hk. symmetry. apply lookup_total_app_l. lia.
  - rewrite length_app. lia.
Qed.

Lemma lastContraryCandle_fresh (candles : list OHLCV) (dir : Direction) (idx count : nat)
    (ob : OrderBlock) :
  lastContraryCandle candles dir idx count = Some ob -> freshOrderBlock ob.
Proof.
  revert idx. induction count as [|count IH]; intros idx; simpl; [discriminate|].
  destruct dir.
  - destruct (Qltb _ _); [|apply IH]. intros [= <-]. now split.
  - destruct (Qltb _ _); [|apply IH]. intros [= <-]. now split.
Qed.

Lemma lastContraryCandle_extend (c c' : list OHLCV) (dir : Direction) (idx count : nat) :
  (forall k, (k < idx)%nat -> c !!! k = c' !!! k) ->
  (count <= idx)%nat ->
  lastContraryCandle c' dir idx count = lastContraryCandle c dir idx count.
Proof.
  revert idx. induction count as [|count IH]; intros idx Hsame Hle; simpl; [reflexivity|].
  rewrite <- (Hsame (idx - 1)%nat) by lia.
  rewrite IH; [reflexivity| |lia]. intros k Hk. apply Hsame. lia.
Qed.

Lemma orderBlockOf_extend (candles ext : list OHLCV) (bk : StructureBreak) :
  (sb_index bk <= length candles)%nat ->
  orderBlockOf (candles ++ ext) bk = orderBlockOf candles bk.
Proof.
  intros Hidx. unfold orderBlockOf.
  rewrite (lastContraryCandle_extend candles (candles ++ ext)); [reflexivity| |lia].
  intros k Hk. symmetry. apply lookup_total_app_l. lia.
Qed.

Lemma findOrderBlocks_first_touch (candles : list OHLCV) (bks : list StructureBreak)
    (ob : OrderBlock) :
  In ob (findOrderBlocks candles bks) -> mitigatedAtFirstTouch candles ob.
Proof.
  unfold findOrderBlocks. intros Hin.
  apply in_map_iff in Hin as (raw & <- & Hraw).
  apply in_flat_map in Hraw as (bk & _ & Hraw).
  unfold orderBlockOf in Hraw.
  destruct (lastContraryCandle _ _ _ _) as [ob0|] eqn:E; [|destruct Hraw].
  destruct Hraw as [<-|[]].
  apply lastContraryCandle_fresh in E as [Hf Hnone].
  unfold mitigateOrderBlock, mitigatedAtFirstTouch.
  destruct (scanOrderBlock_first_touch candles (length candles - (ob_index ob0 + 5))
              (ob_index ob0 + 5) ob0 Hf) as [(m & -> & Hm & Ht & Hb)|[-> Hn]].
  - simpl. split; [reflexivity|]. split; [lia|]. split; [exact Ht|exact Hb].
  - rewrite Hnone. split; [exact Hf|]. intros k Hk. apply Hn. lia.
Qed.

Lemma breaks_index_bound (candles : list OHLCV) (highs lows : list SwingPoint) (n : nat) :
  forall b, In b (bs_breaks (breakStateAfter candles highs lows n)) -> (sb_index b < n)%nat.
Proof.
  induction n as [|n IH]; intros b Hb; [destruct Hb|].
  rewrite breakStateAfter_S in Hb.
  destruct (updateActive_fields highs lows n (breakStateAfter candles highs lows n))
    as (_ & _ & _ & EB).
  set (st := updateActive highs lows n (breakStateAfter candles highs lows n)) in *.
  assert (Hold : forall x, In x (bs_breaks st) -> (sb_index x < S n)%nat).
  { intros x Hx. rewrite EB in Hx. apply IH in Hx. lia. }
  unfold classify in Hb.
  destruct (lastHigh st); [|now apply Hold].
  destruct (lastLow st); [|now apply Hold].
  destruct (trend st);
    repeat match type of Hb with
           | context [if ?c then _ else _] => destruct c
           end;
    simpl in Hb;
    try (now apply Hold);
    apply in_app_iff in Hb as [Hb|[<-|[]]]; try (now apply Hold); simpl; lia.
Qed.

(** Fair value gaps *)

Lemma scanFVG_extend (c c' : list OHLCV) (n n' i : nat) (fvg : FairValueGap) :
  (forall k, (i <= k < i + n)%nat -> c !!! k = c' !!! k) ->
  (n <= n')%nat ->
  fvg_mitigated fvg = false ->
  fvg_mitigated (scanFVG c n i fvg) = true ->
  scanFVG c' n' i fvg = scanFVG c n i fvg.
Proof.
  revert n' i. induction n as [|n IH]; intros n' i Hsame Hle Hfresh Hmit.
  - simpl in Hmit. congruence.
  - destruct n' as [|n']; [lia|]. simpl in *.
    rewrite <- (Hsame i) by lia.
    destruct (touchesFVG fvg (c !!! i)); [reflexivity|].
    apply IH; auto; [|lia]. intros k Hk. apply Hsame. lia.
Qed.

Lemma rawFVGs_flat_map (candles : list OHLCV) :
  rawFVGs candles = flat_map (gapsAt candles) (seq 1 (length candles - 1 - 1)).
Proof. unfold rawFVGs. now rewrite for_loop_push. Qed.

Lemma gapsAt_fresh (candles : list OHLCV) (i : nat) (g : FairValueGap) :
  In g (gapsAt candles i) -> fvg_mitigated g = false /\ fvg_index g = i.
Proof.
  unfold gapsAt. intros Hin. apply in_app_iff in Hin as [Hin|Hin];
    destruct (Qltb _ _); simpl in Hin; try tauto;
    destruct Hin as [<-|[]]; now split.
Qed.

Lemma gapsAt_extend (candles ext : list OHLCV) (i : nat) :
  (i + 1 < length candles)%nat ->
  gapsAt (candles ++ ext) i = gapsAt candles i.
Proof.
  intros Hi. unfold gapsAt.
  rewrite !lookup_total_app_l by lia. reflexivity.
Qed.

Lemma findFVGs_extend (candles ext : list OHLCV) (fvg : FairValueGap) :
  In fvg (findFVGs candles) -> fvg_mitigated fvg = true ->
  In fvg (findFVGs (candles ++ ext)).
Proof.
  unfold findFVGs. intros Hin Hmit.
  apply in_map_iff in Hin as (g & <- & Hg).
  rewrite rawFVGs_flat_map in Hg. apply in_flat_map in Hg as (i & Hi & Hg).
  apply in_seq in Hi.
  destruct (gapsAt_fresh _ _ _ Hg) as [Hfresh Hidx].
  apply in_map_iff. exists g. split.
  - unfold mitigateFVG in *. apply scanFVG_extend; auto.
    + intros k Hk. symmetry. apply lookup_total_app_l. lia.
    + rewrite length_app. lia.
  - rewrite rawFVGs_flat_map. apply in_flat_map. exists i. split.
    + apply in_seq. rewrite length_app. lia.
    + rewrite gapsAt_extend by lia. exact Hg.
Qed.

(** C3 (amended): a fair value gap reported mitigated stays reported, with
    the same mitigation index, when later candles are appended; a mitigated
    order block comes from a break of the shorter analysis and is reported
    unchanged by the extended analysis whenever that break is still emitted
    there; within one analysis an order block is flagged exactly at the first
    candle from origin index + 5 on that touches it, and a flagged order block
    is left unchanged by any further scanning. *)
Theorem zone_mitigation_is_monotone (candles ext : list OHLCV) :
  (forall fvg, In fvg (fvgs (analyze candles)) -> fvg_mitigated fvg = true ->
               In fvg (fvgs (analyze (candles ++ ext))))
  /\ (forall ob, In ob (orderBlocks (analyze candles)) -> ob_mitigated ob = true ->
        exists bk, In bk (breaks (analyze candles))
                   /\ In ob (map (mitigateOrderBlock candles) (orderBlockOf candles bk))
                   /\ (In bk (breaks (analyze (candles ++ ext))) ->
                       In ob (orderBlocks (analyze (candles ++ ext)))))
  /\ (forall ob, In ob (orderBlocks (analyze candles)) -> mitigatedAtFirstTouch candles ob)
  /\ (forall ob n i, ob_mitigated ob = true -> scanOrderBlock candles n i ob = ob).
Proof.
  unfold analyze. simpl. split; [|split; [|split]].
  - intros fvg. apply findFVGs_extend.
  - intros ob Hin Hmit. unfold findOrderBlocks in Hin.
    apply in_map_iff in Hin as (raw & Heq & Hraw).
    apply in_flat_map in Hraw as (bk & Hbk & Hraw).
    exists bk. split; [exact Hbk|]. split.
    + apply in_map_iff. exists raw. split; assumption.
    + intros Hbk'. unfold findOrderBlocks. apply in_map_iff. exists raw. split.
      * rewrite <- Heq. apply mitigateOrderBlock_extend. now rewrite Heq.
      * apply in_flat_map. exists bk. split; [exact Hbk'|].
        rewrite orderBlockOf_extend; [exact Hraw|].
        unfold findStructureBreaks in Hbk.
        apply breaks_index_bound in Hbk. lia.
  - intros ob. apply findOrderBlocks_first_touch.
  - intros ob n i. apply scanOrderBlock_mitigated.
Qed.

Lemma zone_mitigation_is_monotone_witness :
  In (mkFairValueGap BULLISH 11 10 1 1 true (Some 3%nat))
     (fvgs (analyze (gapCandles ++ gapExtension))).
Proof.
  apply (proj1 (zone_mitigation_is_monotone gapCandles gapExtension)).
  - vm_compute. left. reflexivity.
  - reflexivity.
Defined.

(** C3 as stated fails for order blocks: the analysis of the first ten
    candles reports a mitigated bearish order block at index 4; with the
    eleventh candle appended no order block is reported at all. *)
Lemma mitigated_order_block_disappears :
  ~ (forall (candles ext : list OHLCV) (ob : OrderBlock),
        In ob (orderBlocks (analyze candles)) -> ob_mitigated ob = true ->
        exists ob', In ob' (orderBlocks (analyze (candles ++ ext)))
                    /\ ob_type ob' = ob_type ob /\ ob_index ob' = ob_index ob
                    /\ ob_mitigated ob' = true
                    /\ ob_mitigationIndex ob' = ob_mitigationIndex ob).
Proof.
  intros H.
  destruct (H (take 10 lookaheadCandles) (drop 10 lookaheadCandles)
              (mkOrderBlock BEARISH 12 6 4 4 true (Some 9%nat)))
    as (ob' & Hin & _).
  - vm_compute. left. reflexivity.
  - reflexivity.
  - vm_compute in Hin. exact Hin.
Qed.

(** * Multi-timeframe alignment *)

Lemma trend_eqb_eq (a b : TrendDirection) : trend_eqb a b = true <-> a = b.
Proof.
  destruct a as [[]|], b as [[]|]; simpl; split; intros H;
    try reflexivity; try discriminate.
Qed.

Lemma isRanging_true (t : TrendDirection) : isRanging t = true <-> t = RANGING.
Proof. destruct t; simpl; split; intros H; try reflexivity; discriminate. Qed.

Lemma determineAlignedTrend_cases (daily fourHour : HTFContext) :
  (htf_trend daily = htf_trend fourHour /\ htf_trend daily <> RANGING
   /\ determineAlignedTrend (Some daily) (Some fourHour)
      = mkAlignedTrend (htf_trend daily) true
          (((htf_trendStrength daily + htf_trendStrength fourHour) / 2) / 100))
  \/ (~ (htf_trend daily = htf_trend fourHour /\ htf_trend daily <> RANGING)
      /\ htf_trend daily <> RANGING /\ htf_trend fourHour = RANGING
      /\ 60 < htf_trendStrength daily
      /\ determineAlignedTrend (Some daily) (Some fourHour)
         = mkAlignedTrend (htf_trend daily) false (htf_trendStrength daily / 150))
  \/ (~ (htf_trend daily = htf_trend fourHour /\ htf_trend daily <> RANGING)
      /\ ~ (htf_trend daily <> RANGING /\ htf_trend fourHour = RANGING
            /\ 60 < htf_trendStrength daily)
      /\ determineAlignedTrend (Some daily) (Some fourHour)
         = mkAlignedTrend RANGING false 0).
Proof.
  unfold determineAlignedTrend.
  destruct (trend_eqb (htf_trend daily) (htf_trend fourHour)) eqn:Eeq;
    destruct (isRanging (htf_trend daily)) eqn:Erd; simpl.
  - apply isRanging_true in Erd.
    right; right. split; [tauto|]. split; [tauto|]. reflexivity.
  - apply trend_eqb_eq in Eeq.
    left. split; [exact Eeq|]. split; [|reflexivity].
    intros E. rewrite E in Erd. discriminate.
  - apply isRanging_true in Erd.
    right; right. split; [tauto|]. split; [tauto|]. reflexivity.
  - assert (Hne : htf_trend daily <> htf_trend fourHour).
    { intros E. apply trend_eqb_eq in E. congruence. }
    assert (Hnr : htf_trend daily <> RANGING).
    { intros E. rewrite E in Erd. discriminate. }
    destruct (isRanging (htf_trend fourHour)) eqn:Erf; simpl.
    + apply isRanging_true in Erf.
      destruct (Qltb 60 (htf_trendStrength daily)) eqn:E60; simpl.
      * apply Qltb_lt in E60. right; left. repeat split; tauto.
      * apply Qltb_ge in E60. right; right.
        split; [tauto|]. split; [|reflexivity]. intros (_ & _ & H). lra.
    + right; right. split; [tauto|]. split; [|reflexivity].
      intros (_ & E & _). rewrite E in Erf. discriminate.
Qed.

(** C8 (amended): the result is aligned iff both contexts report the same
    non-RANGING trend, and then carries that trend with confidence equal to
    the mean strength divided by 100 (80 and 60 give 0.70); the only fallback
    is a non-RANGING daily trend with strength above 60 beside a RANGING
    4-hour trend, returned unaligned with confidence strength/150; every
    other pair gives RANGING, unaligned, confidence 0. *)
Theorem determineAlignedTrend_spec (daily fourHour : HTFContext) :
  let r := determineAlignedTrend (Some daily) (Some fourHour) in
  (isAligned r = true <->
     htf_trend daily = htf_trend fourHour /\ htf_trend daily <> RANGING)
  /\ (isAligned r = true ->
        alignedTrend r = htf_trend daily
        /\ confidence r == ((htf_trendStrength daily + htf_trendStrength fourHour) / 2) / 100)
  /\ (htf_trend daily <> RANGING -> htf_trend fourHour = RANGING ->
        60 < htf_trendStrength daily ->
        r = mkAlignedTrend (htf_trend daily) false (htf_trendStrength daily / 150))
  /\ (isAligned r = false ->
        ~ (htf_trend daily <> RANGING /\ htf_trend fourHour = RANGING
           /\ 60 < htf_trendStrength daily) ->
        r = mkAlignedTrend RANGING false 0)
  /\ (htf_trend daily = Trending BULLISH -> htf_trend fourHour = Trending BULLISH ->
        htf_trendStrength daily == 80 -> htf_trendStrength fourHour == 60 ->
        isAligned r = true /\ confidence r == 7 # 10).
Proof.
  intros r. subst r.
  destruct (determineAlignedTrend_cases daily fourHour)
    as [(Hsame & Hnr & ->)|[(Hns & Hnr & Hf & H60 & ->)|(Hns & Hnf & ->)]]; simpl.
  - split; [tauto|]. split; [intros _; split; reflexivity|].
    split; [intros _ E; rewrite <- Hsame in E; contradiction|].
    split; [discriminate|].
    intros _ _ H80 H60. split; [reflexivity|]. rewrite H80, H60. reflexivity.
  - split; [split; [discriminate | tauto]|]. split; [discriminate|].
    split; [reflexivity|]. split; [intros _ Hn; exfalso; apply Hn; tauto|].
    intros Hd Hf'. rewrite Hf in Hf'. discriminate.
  - split; [split; [discriminate | tauto]|]. split; [discriminate|].
    split; [intros; exfalso; apply Hnf; tauto|]. split; [reflexivity|].
    intros Hd Hf' _ _. exfalso. apply Hns. split; congruence.
Qed.

Lemma determineAlignedTrend_spec_witness :
  isAligned (determineAlignedTrend (Some (context (Trending BULLISH) 80))
                                   (Some (context (Trending BULLISH) 60))) = true
  /\ confidence (determineAlignedTrend (Some (context (Trending BULLISH) 80))
                                       (Some (context (Trending BULLISH) 60))) == 7 # 10.
Proof.
  apply (proj2 (proj2 (proj2 (proj2
           (determineAlignedTrend_spec (context (Trending BULLISH) 80)
                                       (context (Trending BULLISH) 60))))));
    reflexivity.
Defined.

(** C8 as stated fails: a RANGING daily context beside a BULLISH 4-hour
    context of strength 80 has exactly one non-RANGING timeframe with
    strength above 60, yet the result is RANGING with confidence 0. *)
Lemma no_fallback_to_four_hour :
  ~ (forall daily fourHour : HTFContext,
        htf_trend daily = RANGING -> htf_trend fourHour <> RANGING ->
        60 < htf_trendStrength fourHour ->
        alignedTrend (determineAlignedTrend (Some daily) (Some fourHour))
          = htf_trend fourHour
        /\ isAligned (determineAlignedTrend (Some daily) (Some fourHour)) = false
        /\ confidence (determineAlignedTrend (Some daily) (Some fourHour))
           == htf_trendStrength fourHour / 150).
Proof.
  intros H.
  destruct (H (context RANGING 0) (context (Trending BULLISH) 80)) as (Ht & _).
  - reflexivity.
  - discriminate.
  - reflexivity.
  - discriminate.
Qed.

(** * Position sizing *)

Lemma floor2_le (x : Q) : floor2 x <= x.
Proof.
  unfold floor2. apply Qle_shift_div_r; [reflexivity|]. apply Qfloor_le.
Qed.

Lemma Qeq_bool_false (x y : Q) : Qeq_bool x y = false -> ~ x == y.
Proof. intros H E. apply Qeq_bool_iff in E. congruence. Qed.

(** C6, the code at the failing input: [PositionSizer.intelligentSizing]
    of execution/PositionSizer.ts with balance 25000, 1% risk, entry 100 and
    stop 99.99 recommends 22812.5 units, a position worth 2281250 at the
    entry price: more than the balance times 10, the default leverage limit
    of the sizer that enforces a leverage cap, and more than the balance
    times 91. *)
Theorem intelligentSizing_exceeds_leverage_limit :
  exists r,
    intelligentSizing (newPositionSizer (sizingConfig 25000 1))
      (sizingParams 100 (9999 # 100)) = Returned (Some r)
    /\ rec_quantity (recommendation r) == 228125 # 10
    /\ rec_quantity (recommendation r) * rec_entryPrice (recommendation r) == 2281250
    /\ currentBalance (newPositionSizer (sizingConfig 25000 1)) * DEFAULT_MAX_LEVERAGE
       < rec_quantity (recommendation r) * rec_entryPrice (recommendation r)
    /\ currentBalance (newPositionSizer (sizingConfig 25000 1)) * 91
       < rec_quantity (recommendation r) * rec_entryPrice (recommendation r).
Proof.
  destruct (intelligentSizing (newPositionSizer (sizingConfig 25000 1))
              (sizingParams 100 (9999 # 100))) as [[r|]|err] eqn:E;
    [|vm_compute in E; discriminate|vm_compute in E; discriminate].
  exists r. split; [reflexivity|].
  vm_compute in E. injection E as <-.
  split; [reflexivity|]. split; [reflexivity|]. split; reflexivity.
Qed.

(** * Profit factor *)

Lemma Qabs_pos_iff (x : Q) : 0 < Qabs x <-> ~ x == 0.
Proof.
  split.
  - intros H E. rewrite E in H. revert H. apply Qle_not_lt. apply Qle_refl.
  - intros H. apply Qabs_case; intros; lra.
Qed.

Lemma foldl_sum_shift {A : Type} (f : A -> Q) (l : list A) (a : Q) :
  foldl (fun s t => s + f t) a l == a + foldl (fun s t => s + f t) 0 l.
Proof.
  revert a. induction l as [|x l IH]; intros a; simpl.
  - lra.
  - rewrite (IH (a + f x)), (IH (0 + f x)). lra.
Qed.

Lemma sumPnl_cons (t : Trade) (ts : list Trade) :
  sumPnl (t :: ts) == t_pnl t + sumPnl ts.
Proof.
  unfold sumPnl. simpl. rewrite foldl_sum_shift. lra.
Qed.

Lemma sumPnl_wins_nonneg (ts : list Trade) : 0 <= sumPnl (wins ts).
Proof.
  induction ts as [|t ts IH]; simpl.
  - apply Qle_refl.
  - unfold wins in *. simpl. destruct (Qltb 0 (t_pnl t)) eqn:E; [|exact IH].
    apply Qltb_lt in E. rewrite sumPnl_cons. lra.
Qed.

Lemma sumPnl_split (ts : list Trade) :
  sumPnl ts == sumPnl (wins ts) + sumPnl (losses ts).
Proof.
  induction ts as [|t ts IH]; simpl.
  - reflexivity.
  - unfold wins, losses in *. simpl. rewrite sumPnl_cons, IH.
    destruct (Qltb 0 (t_pnl t)) eqn:E.
    + assert (E' : Qle_bool (t_pnl t) 0 = false)
        by (apply Qle_bool_gt; now apply Qltb_lt).
      rewrite E', sumPnl_cons. lra.
    + assert (E' : Qle_bool (t_pnl t) 0 = true)
        by (apply Qle_bool_iff; now apply Qltb_ge).
      rewrite E', sumPnl_cons. lra.
Qed.

Lemma countQ_pos {A : Type} (x : A) (l : list A) : 0 < countQ (x :: l).
Proof.
  unfold countQ. simpl length. rewrite Nat2Z.inj_succ.
  change 0 with (inject_Z 0). rewrite <- Zlt_Qlt. lia.
Qed.

Lemma avgLoss_pos_iff (ts : list Trade) :
  0 < avgLoss ts <-> ~ sumPnl (losses ts) == 0.
Proof.
  unfold avgLoss. destruct (losses ts) as [|t l] eqn:E.
  - split; [intros H; exfalso; revert H; apply Qlt_irrefl | intros H; exfalso; apply H; reflexivity].
  - pose proof (countQ_pos t l) as Hc. rewrite Qabs_pos_iff. split.
    + intros H E0. apply H. rewrite E0. field. lra.
    + intros H E0. apply H.
      assert (Hx : sumPnl (t :: l) == sumPnl (t :: l) / countQ (t :: l) * countQ (t :: l))
        by (field; lra).
      rewrite Hx, E0. lra.
Qed.

(** C7, the code at the failing input: for a backtest whose only trade is
    a winning one with net profit 0.125 (no losing trade, grossLoss zero),
    [calculateMetrics] reports the profit factor 0.13, the gross profit
    rounded to two decimals, not the gross profit 0.125 itself. *)
Theorem calculateMetrics_rounds_the_profit_factor :
  exists m,
    calculateMetrics (engineWithTrades [winningTrade (1 # 8)]) = Some m
    /\ grossLoss (trades (engineWithTrades [winningTrade (1 # 8)])) == 0
    /\ winningSum (trades (engineWithTrades [winningTrade (1 # 8)])) == 1 # 8
    /\ mt_profitFactor m == 13 # 100
    /\ ~ mt_profitFactor m == winningSum (trades (engineWithTrades [winningTrade (1 # 8)])).
Proof.
  eexists. split; [reflexivity|].
  split; [reflexivity|]. split; [reflexivity|]. split; [reflexivity|].
  intros E. vm_compute in E. discriminate.
Qed.

(** * Backtest engines: opening positions *)

(** C5, the code at the failing input: after three consecutive losing trades
    the sizer's risk gate says no ([canOpen] is false), and the entry logic of
    [runBacktest] opens the fourth position all the same. *)
Theorem entry_opens_despite_failed_risk_gate :
  exists e e' sizing,
    engineBeforeFourthEntry = Some e
    /\ positions e !! "BTCUSD" = None
    /\ consecutiveLosses (positionSizer e) = 3%nat
    /\ tryOpen e "BTCUSD" (dippingCandles !!! 53%nat)
         (mkTradeSignal BUY (8 # 10) [] 100 53 (Some 99) (Some 200) None None)
       = Opened e' sizing
    /\ canOpen (riskCheck sizing) = false
    /\ failureReasons (riskCheck sizing)
       = ["belowMaxDailyLoss"; "notTooManyConsecutiveLosses"]
    /\ is_Some (positions e' !! "BTCUSD").
Proof.
  destruct engineBeforeFourthEntry as [e|] eqn:Ee; [|vm_compute in Ee; discriminate].
  destruct (tryOpen e "BTCUSD" (dippingCandles !!! 53%nat)
              (mkTradeSignal BUY (8 # 10) [] 100 53 (Some 99) (Some 200) None None))
    as [e' sizing| | |] eqn:Eo.
  - exists e, e', sizing. vm_compute in Ee. injection Ee as <-.
    vm_compute in Eo. injection Eo as <- <-.
    repeat split; try reflexivity. vm_compute. eexists. reflexivity.
  - vm_compute in Ee. injection Ee as <-. vm_compute in Eo. discriminate.
  - vm_compute in Ee. injection Ee as <-. vm_compute in Eo. discriminate.
  - vm_compute in Ee. injection Ee as <-. vm_compute in Eo. discriminate.
Qed.

(** The strategy engine's [run] calls [openPosition] on every BUY or SELL
    signal: the position opened on candle 50 is replaced on candle 51, and no
    trade records its end. *)
Lemma run_replaces_open_position :
  let after50 := for_loop 1 50 (strategyStep alwaysLong "demo" quietCandles)
                   strategyBacktest in
  let after51 := run alwaysLong "demo" strategyBacktest quietCandles in
  option_map p_entryTime (currentPosition after50) = Some 50%Z
  /\ option_map p_entryTime (currentPosition after51) = Some 51%Z
  /\ sb_trades after51 = [].
Proof.
  vm_compute. repeat split; reflexivity.
Qed.

(** * Signal evaluation *)

Lemma last_cons_is_Some {A : Type} (x : A) (l : list A) : exists y, last (x :: l) = Some y.
Proof.
  destruct (last (x :: l)) as [y|] eqn:E; [now exists y|].
  apply last_None in E. discriminate.
Qed.

(** C9, the code at the failing input: on the empty candle array
    [StrategyEngine.evaluate] throws, because it reads the last candle's
    close before it checks the length; on a non-empty array shorter than 100
    candles it returns the NO_TRADE signal built from the last candle. *)
Theorem evaluate_throws_on_empty_window (cfg : StrategyConfig) :
  evaluate cfg [] = Thrown TypeError
  /\ (forall c cs, (length (c :: cs) < 100)%nat ->
        exists lastCandle,
          last (c :: cs) = Some lastCandle
          /\ evaluate cfg (c :: cs) = Returned (noTradeSignal lastCandle)).
Proof.
  split; [reflexivity|].
  intros c cs Hlen. destruct (last_cons_is_Some c cs) as [l Hl].
  exists l. split; [exact Hl|].
  unfold evaluate. rewrite Hl.
  apply Nat.ltb_lt in Hlen. now rewrite Hlen.
Qed.

(** C10, the code at the failing input: the timestamp of a signal built by
    [createSignal] is the wall clock at the call, so the same candles and
    timeframe evaluated at two different instants give different signals. *)
Theorem createSignal_stamps_the_wall_clock
    (scoreCandles : list OHLCV -> string -> TradeSignal)
    (candles : list OHLCV) (tf : string) :
  (forall now, sig_timestamp (evaluatePatterns now scoreCandles candles tf) = now)
  /\ evaluatePatterns 1000 scoreCandles candles tf
     <> evaluatePatterns 2000 scoreCandles candles tf.
Proof.
  assert (H : forall now, sig_timestamp (evaluatePatterns now scoreCandles candles tf) = now).
  { intros now. unfold evaluatePatterns, createSignal.
    destruct (length candles <? 50)%nat; reflexivity. }
  split; [exact H|].
  intros E. apply (f_equal sig_timestamp) in E. rewrite !H in E. discriminate.
Qed.

(** * Further properties of the analyzer *)

(** X1: swing detection is exact.  The index [i] is reported as a swing
    high if and only if [left <= i < length - right], the high of candle [i]
    is strictly above the high of each of the [left] candles before it, and
    none of the [right] candles after it has a strictly higher high (a later
    candle with an equal high does not prevent the report).  Swing lows
    mirror this: strictly below each of the [left] earlier lows, and not
    undercut by any of the [right] later lows.  Inputs of at most
    [left + right] candles give empty lists. *)
Theorem swing_detection_is_exact (candles : list OHLCV) (left right i : nat) :
  (In (mkSwingPoint HIGH (high (candles !!! i)) i (timestamp (candles !!! i)))
      (findSwingHighs candles left right)
   <-> (left <= i)%nat /\ (i + right < length candles)%nat
       /\ SwingHighAt candles left right i)
  /\ (In (mkSwingPoint LOW (low (candles !!! i)) i (timestamp (candles !!! i)))
         (findSwingLows candles left right)
      <-> (left <= i)%nat /\ (i + right < length candles)%nat
          /\ SwingLowAt candles left right i)
  /\ ((length candles <= left + right)%nat ->
        findSwingHighs candles left right = [] /\ findSwingLows candles left right = []).
Proof.
  split; [|split].
  - rewrite in_findSwingHighs. simpl. tauto.
  - rewrite in_findSwingLows. simpl. tauto.
  - intros Hshort. rewrite findSwingHighs_flat_map, findSwingLows_flat_map.
    replace (length candles - right - left)%nat with 0%nat by lia. now split.
Qed.

Lemma swing_detection_is_exact_witness :
  In (mkSwingPoint HIGH 20 2 2) (findSwingHighs plateauCandles 2 2)
  /\ SwingHighAt plateauCandles 2 2 2
  /\ high (plateauCandles !!! 3%nat) == high (plateauCandles !!! 2%nat).
Proof.
  assert (Hin : In (mkSwingPoint HIGH (high (plateauCandles !!! 2%nat)) 2
                      (timestamp (plateauCandles !!! 2%nat)))
                   (findSwingHighs plateauCandles 2 2))
    by (vm_compute; left; reflexivity).
  split; [exact Hin|]. split; [|reflexivity].
  exact (proj2 (proj2 (proj1 (proj1 (swing_detection_is_exact plateauCandles 2 2 2)) Hin))).
Defined.

Lemma classify_cases (n : nat) (c : OHLCV) (st : BreakState) :
  bs_breaks (classify n c st) = bs_breaks st
  \/ exists b, bs_breaks (classify n c st) = bs_breaks st ++ [b]
               /\ sb_index b = n /\ sb_timestamp b = timestamp c
               /\ sb_isConfirmed b = negb (is_SWEEP (sb_type b))
               /\ match sb_direction b with
                  | BULLISH => sb_price b < high c
                               /\ (sb_isConfirmed b = true <-> sb_price b < close c)
                  | BEARISH => low c < sb_price b
                               /\ (sb_isConfirmed b = true <-> close c < sb_price b)
                  end.
Proof.
  unfold classify.
  destruct (lastHigh st) as [lh|]; [|now left].
  destruct (lastLow st) as [ll|]; [|now left].
  destruct (trend st).
  - destruct (Qltb (sp_price lh) (high c)) eqn:E1.
    + right. eexists. split; [reflexivity|]. simpl.
      split; [reflexivity|]. split; [reflexivity|].
      split; [destruct (Qltb (sp_price lh) (close c)); reflexivity|].
      split; [now apply Qltb_lt | apply Qltb_lt].
    + destruct (Qltb (low c) (sp_price ll)) eqn:E2; [|now left].
      right. eexists. split; [reflexivity|]. simpl.
      split; [reflexivity|]. split; [reflexivity|].
      split; [destruct (Qltb (close c) (sp_price ll)); reflexivity|].
      split; [now apply Qltb_lt | apply Qltb_lt].
  - destruct (Qltb (low c) (sp_price ll)) eqn:E1.
    + right. eexists. split; [reflexivity|]. simpl.
      split; [reflexivity|]. split; [reflexivity|].
      split; [destruct (Qltb (close c) (sp_price ll)); reflexivity|].
      split; [now apply Qltb_lt | apply Qltb_lt].
    + destruct (Qltb (sp_price lh) (high c)) eqn:E2; [|now left].
      right. eexists. split; [reflexivity|]. simpl.
      split; [reflexivity|]. split; [reflexivity|].
      split; [destruct (Qltb (sp_price lh) (close c)); reflexivity|].
      split; [now apply Qltb_lt | apply Qltb_lt].
Qed.

Lemma breaksAscending_snoc (bks : list StructureBreak) (b : StructureBreak) :
  breaksAscending bks ->
  (forall a, In a bks -> (sb_index a < sb_index b)%nat) ->
  breaksAscending (bks ++ [b]).
Proof.
  intros Hasc Hlt i j x y Hx Hy Hij.
  assert (Hj : (j < length (bks ++ [b]))%nat) by (eapply lookup_lt_Some; eauto).
  rewrite length_app in Hj. simpl in Hj.
  rewrite lookup_app_l in Hx by lia.
  destruct (Nat.eq_dec j (length bks)) as [->|Hne].
  - rewrite lookup_app_r in Hy by lia. rewrite Nat.sub_diag in Hy.
    simpl in Hy. inversion Hy; subst y.
    apply Hlt. apply list_elem_of_In. eapply list_elem_of_lookup_2; eauto.
  - rewrite lookup_app_l in Hy by lia. eapply Hasc; eauto.
Qed.

Lemma breakStateAfter_list_inv (candles : list OHLCV) (highs lows : list SwingPoint)
    (n : nat) :
  (n <= length candles)%nat ->
  BreakListInv candles n (breakStateAfter candles highs lows n).
Proof.
  induction n as [|n IH]; intros Hn.
  - split.
    + intros i j a b Ha. cbn in Ha. discriminate.
    + intros b [].
  - destruct IH as [Hasc Hall]; [lia|].
    rewrite breakStateAfter_S.
    destruct (updateActive_fields highs lows n (breakStateAfter candles highs lows n))
      as (_ & _ & _ & EB).
    destruct (classify_cases n (candles !!! n)
                (updateActive highs lows n (breakStateAfter candles highs lows n)))
      as [E|(b & E & Hidx & Hts & Hconf & Hdir)]; unfold BreakListInv; rewrite E, EB.
    + split; [exact Hasc|]. intros b Hb. destruct (Hall b Hb). split; [lia|assumption].
    + split.
      * apply breaksAscending_snoc; [exact Hasc|].
        intros a Ha. destruct (Hall a Ha). lia.
      * intros x Hx. apply in_app_iff in Hx as [Hx|[<-|[]]].
        -- destruct (Hall x Hx). split; [lia|assumption].
        -- split; [lia|]. unfold breakMatchesCandle. rewrite Hidx.
           repeat split; auto; try lia; destruct (sb_direction b); tauto.
Qed.

(** X2: the break list is strictly ascending by candle index (at most one
    break per candle) and every break lies inside the candle array. *)
Theorem breaks_are_ascending (candles : list OHLCV) (highs lows : list SwingPoint) :
  breaksAscending (findStructureBreaks candles highs lows)
  /\ forall b, In b (findStructureBreaks candles highs lows) ->
               (sb_index b < length candles)%nat.
Proof.
  destruct (breakStateAfter_list_inv candles highs lows (length candles) (Nat.le_refl _))
    as [Hasc Hall].
  split; [exact Hasc|]. intros b Hb. now destruct (Hall b Hb).
Qed.

(** X3: every break records a candle that traded beyond the break price (a
    high above it for BULLISH, a low below it for BEARISH); the break is a
    BOS or CHOCH with [isConfirmed] set exactly when that candle also closed
    beyond the price, and a SWEEP otherwise. *)
Theorem breaks_match_their_candle (candles : list OHLCV) (highs lows : list SwingPoint)
    (b : StructureBreak) :
  In b (findStructureBreaks candles highs lows) -> breakMatchesCandle candles b.
Proof.
  intros Hb.
  destruct (breakStateAfter_list_inv candles highs lows (length candles) (Nat.le_refl _))
    as [_ Hall].
  now destruct (Hall b Hb).
Qed.

Lemma breaks_match_their_candle_witness :
  breakMatchesCandle lookaheadCandles (mkStructureBreak SWEEP BULLISH 8 20 8 false).
Proof.
  apply (breaks_match_their_candle lookaheadCandles
           (findSwingHighs lookaheadCandles 2 2) (findSwingLows lookaheadCandles 2 2)).
  vm_compute. left. reflexivity.
Defined.

Lemma lastContraryCandle_origin (candles : list OHLCV) (dir : Direction)
    (idx count : nat) (ob : OrderBlock) :
  (count <= idx)%nat ->
  lastContraryCandle candles dir idx count = Some ob ->
  ob_type ob = dir
  /\ (idx - count <= ob_index ob < idx)%nat
  /\ ob_top ob = high (candles !!! ob_index ob)
  /\ ob_bottom ob = low (candles !!! ob_index ob)
  /\ ob_timestamp ob = timestamp (candles !!! ob_index ob)
  /\ contraryCandle dir (candles !!! ob_index ob) = true
  /\ forall k, (ob_index ob < k < idx)%nat -> contraryCandle dir (candles !!! k) = false.
Proof.
  revert idx. induction count as [|count IH]; intros idx Hle; simpl; [discriminate|].
  assert (Hstep : contraryCandle dir (candles !!! (idx - 1)%nat) = false ->
                  lastContraryCandle candles dir (idx - 1)%nat count = Some ob ->
                  ob_type ob = dir
                  /\ (idx - S count <= ob_index ob < idx)%nat
                  /\ ob_top ob = high (candles !!! ob_index ob)
                  /\ ob_bottom ob = low (candles !!! ob_index ob)
                  /\ ob_timestamp ob = timestamp (candles !!! ob_index ob)
                  /\ contraryCandle dir (candles !!! ob_index ob) = true
                  /\ forall k, (ob_index ob < k < idx)%nat ->
                               contraryCandle dir (candles !!! k) = false).
  { intros Hnot Hrec. apply IH in Hrec as (Ht & Hi & Htop & Hbot & Hts & Hc & Hbetween); [|lia].
    repeat split; auto; try lia.
    intros k Hk. destruct (Nat.eq_dec k (idx - 1)%nat) as [->|]; [exact Hnot|].
    apply Hbetween. lia. }
  destruct dir; simpl in *.
  - destruct (Qltb (close (candles !!! (idx - 1)%nat)) (open (candles !!! (idx - 1)%nat))) eqn:E.
    + intros [= <-]. simpl. repeat split; auto; try lia; intros k Hk; lia.
    + now apply Hstep.
  - destruct (Qltb (open (candles !!! (idx - 1)%nat)) (close (candles !!! (idx - 1)%nat))) eqn:E.
    + intros [= <-]. simpl. repeat split; auto; try lia; intros k Hk; lia.
    + now apply Hstep.
Qed.

Lemma scanOrderBlock_fields (candles : list OHLCV) (n i : nat) (ob : OrderBlock) :
  ob_type (scanOrderBlock candles n i ob) = ob_type ob
  /\ ob_top (scanOrderBlock candles n i ob) = ob_top ob
  /\ ob_bottom (scanOrderBlock candles n i ob) = ob_bottom ob
  /\ ob_index (scanOrderBlock candles n i ob) = ob_index ob
  /\ ob_timestamp (scanOrderBlock candles n i ob) = ob_timestamp ob.
Proof.
  revert i ob. induction n as [|n IH]; intros i ob; simpl; [auto|].
  destruct (ob_mitigated ob); [auto|].
  destruct (touchesOB ob (candles !!! i)); [|apply IH].
  destruct (IH (S i) (mkOrderBlock (ob_type ob) (ob_top ob) (ob_bottom ob) (ob_index ob)
                        (ob_timestamp ob) true (Some i))) as (H1 & H2 & H3 & H4 & H5).
  simpl in *. auto.
Qed.

(** X4: every order block is the nearest contrary-coloured candle before a
    break of the list: red for a BULLISH break, green for a BEARISH one, at
    most 50 candles back, with the candle's high and low as top and bottom and
    no contrary candle between it and the break. *)
Theorem order_blocks_are_last_contrary_candles (candles : list OHLCV)
    (bks : list StructureBreak) (ob : OrderBlock) :
  In ob (findOrderBlocks candles bks) ->
  exists bk, In bk bks /\ originOf candles bk ob.
Proof.
  unfold findOrderBlocks. intros Hin.
  apply in_map_iff in Hin as (raw & <- & Hraw).
  apply in_flat_map in Hraw as (bk & Hbk & Hraw).
  exists bk. split; [exact Hbk|].
  unfold orderBlockOf in Hraw.
  destruct (lastContraryCandle _ _ _ _) as [ob0|] eqn:E; [|destruct Hraw].
  destruct Hraw as [<-|[]].
  apply lastContraryCandle_origin in E as (Ht & Hi & Htop & Hbot & Hts & Hc & Hbetween);
    [|lia].
  unfold mitigateOrderBlock, originOf.
  destruct (scanOrderBlock_fields candles (length candles - (ob_index ob0 + 5))
              (ob_index ob0 + 5) ob0) as (-> & -> & -> & -> & ->).
  unfold searchLimit in *. repeat split; auto; lia.
Qed.

Lemma order_blocks_are_last_contrary_candles_witness :
  exists bk, In bk (breaks (analyze (take 10 lookaheadCandles)))
             /\ originOf (take 10 lookaheadCandles) bk
                  (mkOrderBlock BEARISH 12 6 4 4 true (Some 9%nat)).
Proof.
  apply (order_blocks_are_last_contrary_candles (take 10 lookaheadCandles)
           (breaks (analyze (take 10 lookaheadCandles)))).
  vm_compute. left. reflexivity.
Defined.

Lemma scanFVG_first_touch (candles : list OHLCV) (n i : nat) (fvg : FairValueGap) :
  (exists m, scanFVG candles n i fvg = markGapMitigated fvg m
             /\ (i <= m < i + n)%nat
             /\ touchesFVG fvg (candles !!! m) = true
             /\ forall k, (i <= k < m)%nat -> touchesFVG fvg (candles !!! k) = false)
  \/ (scanFVG candles n i fvg = fvg
      /\ forall k, (i <= k < i + n)%nat -> touchesFVG fvg (candles !!! k) = false).
Proof.
  revert i. induction n as [|n IH]; intros i; simpl.
  - right. split; [reflexivity|]. intros k Hk. lia.
  - destruct (touchesFVG fvg (candles !!! i)) eqn:Et.
    + left. exists i. repeat split; auto; try lia; intros k Hk; lia.
    + destruct (IH (S i)) as [(m & E & Hm & Htouch & Hbefore)|[E Hnone]].
      * left. exists m. split; [exact E|]. split; [lia|]. split; [exact Htouch|].
        intros k Hk. destruct (Nat.eq_dec k i) as [->|]; [exact Et|]. apply Hbefore. lia.
      * right. split; [exact E|].
        intros k Hk. destruct (Nat.eq_dec k i) as [->|]; [exact Et|]. apply Hnone. lia.
Qed.

Lemma gapsAt_between (candles : list OHLCV) (i : nat) (g : FairValueGap) :
  In g (gapsAt candles i) ->
  fvg_index g = i /\ fvg_mitigated g = false /\ fvg_mitigationIndex g = None
  /\ fvg_bottom g < fvg_top g
  /\ match fvg_type g with
     | BULLISH => fvg_bottom g = high (candles !!! (i - 1)%nat)
                  /\ fvg_top g = low (candles !!! (i + 1)%nat)
     | BEARISH => fvg_top g = low (candles !!! (i - 1)%nat)
                  /\ fvg_bottom g = high (candles !!! (i + 1)%nat)
     end.
Proof.
  unfold gapsAt. intros Hin. apply in_app_iff in Hin as [Hin|Hin].
  - destruct (Qltb (high (candles !!! (i - 1)%nat)) (low (candles !!! (i + 1)%nat))) eqn:E;
      [|destruct Hin].
    destruct Hin as [<-|[]]. simpl. apply Qltb_lt in E. repeat split; auto.
  - destruct (Qltb (high (candles !!! (i + 1)%nat)) (low (candles !!! (i - 1)%nat))) eqn:E;
      [|destruct Hin].
    destruct Hin as [<-|[]]. simpl. apply Qltb_lt in E. repeat split; auto.
Qed.

(** X5: every fair value gap is a genuine gap (bottom strictly below top)
    between the candles before and after an interior index, and it is flagged
    mitigated exactly at the first candle from index + 2 on whose wick
    re-enters it. *)
Theorem fair_value_gaps_are_gaps (candles : list OHLCV) (fvg : FairValueGap) :
  In fvg (findFVGs candles) ->
  gapBetweenNeighbours candles fvg /\ gapMitigatedAtFirstTouch candles fvg.
Proof.
  unfold findFVGs. intros Hin.
  apply in_map_iff in Hin as (g & <- & Hg).
  rewrite rawFVGs_flat_map in Hg. apply in_flat_map in Hg as (i & Hi & Hg).
  apply in_seq in Hi.
  apply gapsAt_between in Hg as (Hidx & Hfresh & Hnone & Hgap & Hends).
  unfold mitigateFVG, gapBetweenNeighbours, gapMitigatedAtFirstTouch.
  destruct (scanFVG_first_touch candles (length candles - (fvg_index g + 2))
              (fvg_index g + 2) g) as [(m & -> & Hm & Ht & Hb)|[-> Hn]].
  - simpl. rewrite Hidx in *. repeat split; auto; try lia.
  - rewrite Hnone, Hidx in *. repeat split; auto; try lia.
    intros k Hk. apply Hn. lia.
Qed.

Lemma fair_value_gaps_are_gaps_witness :
  gapBetweenNeighbours gapCandles (mkFairValueGap BULLISH 11 10 1 1 true (Some 3%nat))
  /\ gapMitigatedAtFirstTouch gapCandles
       (mkFairValueGap BULLISH 11 10 1 1 true (Some 3%nat)).
Proof.
  apply (fair_value_gaps_are_gaps gapCandles).
  vm_compute. left. reflexivity.
Defined.

(** ** Breaks settle once the right window has passed *)

Lemma forallb_ext_in {A : Type} (f g : A -> bool) (l : list A) :
  (forall x, In x l -> f x = g x) -> forallb f l = forallb g l.
Proof.
  induction l as [|x l IH]; intros H; simpl; [reflexivity|].
  rewrite (H x) by now left. rewrite IH; [reflexivity|].
  intros y Hy. apply H. now right.
Qed.

Lemma flat_map_ext_in {A B : Type} (f g : A -> list B) (l : list A) :
  (forall x, In x l -> f x = g x) -> flat_map f l = flat_map g l.
Proof.
  induction l as [|x l IH]; intros H; simpl; [reflexivity|].
  rewrite (H x) by now left. rewrite IH; [reflexivity|].
  intros y Hy. apply H. now right.
Qed.

Lemma isHigh_app (candles ext : list OHLCV) (left right i : nat) :
  (i + right < length candles)%nat ->
  isHigh (candles ++ ext) left right i = isHigh candles left right i.
Proof.
  intros Hi. unfold isHigh.
  rewrite (lookup_total_app_l candles ext i) by lia. f_equal.
  - apply forallb_ext_in. intros j Hj.
    rewrite (lookup_total_app_l candles ext (i - j)) by lia. reflexivity.
  - apply forallb_ext_in. intros j Hj. apply in_seq in Hj.
    rewrite (lookup_total_app_l candles ext (i + j)) by lia. reflexivity.
Qed.

Lemma isLow_app (candles ext : list OHLCV) (left right i : nat) :
  (i + right < length candles)%nat ->
  isLow (candles ++ ext) left right i = isLow candles left right i.
Proof.
  intros Hi. unfold isLow.
  rewrite (lookup_total_app_l candles ext i) by lia. f_equal.
  - apply forallb_ext_in. intros j Hj.
    rewrite (lookup_total_app_l candles ext (i - j)) by lia. reflexivity.
  - apply forallb_ext_in. intros j Hj. apply in_seq in Hj.
    rewrite (lookup_total_app_l candles ext (i + j)) by lia. reflexivity.
Qed.

Lemma findSwingHighs_app (candles ext : list OHLCV) (left right : nat) :
  exists later,
    findSwingHighs (candles ++ ext) left right = findSwingHighs candles left right ++ later
    /\ forall s, In s later -> (length candles - right <= sp_index s)%nat.
Proof.
  rewrite !findSwingHighs_flat_map, length_app.
  set (n := (length candles - right - left)%nat).
  set (n' := (length candles + length ext - right - left)%nat).
  replace n' with (n + (n' - n))%nat by (unfold n, n'; lia).
  rewrite seq_app, flat_map_app.
  exists (flat_map (swingHighAt (candles ++ ext) left right) (seq (left + n) (n' - n))).
  split.
  - f_equal. apply flat_map_ext_in. intros i Hi. apply in_seq in Hi.
    unfold swingHighAt. rewrite isHigh_app by (unfold n in Hi; lia).
    rewrite (lookup_total_app_l candles ext i) by (unfold n in Hi; lia). reflexivity.
  - intros s Hs. apply in_flat_map in Hs as (k & Hk & Hs). apply in_seq in Hk.
    unfold swingHighAt in Hs. destruct (isHigh _ _ _ _); [|destruct Hs].
    destruct Hs as [<-|[]]. simpl. unfold n in Hk. lia.
Qed.

Lemma findSwingLows_app (candles ext : list OHLCV) (left right : nat) :
  exists later,
    findSwingLows (candles ++ ext) left right = findSwingLows candles left right ++ later
    /\ forall s, In s later -> (length candles - right <= sp_index s)%nat.
Proof.
  rewrite !findSwingLows_flat_map, length_app.
  set (n := (length candles - right - left)%nat).
  set (n' := (length candles + length ext - right - left)%nat).
  replace n' with (n + (n' - n))%nat by (unfold n, n'; lia).
  rewrite seq_app, flat_map_app.
  exists (flat_map (swingLowAt (candles ++ ext) left right) (seq (left + n) (n' - n))).
  split.
  - f_equal. apply flat_map_ext_in. intros i Hi. apply in_seq in Hi.
    unfold swingLowAt. rewrite isLow_app by (unfold n in Hi; lia).
    rewrite (lookup_total_app_l candles ext i) by (unfold n in Hi; lia). reflexivity.
  - intros s Hs. apply in_flat_map in Hs as (k & Hk & Hs). apply in_seq in Hk.
    unfold swingLowAt in Hs. destruct (isLow _ _ _ _); [|destruct Hs].
    destruct Hs as [<-|[]]. simpl. unfold n in Hk. lia.
Qed.

(** With enough fuel the cursor loop does not see swings appended behind the
    ones it may consume. *)
Lemma advance_app (swings later : list SwingPoint) (i : nat) :
  (forall s, In s later -> (i <= sp_index s)%nat) ->
  forall k cur last fuel,
    (length swings - cur = k)%nat -> (cur <= length swings)%nat -> (k <= fuel)%nat ->
    advance fuel (swings ++ later) i cur last = advance k swings i cur last.
Proof.
  intros Hlater. induction k as [|k IH]; intros cur last fuel Hk Hcur Hfuel.
  - simpl. destruct fuel as [|fuel]; [reflexivity|]. simpl.
    rewrite lookup_app_r by lia.
    destruct (later !! (cur - length swings)%nat) as [s|] eqn:E; [|reflexivity].
    assert (Hin : In s later).
    { apply list_elem_of_In. eapply list_elem_of_lookup_2; eauto. }
    apply Hlater in Hin. apply Nat.ltb_ge in Hin. now rewrite Hin.
  - destruct fuel as [|fuel]; [lia|]. simpl.
    rewrite lookup_app_l by lia.
    destruct (swings !! cur) as [s|] eqn:E; [|reflexivity].
    destruct (sp_index s <? i)%nat; [|reflexivity].
    apply IH; lia.
Qed.

Lemma advance_cursor_bound (fuel : nat) (swings : list SwingPoint) (i cur : nat)
    (last : option SwingPoint) :
  (cur <= length swings)%nat ->
  (fst (advance fuel swings i cur last) <= length swings)%nat.
Proof.
  revert cur last. induction fuel as [|fuel IH]; intros cur last Hcur; simpl; [exact Hcur|].
  destruct (swings !! cur) as [s|] eqn:E; [|exact Hcur].
  destruct (sp_index s <? i)%nat; [|exact Hcur].
  apply IH. apply lookup_lt_Some in E. lia.
Qed.

Lemma classify_cursors (n : nat) (c : OHLCV) (st : BreakState) :
  currentHighIndex (classify n c st) = currentHighIndex st
  /\ currentLowIndex (classify n c st) = currentLowIndex st.
Proof.
  unfold classify.
  destruct (lastHigh st); [|now split].
  destruct (lastLow st); [|now split].
  destruct (trend st);
    repeat match goal with
           | |- context [if ?b then _ else _] => destruct b
           end; now split.
Qed.

Lemma updateActive_cursors (highs lows : list SwingPoint) (i : nat) (st : BreakState) :
  currentHighIndex (updateActive highs lows i st)
    = fst (advance (length highs - currentHighIndex st) highs i
             (currentHighIndex st) (lastHigh st))
  /\ currentLowIndex (updateActive highs lows i st)
    = fst (advance (length lows - currentLowIndex st) lows i
             (currentLowIndex st) (lastLow st)).
Proof.
  unfold updateActive.
  destruct (advance (length highs - _) highs i _ _) as [ch lh].
  destruct (advance (length lows - _) lows i _ _) as [cl ll].
  simpl. auto.
Qed.

Lemma breakStateAfter_cursors (candles : list OHLCV) (highs lows : list SwingPoint)
    (n : nat) :
  (currentHighIndex (breakStateAfter candles highs lows n) <= length highs)%nat
  /\ (currentLowIndex (breakStateAfter candles highs lows n) <= length lows)%nat.
Proof.
  induction n as [|n [IH1 IH2]]; [simpl; lia|].
  rewrite breakStateAfter_S.
  destruct (classify_cursors n (candles !!! n)
              (updateActive highs lows n (breakStateAfter candles highs lows n)))
    as [-> ->].
  destruct (updateActive_cursors highs lows n (breakStateAfter candles highs lows n))
    as [-> ->].
  split; apply advance_cursor_bound; assumption.
Qed.

Lemma updateActive_app (highs lows laterH laterL : list SwingPoint) (i : nat)
    (st : BreakState) :
  (forall s, In s laterH -> (i <= sp_index s)%nat) ->
  (forall s, In s laterL -> (i <= sp_index s)%nat) ->
  (currentHighIndex st <= length highs)%nat ->
  (currentLowIndex st <= length lows)%nat ->
  updateActive (highs ++ laterH) (lows ++ laterL) i st = updateActive highs lows i st.
Proof.
  intros HH HL Hch Hcl. unfold updateActive.
  rewrite (advance_app highs laterH i HH (length highs - currentHighIndex st))
    by (rewrite ?length_app; lia).
  rewrite (advance_app lows laterL i HL (length lows - currentLowIndex st))
    by (rewrite ?length_app; lia).
  reflexivity.
Qed.

Lemma breakStateAfter_app (candles ext : list OHLCV) (left right n : nat) :
  (n <= length candles - right)%nat ->
  breakStateAfter (candles ++ ext) (findSwingHighs (candles ++ ext) left right)
    (findSwingLows (candles ++ ext) left right) n
  = breakStateAfter candles (findSwingHighs candles left right)
      (findSwingLows candles left right) n.
Proof.
  destruct (findSwingHighs_app candles ext left right) as (laterH & -> & HH).
  destruct (findSwingLows_app candles ext left right) as (laterL & -> & HL).
  induction n as [|n IH]; intros Hn; [reflexivity|].
  rewrite !breakStateAfter_S, IH by lia.
  destruct (breakStateAfter_cursors candles (findSwingHighs candles left right)
              (findSwingLows candles left right) n) as [Hch Hcl].
  rewrite updateActive_app; auto.
  - rewrite (lookup_total_app_l candles ext n) by lia. reflexivity.
  - intros s Hs. apply HH in Hs. lia.
  - intros s Hs. apply HL in Hs. lia.
Qed.

Lemma breaks_grow (candles : list OHLCV) (highs lows : list SwingPoint) (n k : nat) :
  exists later,
    bs_breaks (breakStateAfter candles highs lows (n + k))
    = bs_breaks (breakStateAfter candles highs lows n) ++ later
    /\ forall b, In b later -> (n <= sb_index b)%nat.
Proof.
  induction k as [|k (later & E & Hlater)].
  - exists []. rewrite Nat.add_0_r, app_nil_r. split; [reflexivity|]. intros b [].
  - replace (n + S k)%nat with (S (n + k)) by lia. rewrite breakStateAfter_S.
    destruct (updateActive_fields highs lows (n + k)
                (breakStateAfter candles highs lows (n + k))) as (_ & _ & _ & EB).
    destruct (classify_cases (n + k) (candles !!! (n + k)%nat)
                (updateActive highs lows (n + k)
                   (breakStateAfter candles highs lows (n + k))))
      as [Ec|(b & Ec & Hidx & _)]; rewrite Ec, EB, E.
    + exists later. split; [reflexivity|exact Hlater].
    + exists (later ++ [b]). split; [now rewrite app_assoc|].
      intros x Hx. apply in_app_iff in Hx as [Hx|[<-|[]]]; [now apply Hlater|lia].
Qed.

(** X6: a break on a candle that has at least [right] later candles in the
    array is settled: it is emitted by the analysis of the array if and only
    if it is emitted by the analysis of any extension of the array. *)
Theorem breaks_settle_after_right_window (candles ext : list OHLCV) (left right : nat)
    (b : StructureBreak) :
  (sb_index b + right < length candles)%nat ->
  In b (findStructureBreaks (candles ++ ext) (findSwingHighs (candles ++ ext) left right)
          (findSwingLows (candles ++ ext) left right))
  <-> In b (findStructureBreaks candles (findSwingHighs candles left right)
              (findSwingLows candles left right)).
Proof.
  intros Hb. unfold findStructureBreaks.
  set (n := (length candles - right)%nat).
  destruct (breaks_grow (candles ++ ext) (findSwingHighs (candles ++ ext) left right)
              (findSwingLows (candles ++ ext) left right) n
              (length (candles ++ ext) - n)) as (later1 & E1 & H1).
  destruct (breaks_grow candles (findSwingHighs candles left right)
              (findSwingLows candles left right) n (length candles - n))
    as (later2 & E2 & H2).
  replace (n + (length (candles ++ ext) - n))%nat with (length (candles ++ ext)) in E1
    by (rewrite length_app; unfold n; lia).
  replace (n + (length candles - n))%nat with (length candles) in E2 by (unfold n; lia).
  rewrite E1, E2, (breakStateAfter_app candles ext left right n) by (unfold n; lia).
  rewrite !in_app_iff. split; intros [H|H]; auto.
  - apply H1 in H. unfold n in H. lia.
  - apply H2 in H. unfold n in H. lia.
Qed.

Lemma breaks_settle_after_right_window_witness :
  In (mkStructureBreak SWEEP BULLISH 8 20 8 false)
     (findStructureBreaks lookaheadCandles (findSwingHighs lookaheadCandles 2 2)
        (findSwingLows lookaheadCandles 2 2)).
Proof.
  assert (Hidx : (sb_index (mkStructureBreak SWEEP BULLISH 8 20 8 false) + 2
                  < length lookaheadCandles)%nat)
    by (vm_compute; lia).
  assert (Hin : In (mkStructureBreak SWEEP BULLISH 8 20 8 false)
                   (findStructureBreaks (lookaheadCandles ++ gapExtension)
                      (findSwingHighs (lookaheadCandles ++ gapExtension) 2 2)
                      (findSwingLows (lookaheadCandles ++ gapExtension) 2 2)))
    by (vm_compute; left; reflexivity).
  exact (proj1 (breaks_settle_after_right_window lookaheadCandles gapExtension 2 2 _ Hidx)
               Hin).
Defined.

(** * Further properties of position sizing *)

(** X7: the risk gate never fails silently.  [canOpen] holds exactly when no
    rule is listed in [failureReasons]; a rule is listed exactly when its
    check is false; the streak rule fails exactly from [maxConsecutiveLosses]
    consecutive losses on, the position-count rule from [maxOpenPositions]
    open positions on, and the capital rule when the risk exceeds 5% of the
    current balance. *)
Theorem risk_gate_names_every_failure (ps : PositionSizer) (riskAmount : Q) :
  let r := canOpenPosition ps riskAmount in
  (canOpen r = true <-> failureReasons r = [])
  /\ (forall name, In name (failureReasons r) <->
        (name = "belowMaxDailyLoss" /\ belowMaxDailyLoss (checks r) = false)
        \/ (name = "belowMaxMonthlyLoss" /\ belowMaxMonthlyLoss (checks r) = false)
        \/ (name = "belowMaxOpenPositions" /\ belowMaxOpenPositions (checks r) = false)
        \/ (name = "notTooManyConsecutiveLosses"
            /\ notTooManyConsecutiveLosses (checks r) = false)
        \/ (name = "sufficientCapital" /\ sufficientCapital (checks r) = false))
  /\ (notTooManyConsecutiveLosses (checks r) = false <->
        (maxConsecutiveLosses (config ps) <= consecutiveLosses ps)%nat)
  /\ (belowMaxOpenPositions (checks r) = false <->
        (maxOpenPositions (config ps) <= openPositionsCount ps)%nat)
  /\ (sufficientCapital (checks r) = false <->
        currentBalance ps * (5 # 100) < riskAmount).
Proof.
  intros r. subst r. unfold canOpenPosition. cbn [canOpen failureReasons checks
    belowMaxDailyLoss belowMaxMonthlyLoss belowMaxOpenPositions
    notTooManyConsecutiveLosses sufficientCapital].
  split; [|split; [|split; [|split]]].
  - destruct (Qle_bool (dailyLoss ps + riskAmount) _), (Qle_bool (monthlyLoss ps + riskAmount) _),
      (openPositionsCount ps <? _)%nat, (consecutiveLosses ps <? _)%nat,
      (Qle_bool riskAmount _); cbn; split; intros H; try reflexivity; discriminate.
  - intros name.
    destruct (Qle_bool (dailyLoss ps + riskAmount) _), (Qle_bool (monthlyLoss ps + riskAmount) _),
      (openPositionsCount ps <? _)%nat, (consecutiveLosses ps <? _)%nat,
      (Qle_bool riskAmount _); cbn; intuition (subst; auto; discriminate).
  - apply Nat.ltb_ge.
  - apply Nat.ltb_ge.
  - apply Qle_bool_gt.
Qed.

Lemma recordTrades_snoc (ps : PositionSizer) (ts : list TradeResult) (t : TradeResult) :
  recordTrades ps (ts ++ [t]) = recordTradeResult (recordTrades ps ts) t.
Proof. unfold recordTrades. now rewrite foldl_app. Qed.

Lemma totalProfitLoss_snoc (ts : list TradeResult) (t : TradeResult) :
  totalProfitLoss (ts ++ [t]) = totalProfitLoss ts + tr_profitLoss t.
Proof. unfold totalProfitLoss. now rewrite foldl_app. Qed.

(** X8: after any sequence of recorded trades the sizer's history holds
    exactly those trades in order, its balance is the starting balance plus
    their summed profit and loss, its daily and monthly loss counters are
    equal and never negative (nothing ever resets them), and
    [consecutiveLosses] is the length of the run of losing trades that ends
    the sequence. *)
Theorem recorded_trades_are_accounted (cfg : PositionSizingConfig) (ts : list TradeResult) :
  let ps := recordTrades (newPositionSizer cfg) ts in
  tradeHistory ps = ts
  /\ currentBalance ps == accountBalance cfg + totalProfitLoss ts
  /\ dailyLoss ps = monthlyLoss ps
  /\ 0 <= dailyLoss ps
  /\ exists before streak,
       ts = before ++ streak
       /\ length streak = consecutiveLosses ps
       /\ (forall t, In t streak -> isLoss t = true)
       /\ (forall t, last before = Some t -> isLoss t = false).
Proof.
  induction ts as [|t ts IH] using rev_ind.
  - cbn. split; [reflexivity|]. split; [lra|]. split; [reflexivity|]. split; [lra|].
    exists (@nil TradeResult), (@nil TradeResult).
    split; [reflexivity|]. split; [reflexivity|].
    split; intros t H; [destruct H | discriminate].
  - cbv zeta in *. rewrite recordTrades_snoc, totalProfitLoss_snoc.
    destruct IH as (Hh & Hb & Hd & Hpos & before & streak & Hts & Hlen & Hlosses & Hlast).
    set (ps := recordTrades (newPositionSizer cfg) ts) in *.
    unfold recordTradeResult, recordTrade.
    cbn [tradeHistory currentBalance dailyLoss monthlyLoss consecutiveLosses].
    split; [|split; [|split; [|split]]].
    + rewrite Hh. destruct t; reflexivity.
    + rewrite Hb. lra.
    + rewrite Hd. reflexivity.
    + destruct (Qltb (tr_profitLoss t) 0); [|exact Hpos].
      pose proof (Qabs_nonneg (tr_profitLoss t)). lra.
    + destruct (Qltb (tr_profitLoss t) 0) eqn:El.
      * exists before, (streak ++ [t]). split; [|split; [|split]].
        -- rewrite Hts. now rewrite app_assoc.
        -- rewrite length_app. simpl. lia.
        -- intros x Hx. apply in_app_iff in Hx as [Hx|[<-|[]]]; [now apply Hlosses|exact El].
        -- exact Hlast.
      * exists (ts ++ [t]), (@nil TradeResult). split; [|split; [|split]].
        -- now rewrite app_nil_r.
        -- reflexivity.
        -- intros x [].
        -- intros x Hx. rewrite last_snoc in Hx. injection Hx as <-. exact El.
Qed.

(** * Further properties of the account manager *)

(** X9: what [AccountManager.calculatePositionSize] returns for a positive
    entry price and a non-negative risk budget (capital * riskPerTrade).  The
    risk amount is the returned share count times the stop distance, the
    share count is a whole number of hundredths, a stop equal to the entry
    gives zero shares and zero risk, and the risk amount does not exceed the
    budget by more than one part in a billion (in exact arithmetic it does not
    exceed it at all; the margin is room for the rounding of the
    floating-point operations). *)
Theorem calculatePositionSize_risk_within_budget (am : AccountManager) (entry stop : Q) :
  0 < entry ->
  0 <= as_capital (am_state am) * am_riskPerTrade (am_config am) ->
  let r := calculatePositionSize am entry stop in
  ps_riskAmount r == shares r * Qabs (entry - stop)
  /\ (exists z : Z, shares r == inject_Z z / 100)
  /\ (entry == stop -> shares r == 0 /\ ps_riskAmount r == 0)
  /\ ps_riskAmount r
     <= as_capital (am_state am) * am_riskPerTrade (am_config am) * (1 + (1 # 1000000000)).
Proof.
  intros Hentry Hbudget. cbv zeta.
  lazy beta iota zeta delta [calculatePositionSize].
  set (rps := Qabs (entry - stop)).
  set (budget := as_capital (am_state am) * am_riskPerTrade (am_config am)) in *.
  assert (Hslack : budget <= budget * (1 + (1 # 1000000000))) by lra.
  destruct (Qeq_bool rps 0) eqn:Ezero.
  - cbn [shares ps_riskAmount]. split; [lra|].
    split; [exists 0%Z; reflexivity|]. split; [intros _; split; reflexivity|]. lra.
  - apply Qeq_bool_false in Ezero.
    assert (Hrps : 0 < rps).
    { subst rps. apply Qabs_pos_iff. intros E. apply Ezero. rewrite E. reflexivity. }
    cbn [shares ps_riskAmount].
    set (shares1 := if Qltb _ _ then _ else _).
    assert (Hle : shares1 <= budget / rps).
    { subst shares1. destruct (Qltb _ _) eqn:Ecap; [|apply Qle_refl].
      apply Qltb_lt in Ecap. apply Qle_shift_div_r; [exact Hentry|].
      apply Qlt_le_weak. exact Ecap. }
    split; [reflexivity|]. split; [exists (Qfloor (shares1 * 100)); reflexivity|]. split.
    + intros E. exfalso. apply Ezero.
      apply Qabs_case; intros; lra.
    + apply Qle_trans with budget; [|exact Hslack].
      apply Qle_trans with (shares1 * rps).
      * apply Qmult_le_compat_r; [apply floor2_le | lra].
      * apply Qle_trans with (budget / rps * rps).
        -- apply Qmult_le_compat_r; [exact Hle | lra].
        -- apply Qle_lteq. right. field. lra.
Qed.

Lemma calculatePositionSize_risk_within_budget_witness :
  ps_riskAmount
    (calculatePositionSize
       (newAccountManager (mkAccountManagerConfig 10000 (1 # 1000) (5 # 10000) (2 # 100)
                             (5 # 100) 5 10)) 100 97)
  <= 10000 * (2 # 100) * (1 + (1 # 1000000000)).
Proof.
  refine (proj2 (proj2 (proj2 (calculatePositionSize_risk_within_budget
                   (newAccountManager (mkAccountManagerConfig 10000 (1 # 1000) (5 # 10000)
                                         (2 # 100) (5 # 100) 5 10)) 100 97 _ _)))).
  - reflexivity.
  - vm_compute. discriminate.
Defined.

Lemma applyPnls_snoc (am : AccountManager) (pnls : list Q) (p : Q) :
  applyPnls am (pnls ++ [p]) = updateOnTradeEnd (applyPnls am pnls) p.
Proof. unfold applyPnls. now rewrite foldl_app. Qed.

Lemma sumQ_snoc (xs : list Q) (p : Q) : sumQ (xs ++ [p]) = sumQ xs + p.
Proof. unfold sumQ. now rewrite foldl_app. Qed.

(** X10: after any sequence of closed trades reported to a fresh account
    manager, capital is the initial capital plus the summed results, the
    equity peak is at least the capital and at least the initial capital,
    the recorded maximum drawdown is non-negative and at least the current
    distance from the peak, and the winning and losing streaks are never both
    positive. *)
Theorem account_state_invariants (cfg : AccountManagerConfig) (pnls : list Q) :
  let s := am_state (applyPnls (newAccountManager cfg) pnls) in
  as_capital s == am_initialCapital cfg + sumQ pnls
  /\ as_todayPNL s == sumQ pnls
  /\ as_capital s <= as_maxEquity s
  /\ am_initialCapital cfg <= as_maxEquity s
  /\ 0 <= as_maxDrawdown s
  /\ as_maxEquity s - as_capital s <= as_maxDrawdown s
  /\ (as_winningStreak s = 0%nat \/ as_losingStreak s = 0%nat).
Proof.
  induction pnls as [|p pnls IH] using rev_ind.
  - cbn. repeat split; try lra. now left.
  - cbv zeta in *. rewrite applyPnls_snoc, sumQ_snoc.
    destruct IH as (Hc & Ht & Hm & Hi & Hd & Hdd & _).
    set (s := am_state (applyPnls (newAccountManager cfg) pnls)) in *.
    unfold updateOnTradeEnd.
    cbn [am_state as_capital as_todayPNL as_maxEquity as_maxDrawdown as_winningStreak
         as_losingStreak].
    fold s.
    destruct (Qltb (as_maxEquity s) (as_capital s + p)) eqn:Epeak;
      [apply Qltb_lt in Epeak | apply Qltb_ge in Epeak];
      (destruct (Qltb (as_maxDrawdown s) _) eqn:Edd;
       [apply Qltb_lt in Edd | apply Qltb_ge in Edd]);
      (split; [lra|]; split; [lra|]; split; [lra|]; split; [lra|]; split; [lra|];
       split; [lra|]);
      destruct (Qltb 0 p); auto.
Qed.

(** X11: whenever the last three closed trades each made no profit (a
    break-even trade counts as a loss), [isRevengeTrading] raises its status,
    whatever the account and its earlier trades were. *)
Theorem three_losses_lock_trading (am : AccountManager) (earlier : list Q) (p1 p2 p3 : Q) :
  p1 <= 0 -> p2 <= 0 -> p3 <= 0 ->
  rc_status (isRevengeTrading (applyPnls am (earlier ++ [p1; p2; p3]))) = true.
Proof.
  intros H1 H2 H3.
  replace (earlier ++ [p1; p2; p3]) with (((earlier ++ [p1]) ++ [p2]) ++ [p3])
    by (now rewrite <- !app_assoc).
  rewrite !applyPnls_snoc.
  set (a := applyPnls am earlier).
  unfold isRevengeTrading.
  destruct (_ <=? _)%nat; [reflexivity|].
  assert (E : (3 <=? as_losingStreak
                       (am_state (updateOnTradeEnd (updateOnTradeEnd (updateOnTradeEnd a p1) p2)
                                    p3)))%nat = true).
  { apply Nat.leb_le. unfold updateOnTradeEnd.
    cbn [am_state as_losingStreak].
    apply Qltb_ge in H1, H2, H3. rewrite H1, H2, H3. lia. }
  rewrite E. reflexivity.
Qed.

Lemma three_losses_lock_trading_witness :
  rc_status
    (isRevengeTrading
       (applyPnls (newAccountManager (mkAccountManagerConfig 10000 (1 # 1000) (5 # 10000)
                                        (2 # 100) (5 # 100) 5 10))
          ([50] ++ [- (10); 0; - (5)]))) = true.
Proof.
  apply (three_losses_lock_trading
           (newAccountManager (mkAccountManagerConfig 10000 (1 # 1000) (5 # 10000)
                                 (2 # 100) (5 # 100) 5 10)) [50] (- (10)) 0 (- (5)));
    vm_compute; discriminate.
Defined.
Lemma pow10_pos (d : nat) : 0 < pow10 d.
Proof.
  unfold pow10. change 0 with (inject_Z 0). rewrite <- Zlt_Qlt.
  apply Z.pow_pos_nonneg; lia.
Qed.

Lemma Qdiv_le_compat_r (a b p : Q) : 0 < p -> a <= b -> a / p <= b / p.
Proof.
  intros Hp Hab. unfold Qdiv. apply Qmult_le_compat_r; [exact Hab|].
  apply Qlt_le_weak, Qinv_lt_0_compat, Hp.
Qed.

Lemma roundedUnits_mono (d : nat) (x y : Q) :
  x <= y ->
  inject_Z (Qfloor (x * pow10 d + (1 # 2))) / pow10 d
  <= inject_Z (Qfloor (y * pow10 d + (1 # 2))) / pow10 d.
Proof.
  intros H. pose proof (pow10_pos d) as Hp.
  apply Qdiv_le_compat_r; [exact Hp|]. rewrite <- Zle_Qle. apply Qfloor_resp_le.
  apply Qplus_le_l. apply Qmult_le_compat_r; [exact H | lra].
Qed.

Lemma roundedUnits_nonneg (d : nat) (x : Q) :
  0 <= x -> 0 <= inject_Z (Qfloor (x * pow10 d + (1 # 2))) / pow10 d.
Proof.
  intros H. pose proof (pow10_pos d) as Hp.
  apply Qle_shift_div_l; [exact Hp|]. rewrite Qmult_0_l.
  change 0 with (inject_Z 0). rewrite <- Zle_Qle.
  change 0%Z with (Qfloor 0). apply Qfloor_resp_le.
  assert (0 <= x * pow10 d) by (apply Qmult_le_0_compat; lra). lra.
Qed.

Lemma toFixed_mono (d : nat) (x y : Q) : x <= y -> toFixed d x <= toFixed d y.
Proof.
  intros H. unfold toFixed.
  destruct (Qle_bool 0 x) eqn:Ex, (Qle_bool 0 y) eqn:Ey.
  - now apply roundedUnits_mono.
  - apply Qle_bool_iff in Ex. apply Qle_bool_gt in Ey. lra.
  - apply Qle_bool_gt in Ex. apply Qle_bool_iff in Ey.
    pose proof (roundedUnits_nonneg d (- x) ltac:(lra)).
    pose proof (roundedUnits_nonneg d y Ey). lra.
  - apply Qopp_le_compat. apply roundedUnits_mono. lra.
Qed.

Lemma Qfloor_half (n : Z) : Qfloor (inject_Z n + (1 # 2)) = n.
Proof.
  pose proof (Qfloor_le (inject_Z n + (1 # 2))) as Hlo.
  pose proof (Qlt_floor (inject_Z n + (1 # 2))) as Hhi.
  set (f := Qfloor (inject_Z n + (1 # 2))) in *.
  rewrite inject_Z_plus in Hhi. change (inject_Z 1) with 1 in Hhi.
  assert (H1 : inject_Z f < inject_Z (n + 1)).
  { rewrite inject_Z_plus. change (inject_Z 1) with 1. lra. }
  assert (H2 : inject_Z n < inject_Z (f + 1)).
  { rewrite inject_Z_plus. change (inject_Z 1) with 1. lra. }
  rewrite <- Zlt_Qlt in H1, H2. lia.
Qed.

Lemma roundedUnits_fixed (d : nat) (n : Z) :
  inject_Z (Qfloor (inject_Z n / pow10 d * pow10 d + (1 # 2))) / pow10 d
  == inject_Z n / pow10 d.
Proof.
  pose proof (pow10_pos d) as Hp.
  assert (E : inject_Z n / pow10 d * pow10 d + (1 # 2) == inject_Z n + (1 # 2))
    by (field; lra).
  rewrite E, Qfloor_half. reflexivity.
Qed.

Lemma toFixed_idempotent (d : nat) (x : Q) : toFixed d (toFixed d x) == toFixed d x.
Proof.
  pose proof (pow10_pos d) as Hp.
  destruct (Qle_bool 0 x) eqn:Ex.
  - assert (E : toFixed d x = inject_Z (Qfloor (x * pow10 d + (1 # 2))) / pow10 d)
      by (unfold toFixed; now rewrite Ex).
    rewrite E. apply Qle_bool_iff in Ex. pose proof (roundedUnits_nonneg d x Ex) as Hn.
    unfold toFixed. apply Qle_bool_iff in Hn. rewrite Hn. apply roundedUnits_fixed.
  - assert (E : toFixed d x = - (inject_Z (Qfloor (- x * pow10 d + (1 # 2))) / pow10 d))
      by (unfold toFixed; now rewrite Ex).
    rewrite E. apply Qle_bool_gt in Ex.
    pose proof (roundedUnits_nonneg d (- x) ltac:(lra)) as Hn.
    set (m := Qfloor (- x * pow10 d + (1 # 2))) in *.
    unfold toFixed. destruct (Qle_bool 0 (- (inject_Z m / pow10 d))) eqn:Es.
    + apply Qle_bool_iff in Es.
      assert (Ez : inject_Z m / pow10 d == 0) by lra.
      assert (E0 : - (inject_Z m / pow10 d) * pow10 d + (1 # 2) == inject_Z 0 + (1 # 2)).
      { rewrite Ez. change (inject_Z 0) with 0. ring. }
      rewrite E0, Qfloor_half. change (inject_Z 0) with 0. rewrite Ez. field. lra.
    + assert (E1 : - - (inject_Z m / pow10 d) * pow10 d + (1 # 2) == inject_Z m + (1 # 2))
        by (field; lra).
      rewrite E1, Qfloor_half. reflexivity.
Qed.

Lemma Qmult_le_nonneg_l (z x y : Q) : 0 <= z -> x <= y -> z * x <= z * y.
Proof.
  intros Hz H. rewrite (Qmult_comm z x), (Qmult_comm z y).
  now apply Qmult_le_compat_r.
Qed.

Lemma clampRisk_bounds (ps : PositionSizer) (pct : Q) :
  minRiskPercentage (config ps) <= maxRiskPercentage (config ps) ->
  minRiskPercentage (config ps) <= clampRisk ps pct
  /\ clampRisk ps pct <= maxRiskPercentage (config ps).
Proof.
  intros H. unfold clampRisk. split.
  - apply Q.min_glb; [apply Q.le_max_r | exact H].
  - apply Q.le_min_r.
Qed.

Lemma clamped_risk_amount (ps : PositionSizer) (pct : Q) :
  0 <= currentBalance ps ->
  minRiskPercentage (config ps) <= maxRiskPercentage (config ps) ->
  toFixed 2 (currentBalance ps * (minRiskPercentage (config ps) / 100))
  <= toFixed 2 (currentBalance ps * (clampRisk ps pct / 100))
  /\ toFixed 2 (currentBalance ps * (clampRisk ps pct / 100))
     <= toFixed 2 (currentBalance ps * (maxRiskPercentage (config ps) / 100)).
Proof.
  intros Hb Hcfg. destruct (clampRisk_bounds ps pct Hcfg) as [Hlo Hhi].
  split; apply toFixed_mono; (apply Qmult_le_nonneg_l; [exact Hb|]);
    apply Qdiv_le_compat_r; try reflexivity; assumption.
Qed.

Lemma gradeMultiplier_throws_iff (grade : string) :
  gradeMultiplier grade = None <-> In grade objectPrototypeMembers.
Proof.
  split.
  - unfold gradeMultiplier.
    repeat (destruct (String.eqb grade _); [discriminate|]).
    destruct (existsb (String.eqb grade) objectPrototypeMembers) eqn:E; [|discriminate].
    intros _. apply existsb_exists in E as (x & Hx & Ex).
    apply String.eqb_eq in Ex. now subst x.
  - intros Hin. cbn in Hin.
    repeat (destruct Hin as [<-|Hin]; [reflexivity|]). destruct Hin.
Qed.

(** X12: with a non-negative balance and minRiskPercentage <=
    maxRiskPercentage, the risk amount of the confidence-graded, the
    momentum-based and the volatility-adjusted method lies between the
    rounded minimum-risk and maximum-risk amounts of the balance, for every
    score and volatility and for every grade for which the confidence-graded
    method returns; that method throws a TypeError exactly for the grades that
    name a member inherited from Object.prototype (such as toString), and
    then [intelligentSizing] throws as well.  The Kelly risk amount (for a
    stop different from the entry) never exceeds the rounded maximum, and the
    risk amount recommended by [intelligentSizing] is the confidence-graded
    one, hence within the same limits. *)
Theorem risk_amount_stays_within_limits (ps : PositionSizer) (entry stop : Q) :
  0 <= currentBalance ps ->
  minRiskPercentage (config ps) <= maxRiskPercentage (config ps) ->
  let lo := toFixed 2 (currentBalance ps * (minRiskPercentage (config ps) / 100)) in
  let hi := toFixed 2 (currentBalance ps * (maxRiskPercentage (config ps) / 100)) in
  (forall grade score,
      match confidenceGradedSizing ps entry stop grade score with
      | Returned r => ~ In grade objectPrototypeMembers /\ lo <= m_riskAmount r <= hi
      | Thrown _ => In grade objectPrototypeMembers
      end)
  /\ (forall score, lo <= m_riskAmount (momentumBasedSizing ps entry stop score) <= hi)
  /\ (forall atr averageAtr r,
         volatilityAdjustedSizing ps entry stop atr averageAtr = Some r ->
         lo <= m_riskAmount r <= hi)
  /\ (forall takeProfit winProbability r,
         ~ entry == stop ->
         kellyCriterionWithPrice ps entry stop takeProfit winProbability = Some r ->
         m_riskAmount r <= hi)
  /\ (forall params,
         match intelligentSizing ps params with
         | Thrown _ => In (default "B" (tradeGrade params)) objectPrototypeMembers
         | Returned None => ~ In (default "B" (tradeGrade params)) objectPrototypeMembers
         | Returned (Some r) =>
             exists c,
               confidenceGradedSizing ps (entryPrice params) (stopLossPrice params)
                 (default "B" (tradeGrade params))
                 (default (1 # 2) (confidenceScore params)) = Returned c
               /\ rec_riskAmount (recommendation r) == m_riskAmount c
               /\ lo <= rec_riskAmount (recommendation r) <= hi
         end).
Proof.
  intros Hb Hcfg lo hi. subst lo hi.
  assert (Hconf : forall e s grade score,
             match confidenceGradedSizing ps e s grade score with
             | Returned r =>
                 ~ In grade objectPrototypeMembers
                 /\ toFixed 2 (currentBalance ps * (minRiskPercentage (config ps) / 100))
                    <= m_riskAmount r
                    <= toFixed 2 (currentBalance ps * (maxRiskPercentage (config ps) / 100))
             | Thrown _ => In grade objectPrototypeMembers
             end).
  { intros e s grade score. unfold confidenceGradedSizing.
    destruct (gradeMultiplier grade) as [m|] eqn:Eg.
    - cbn [m_riskAmount]. split; [|now apply clamped_risk_amount].
      intros Hin. apply gradeMultiplier_throws_iff in Hin. congruence.
    - now apply gradeMultiplier_throws_iff. }
  split; [|split; [|split; [|split]]].
  - intros grade score. apply Hconf.
  - intros score. unfold momentumBasedSizing. cbn [m_riskAmount].
    now apply clamped_risk_amount.
  - intros atr averageAtr r. unfold volatilityAdjustedSizing.
    destruct (_ || _); [discriminate|]. intros E. injection E as <-. cbn [m_riskAmount].
    now apply clamped_risk_amount.
  - intros takeProfit winProbability r _. unfold kellyCriterionWithPrice, kellyCriterion.
    destruct (_ || _); [discriminate|]. destruct (Qle_bool _ 0); [discriminate|].
    intros E. injection E as <-. cbn [m_riskAmount].
    apply toFixed_mono. apply Qmult_le_nonneg_l; [exact Hb|]. apply Q.le_min_r.
  - intros params. unfold intelligentSizing, confidenceGradedSizing.
    destruct (gradeMultiplier (default "B" (tradeGrade params))) as [m|] eqn:Eg;
      [|now apply gradeMultiplier_throws_iff].
    assert (Hgrade : ~ In (default "B" (tradeGrade params)) objectPrototypeMembers).
    { intros Hin. apply gradeMultiplier_throws_iff in Hin. congruence. }
    destruct (Qeq_bool _ 0); [exact Hgrade|].
    eexists. split; [reflexivity|]. cbn [recommendation rec_riskAmount m_riskAmount].
    split; [apply toFixed_idempotent|].
    rewrite toFixed_idempotent. now apply clamped_risk_amount.
Qed.

Lemma risk_amount_stays_within_limits_witness :
  match confidenceGradedSizing (newPositionSizer (sizingConfig 25000 1)) 100 95 "A+" 1 with
  | Returned r => toFixed 2 (25000 * ((1 # 4) / 100)) <= m_riskAmount r
                  <= toFixed 2 (25000 * (3 / 100))
  | Thrown _ => False
  end
  /\ confidenceGradedSizing (newPositionSizer (sizingConfig 25000 1)) 100 95 "toString" 1
     = Thrown TypeError.
Proof.
  pose proof (risk_amount_stays_within_limits (newPositionSizer (sizingConfig 25000 1)) 100 95)
    as H.
  assert (H1 : 0 <= currentBalance (newPositionSizer (sizingConfig 25000 1)))
    by (vm_compute; discriminate).
  assert (H2 : minRiskPercentage (config (newPositionSizer (sizingConfig 25000 1)))
               <= maxRiskPercentage (config (newPositionSizer (sizingConfig 25000 1))))
    by (vm_compute; discriminate).
  specialize (H H1 H2). cbv zeta in H. destruct H as [Hc _]. split.
  - specialize (Hc "A+"%string 1).
    destruct (confidenceGradedSizing (newPositionSizer (sizingConfig 25000 1)) 100 95 "A+" 1)
      as [r|err] eqn:E.
    + exact (proj2 Hc).
    + vm_compute in E. discriminate E.
  - specialize (Hc "toString"%string 1).
    destruct (confidenceGradedSizing (newPositionSizer (sizingConfig 25000 1)) 100 95
                "toString" 1) as [r|err] eqn:E.
    + vm_compute in E. discriminate E.
    + destruct err. reflexivity.
Defined.

(** * The backtest run as a whole *)

Lemma sumNetPL_snoc (ts : list BacktestTrade) (t : BacktestTrade) :
  sumNetPL (ts ++ [t]) = sumNetPL ts + bt_netPL t.
Proof. unfold sumNetPL. now rewrite foldl_app. Qed.

Lemma executeSellSignal_inv (e0 e : BacktestEngine) (coin : string) (candle : OHLCV)
    (a : Action) (r : option string) :
  EngineInv e0 coin e -> EngineInv e0 coin (executeSellSignal e coin candle a r).
Proof.
  intros Hinv. unfold executeSellSignal.
  destruct (positions e !! coin) as [p|]; [|exact Hinv].
  destruct Hinv as (Hk & Hi & Hc & Hs & Hcap & Hbal & Heq & Hlen).
  unfold EngineInv, recordTrade.
  cbn [positions initialCapital commission slippage capital positionSizer trades equity
       currentBalance tradeHistory].
  rewrite sumNetPL_snoc. cbn [bt_netPL]. rewrite map_app, Hlen. cbn [map].
  repeat split; try assumption; try lra.
  intros k q Hq. apply lookup_delete_Some in Hq as [_ Hq]. now apply (Hk k q).
Qed.

Lemma executeSellSignal_closes (e : BacktestEngine) (coin : string) (candle : OHLCV)
    (a : Action) (r : option string) :
  positions (executeSellSignal e coin candle a r) !! coin = None.
Proof.
  unfold executeSellSignal. destruct (positions e !! coin) as [p|] eqn:E; [|exact E].
  cbn [positions]. apply lookup_delete_eq.
Qed.

Lemma setPositions_inv (e0 e : BacktestEngine) (coin : string) (p : BacktestPosition) :
  EngineInv e0 coin e -> EngineInv e0 coin (setPositions e (<[coin := p]> (positions e))).
Proof.
  intros (Hk & Hrest). split; [|exact Hrest].
  intros k q Hq. cbn [setPositions positions] in Hq.
  apply lookup_insert_Some in Hq as [[<- _]|[_ Hq]]; [reflexivity | now apply (Hk k q)].
Qed.

Lemma checkStop_inv (e0 e : BacktestEngine) (coin : string) (candle : OHLCV)
    (p : BacktestPosition) :
  EngineInv e0 coin e -> EngineInv e0 coin (checkStop candle e (coin, p)).
Proof.
  intros Hinv. unfold checkStop.
  destruct (bp_type p); repeat (destruct (Qle_bool _ _));
    auto using executeSellSignal_inv, setPositions_inv.
Qed.

Lemma checkStop_fold_inv (e0 : BacktestEngine) (coin : string) (candle : OHLCV)
    (l : list (string * BacktestPosition)) :
  (forall x, In x l -> fst x = coin) ->
  forall s, EngineInv e0 coin s -> EngineInv e0 coin (foldl (checkStop candle) s l).
Proof.
  induction l as [|[k p] l IH]; intros Hkeys s Hs; [exact Hs|].
  cbn [foldl]. apply IH.
  - intros x Hx. apply Hkeys. now right.
  - assert (Ek : k = coin) by (apply (Hkeys (k, p)); now left). subst k.
    now apply checkStop_inv.
Qed.

Lemma checkStops_inv (e0 e : BacktestEngine) (coin : string) (candle : OHLCV) :
  EngineInv e0 coin e -> EngineInv e0 coin (checkStops e candle).
Proof.
  intros Hinv. unfold checkStops. apply checkStop_fold_inv; [|exact Hinv].
  intros [k p] Hx. apply list_elem_of_In, elem_of_map_to_list in Hx.
  destruct Hinv as (Hk & _). exact (Hk k p Hx).
Qed.

Lemma updateEquityHistory_inv (e0 e : BacktestEngine) (coin : string) (candle : OHLCV) :
  EngineInv e0 coin e -> EngineInv e0 coin (updateEquityHistory e candle).
Proof. intros H. exact H. Qed.

Lemma tryOpen_inv (e0 e e' : BacktestEngine) (coin : string) (candle : OHLCV)
    (signal : TradeSignal) (sizing : SizingResult) :
  0 <= commission e0 -> 0 <= price signal ->
  EngineInv e0 coin e ->
  tryOpen e coin candle signal = Opened e' sizing ->
  EngineInv e0 coin e'.
Proof.
  intros Hcom Hprice (Hk & Hi & Hc & Hs & Hcap & Hbal & Heq & Hlen). unfold tryOpen.
  destruct (intelligentSizing _ _) as [[sz|]|err]; [|discriminate|discriminate].
  destruct (Qle_bool (rec_quantity (recommendation sz)) 0) eqn:Esize; [discriminate|].
  destruct (Qltb (equity e) _) eqn:Efee; [discriminate|].
  intros E. injection E as <- <-.
  apply Qle_bool_gt in Esize.
  unfold EngineInv.
  cbn [positions initialCapital commission slippage capital positionSizer trades equity].
  assert (Hfee : 0 <= rec_quantity (recommendation sz) * price signal * commission e).
  { rewrite Hc. apply Qmult_le_0_compat; [apply Qmult_le_0_compat|]; lra. }
  repeat split; try assumption; try lra.
  intros k q Hq.
  apply lookup_insert_Some in Hq as [[<- _]|[_ Hq]]; [reflexivity | now apply (Hk k q)].
Qed.

Lemma tryBlock_inv (e0 e e' : BacktestEngine) (coin : string) (candle : OHLCV)
    (evaluated : Outcome TradeSignal) :
  0 <= commission e0 ->
  (forall s, evaluated = Returned s -> 0 <= price s) ->
  EngineInv e0 coin e ->
  tryBlock e coin candle evaluated = Some e' ->
  EngineInv e0 coin e'.
Proof.
  intros Hcom Hprice Hinv. unfold tryBlock.
  destruct evaluated as [signal|err]; [|intros E; injection E as <-; exact Hinv].
  specialize (Hprice signal eq_refl).
  destruct (positions e !! coin) as [position|].
  - intros E. injection E as <-. apply updateEquityHistory_inv.
    destruct (bp_type position), (action signal);
      auto using executeSellSignal_inv.
  - destruct (action signal) eqn:Ea.
    + destruct (tryOpen e coin candle signal) as [e1 sz|msg| |] eqn:Eo; intros E;
        try discriminate; injection E as <-; [|exact Hinv|exact Hinv].
      apply updateEquityHistory_inv. exact (tryOpen_inv _ _ _ _ _ _ _ Hcom Hprice Hinv Eo).
    + destruct (tryOpen e coin candle signal) as [e1 sz|msg| |] eqn:Eo; intros E;
        try discriminate; injection E as <-; [|exact Hinv|exact Hinv].
      apply updateEquityHistory_inv. exact (tryOpen_inv _ _ _ _ _ _ _ Hcom Hprice Hinv Eo).
    + intros E. injection E as <-. now apply updateEquityHistory_inv.
Qed.

Lemma resetEngine_inv (e : BacktestEngine) (coin : string) :
  EngineInv e coin (resetEngine e).
Proof.
  unfold EngineInv, resetEngine, newPositionSizer, sizingConfig.
  cbn. repeat split; try reflexivity; try lra.
  intros k p Hk. rewrite lookup_empty in Hk. discriminate.
Qed.

Lemma candle_loop_inv (evaluate : list OHLCV -> string -> Outcome TradeSignal)
    (e e' : BacktestEngine) (coin : string) (candles : list OHLCV) (n : nat) :
  0 <= commission e ->
  (forall cs c s, evaluate cs c = Returned s -> 0 <= price s) ->
  for_loop n 50 (candleStep evaluate coin candles) (Some (resetEngine e)) = Some e' ->
  EngineInv e coin e'.
Proof.
  intros Hcom Hprice. revert e'. induction n as [|n IH]; intros e'.
  - cbn. intros E. injection E as <-. apply resetEngine_inv.
  - rewrite for_loop_snoc.
    destruct (for_loop n 50 (candleStep evaluate coin candles) (Some (resetEngine e)))
      as [e1|]; [|discriminate].
    cbn [candleStep]. intros E.
    refine (tryBlock_inv _ _ _ _ _ _ Hcom _ _ E).
    + intros s Hs. exact (Hprice _ _ _ Hs).
    + apply checkStops_inv. now apply IH.
Qed.

(** X13: when a backtest of one coin returns (the sizing stayed finite), with
    a non-negative commission and non-negative signal prices, no position is
    left open, [capital] still equals the initial capital (only [equity] is
    ever updated), the position sizer has recorded exactly the closed trades,
    entry by entry (entry price, exit price, quantity, net result and side of
    each trade, in the order of the trade list), its balance is the initial
    capital plus their summed net result, and the engine's equity is at most
    that (entry fees are charged to the equity but to no trade). *)
Theorem backtest_settles_and_accounts
    (evaluate : list OHLCV -> string -> Outcome TradeSignal)
    (e e' : BacktestEngine) (coin : string) (candles : list OHLCV) :
  0 <= commission e ->
  (forall cs c s, evaluate cs c = Returned s -> 0 <= price s) ->
  simulate evaluate e coin candles = Some e' ->
  positions e' = ∅
  /\ capital e' = initialCapital e
  /\ tradeHistory (positionSizer e') = map tradeResultOf (trades e')
  /\ currentBalance (positionSizer e') == initialCapital e + sumNetPL (trades e')
  /\ equity e' <= initialCapital e + sumNetPL (trades e').
Proof.
  intros Hcom Hprice. unfold simulate.
  destruct (for_loop _ 50 _ _) as [e1|] eqn:Eloop; [|discriminate].
  intros E. injection E as <-.
  pose proof (candle_loop_inv _ _ _ _ _ _ Hcom Hprice Eloop) as Hinv.
  set (final := match positions e1 !! coin with Some _ => _ | None => e1 end).
  assert (Hfinal : EngineInv e coin final /\ positions final !! coin = None).
  { subst final. destruct (positions e1 !! coin) eqn:Ep.
    - split; [now apply executeSellSignal_inv | apply executeSellSignal_closes].
    - split; assumption. }
  destruct Hfinal as [(Hk & Hi & Hc & Hs & Hcap & Hbal & Heq & Hlen) Hnone].
  repeat split; try assumption; try lra.
  apply map_empty. intros k. destruct (positions final !! k) as [p|] eqn:Ek; [|reflexivity].
  rewrite (Hk k p Ek) in Ek. congruence.
Qed.

Lemma backtest_settles_and_accounts_witness :
  exists e', simulate buyAtHundred defaultEngine "BTCUSD" dippingCandles = Some e'
             /\ positions e' = ∅
             /\ tradeHistory (positionSizer e') = map tradeResultOf (trades e')
             /\ (0 < length (trades e'))%nat.
Proof.
  destruct (simulate buyAtHundred defaultEngine "BTCUSD" dippingCandles) as [e'|] eqn:E.
  - exists e'. split; [reflexivity|].
    assert (H : positions e' = ∅
                /\ tradeHistory (positionSizer e') = map tradeResultOf (trades e')).
    { refine ((fun H => conj (proj1 H) (proj1 (proj2 (proj2 H))))
                (backtest_settles_and_accounts buyAtHundred defaultEngine e' "BTCUSD"
                   dippingCandles _ _ E)).
      + vm_compute. discriminate.
      + intros cs c s Hs. injection Hs as <-. vm_compute. discriminate. }
    split; [exact (proj1 H)|]. split; [exact (proj2 H)|].
    clear H. vm_compute in E. injection E as <-. vm_compute. lia.
  - vm_compute in E. discriminate.
Defined.

(** * Stops, targets and trailing *)

Lemma executeSellSignal_closedAs (e : BacktestEngine) (coin : string) (candle : OHLCV)
    (a : Action) (reason : string) (p : BacktestPosition) :
  positions e !! coin = Some p ->
  closedAs e (executeSellSignal e coin candle a (Some reason)) coin p reason
    ((if String.eqb reason "TAKE_PROFIT" then bp_takeProfit p
      else if String.eqb reason "STOP_LOSS" then bp_stopLoss p
      else close candle)
     * match bp_type p with LONG => 1 - slippage e | SHORT => 1 + slippage e end).
Proof.
  intros Hp. unfold closedAs, executeSellSignal. rewrite Hp.
  cbn [positions trades equity]. split; [apply lookup_delete_eq|].
  eexists. split; [reflexivity|]. cbn [bt_reason bt_exitPrice bt_quantity bt_netPL default].
  split; [reflexivity|]. split; [destruct (bp_type p); reflexivity|].
  split; [reflexivity|]. reflexivity.
Qed.

(** X14: how [checkStops] treats one open position on a candle.  The stop is
    checked before the target, so a candle that touches both closes the
    position as STOP_LOSS; the exit is booked at the stop or target price
    itself (less slippage), not at a price of the candle; otherwise the
    position stays open, trailed, and nothing is booked. *)
Theorem checkStop_exit_policy (candle : OHLCV) (e : BacktestEngine) (coin : string)
    (p : BacktestPosition) :
  positions e !! coin = Some p ->
  let e' := checkStop candle e (coin, p) in
  match bp_type p with
  | LONG =>
      (low candle <= bp_stopLoss p ->
       closedAs e e' coin p "STOP_LOSS" (bp_stopLoss p * (1 - slippage e)))
      /\ (bp_stopLoss p < low candle -> bp_takeProfit p <= high candle ->
          closedAs e e' coin p "TAKE_PROFIT" (bp_takeProfit p * (1 - slippage e)))
      /\ (bp_stopLoss p < low candle -> high candle < bp_takeProfit p ->
          kept e e' coin (trailPosition coin candle p))
  | SHORT =>
      (bp_stopLoss p <= high candle ->
       closedAs e e' coin p "STOP_LOSS" (bp_stopLoss p * (1 + slippage e)))
      /\ (high candle < bp_stopLoss p -> low candle <= bp_takeProfit p ->
          closedAs e e' coin p "TAKE_PROFIT" (bp_takeProfit p * (1 + slippage e)))
      /\ (high candle < bp_stopLoss p -> bp_takeProfit p < low candle ->
          kept e e' coin (trailPosition coin candle p))
  end.
Proof.
  intros Hp e'. subst e'. unfold checkStop.
  pose proof (executeSellSignal_closedAs e coin candle SELL "STOP_LOSS" p Hp) as HsS.
  pose proof (executeSellSignal_closedAs e coin candle SELL "TAKE_PROFIT" p Hp) as HsT.
  pose proof (executeSellSignal_closedAs e coin candle BUY "STOP_LOSS" p Hp) as HbS.
  pose proof (executeSellSignal_closedAs e coin candle BUY "TAKE_PROFIT" p Hp) as HbT.
  cbn [String.eqb Ascii.eqb Bool.eqb] in HsS, HsT, HbS, HbT.
  destruct (bp_type p) eqn:Et.
  - destruct (Qle_bool (low candle) (bp_stopLoss p)) eqn:Es;
      [apply Qle_bool_iff in Es | apply Qle_bool_gt in Es].
    + split; [intros _; exact HsS|]. split; intros H; lra.
    + destruct (Qle_bool (bp_takeProfit p) (high candle)) eqn:Etp;
        [apply Qle_bool_iff in Etp | apply Qle_bool_gt in Etp].
      * split; [intros H; lra|]. split; [intros _ _; exact HsT | intros _ H; lra].
      * split; [intros H; lra|]. split; [intros _ H; lra|]. intros _ _.
        unfold kept, setPositions. cbn [positions trades equity].
        split; [apply lookup_insert_eq | split; reflexivity].
  - destruct (Qle_bool (bp_stopLoss p) (high candle)) eqn:Es;
      [apply Qle_bool_iff in Es | apply Qle_bool_gt in Es].
    + split; [intros _; exact HbS|]. split; intros H; lra.
    + destruct (Qle_bool (low candle) (bp_takeProfit p)) eqn:Etp;
        [apply Qle_bool_iff in Etp | apply Qle_bool_gt in Etp].
      * split; [intros H; lra|]. split; [intros _ _; exact HbT | intros _ H; lra].
      * split; [intros H; lra|]. split; [intros _ H; lra|]. intros _ _.
        unfold kept, setPositions. cbn [positions trades equity].
        split; [apply lookup_insert_eq | split; reflexivity].
Qed.

Lemma checkStop_exit_policy_witness :
  closedAs engineWithLong (checkStop (candle 1 100 111 94 100) engineWithLong ("BTCUSD", openLong))
    "BTCUSD" openLong "STOP_LOSS" (95 * (1 - slippage engineWithLong)).
Proof.
  refine (proj1 (checkStop_exit_policy (candle 1 100 111 94 100) engineWithLong "BTCUSD"
                   openLong _) _).
  - vm_compute. reflexivity.
  - vm_compute. discriminate.
Defined.

Ltac trail_cases :=
  repeat match goal with
         | |- context [if ?b then _ else _] => destruct b eqn:?
         end.

(** X15: one trailing step of [checkStops] on a position that stays open.
    Side, entry price, quantity and target are untouched; a position once
    promoted to breakeven stays promoted; the water mark becomes the maximum
    of its old value and the candle's high (for a short, the minimum with the
    low); and the stop never loosens provided the position is already at
    breakeven or its stop is still on the losing side of the entry.  Without
    that proviso it can loosen: a long whose stop was trailed above the entry
    before any promotion is promoted by a candle that sets no new high, and
    its stop drops back to the entry price. *)
Theorem trailing_step_properties (coin : string) (candle : OHLCV) (p : BacktestPosition) :
  let p' := trailPosition coin candle p in
  (bp_type p' = bp_type p /\ bp_entryPrice p' = bp_entryPrice p
   /\ bp_quantity p' = bp_quantity p /\ bp_takeProfit p' = bp_takeProfit p)
  /\ (bp_isBreakeven p = true -> bp_isBreakeven p' = true)
  /\ match bp_type p with
     | LONG =>
         bp_highWaterMark p' == Qmax (bp_highWaterMark p) (high candle)
         /\ (bp_isBreakeven p = true \/ bp_stopLoss p <= bp_entryPrice p ->
             bp_stopLoss p <= bp_stopLoss p')
         /\ (bp_isBreakeven p = false -> bp_entryPrice p < bp_stopLoss p ->
             high candle <= bp_highWaterMark p ->
             bp_entryPrice p + (bp_entryPrice p - bp_stopLoss p) * (1 # 2) <= high candle ->
             bp_stopLoss p' = bp_entryPrice p /\ bp_stopLoss p' < bp_stopLoss p)
     | SHORT =>
         bp_highWaterMark p' == Qmin (bp_highWaterMark p) (low candle)
         /\ (bp_isBreakeven p = true \/ bp_entryPrice p <= bp_stopLoss p ->
             bp_stopLoss p' <= bp_stopLoss p)
         /\ (bp_isBreakeven p = false -> bp_stopLoss p < bp_entryPrice p ->
             bp_highWaterMark p <= low candle ->
             low candle <= bp_entryPrice p - (bp_stopLoss p - bp_entryPrice p) * (1 # 2) ->
             bp_stopLoss p' = bp_entryPrice p /\ bp_stopLoss p < bp_stopLoss p')
     end.
Proof.
  cbv zeta. unfold trailPosition.
  destruct (bp_type p) eqn:Et.
  - split; [|split; [|split; [|split]]].
    + trail_cases; cbn; auto.
    + intros Hb. rewrite Hb. cbn [negb andb]. trail_cases; cbn; auto.
    + destruct (negb (bp_isBreakeven p) && _); cbn [withStop bp_highWaterMark];
        (destruct (Qltb (bp_highWaterMark p) (high candle)) eqn:Eh;
         [apply Qltb_lt in Eh | apply Qltb_ge in Eh]);
        trail_cases; cbn [withStop bp_highWaterMark];
        try (rewrite Q.max_r by lra; reflexivity);
        try (rewrite Q.max_l by lra; reflexivity).
    + intros Hsafe.
      destruct (bp_isBreakeven p) eqn:Eb; cbn [negb andb].
      * destruct (Qltb (bp_highWaterMark p) (high candle)); [|lra].
        destruct (Qltb (3 # 100) _ && Qltb (bp_stopLoss p) _) eqn:Etr;
          cbn [withStop bp_stopLoss]; [|lra].
        apply andb_true_iff in Etr as [_ Etr]. apply Qltb_lt in Etr. lra.
      * destruct Hsafe as [Hsafe|Hsafe]; [discriminate|].
        destruct (Qle_bool _ (high candle)); cbn [withStop bp_stopLoss bp_highWaterMark
                                                  bp_isBreakeven bp_entryPrice].
        -- destruct (Qltb (bp_highWaterMark p) (high candle)); cbn [withStop bp_stopLoss];
             [|lra].
           destruct (Qltb (3 # 100) _ && Qltb (bp_entryPrice p) _) eqn:Etr;
             cbn [withStop bp_stopLoss]; [|lra].
           apply andb_true_iff in Etr as [_ Etr]. apply Qltb_lt in Etr. lra.
        -- destruct (Qltb (bp_highWaterMark p) (high candle)); [|lra].
           destruct (Qltb (3 # 100) _ && Qltb (bp_stopLoss p) _) eqn:Etr;
             cbn [withStop bp_stopLoss]; [|lra].
           apply andb_true_iff in Etr as [_ Etr]. apply Qltb_lt in Etr. lra.
    + intros Hb Habove Hhigh Hthr. rewrite Hb. cbn [negb andb].
      apply Qle_bool_iff in Hthr. rewrite Hthr.
      cbn [withStop bp_highWaterMark bp_stopLoss].
      apply Qltb_ge in Hhigh. rewrite Hhigh. cbn [withStop bp_stopLoss].
      split; [reflexivity | exact Habove].
  - split; [|split; [|split; [|split]]].
    + trail_cases; cbn; auto.
    + intros Hb. rewrite Hb. cbn [negb andb]. trail_cases; cbn; auto.
    + destruct (negb (bp_isBreakeven p) && _); cbn [withStop bp_highWaterMark];
        (destruct (Qltb (low candle) (bp_highWaterMark p)) eqn:Eh;
         [apply Qltb_lt in Eh | apply Qltb_ge in Eh]);
        trail_cases; cbn [withStop bp_highWaterMark];
        try (rewrite Q.min_r by lra; reflexivity);
        try (rewrite Q.min_l by lra; reflexivity).
    + intros Hsafe.
      destruct (bp_isBreakeven p) eqn:Eb; cbn [negb andb].
      * destruct (Qltb (low candle) (bp_highWaterMark p)); [|lra].
        destruct (Qltb (3 # 100) _ && Qltb _ (bp_stopLoss p)) eqn:Etr;
          cbn [withStop bp_stopLoss]; [|lra].
        apply andb_true_iff in Etr as [_ Etr]. apply Qltb_lt in Etr. lra.
      * destruct Hsafe as [Hsafe|Hsafe]; [discriminate|].
        destruct (Qle_bool (low candle) _); cbn [withStop bp_stopLoss bp_highWaterMark
                                                 bp_isBreakeven bp_entryPrice].
        -- destruct (Qltb (low candle) (bp_highWaterMark p)); cbn [withStop bp_stopLoss];
             [|lra].
           destruct (Qltb (3 # 100) _ && Qltb _ (bp_entryPrice p)) eqn:Etr;
             cbn [withStop bp_stopLoss]; [|lra].
           apply andb_true_iff in Etr as [_ Etr]. apply Qltb_lt in Etr. lra.
        -- destruct (Qltb (low candle) (bp_highWaterMark p)); [|lra].
           destruct (Qltb (3 # 100) _ && Qltb _ (bp_stopLoss p)) eqn:Etr;
             cbn [withStop bp_stopLoss]; [|lra].
           apply andb_true_iff in Etr as [_ Etr]. apply Qltb_lt in Etr. lra.
    + intros Hb Hbelow Hlow Hthr. rewrite Hb. cbn [negb andb].
      apply Qle_bool_iff in Hthr. rewrite Hthr.
      cbn [withStop bp_highWaterMark bp_stopLoss].
      apply Qltb_ge in Hlow. rewrite Hlow. cbn [withStop bp_stopLoss].
      split; [reflexivity | exact Hbelow].
Qed.

Lemma trailing_step_properties_witness :
  bp_stopLoss (trailPosition "BTCUSD" (candle 2 104 104 103.5 104) trailedLong) = 100
  /\ bp_stopLoss (trailPosition "BTCUSD" (candle 2 104 104 103.5 104) trailedLong)
     < bp_stopLoss trailedLong.
Proof.
  refine (proj2 (proj2 (proj2 (proj2 (trailing_step_properties "BTCUSD"
                                        (candle 2 104 104 103.5 104) trailedLong))))
            _ _ _ _).
  - vm_compute. reflexivity.
  - vm_compute. reflexivity.
  - vm_compute. discriminate.
  - vm_compute. discriminate.
Defined.

(** * Opening and closing *)

(** X16: what an entry does and what a round trip costs.  When the entry
    logic opens a position, its quantity is positive, the entry fee
    quantity * price * commission is at most the equity and is deducted from
    it, the position is stored under the coin with the water mark at the
    signal price and no breakeven flag, and trades and sizer are untouched.
    With a positive price and commission and a slippage rate between 0 and 1,
    closing that position at a candle whose close equals the signal price
    books a LOSS and leaves the equity strictly below its value before the
    entry. *)
Theorem round_trip_at_entry_price_loses (e e1 : BacktestEngine) (coin : string)
    (c1 c2 : OHLCV) (signal : TradeSignal) (sizing : SizingResult) (a : Action) :
  tryOpen e coin c1 signal = Opened e1 sizing ->
  (exists p, positions e1 !! coin = Some p
             /\ 0 < bp_quantity p
             /\ bp_type p = sideOf (action signal)
             /\ bp_highWaterMark p = price signal
             /\ bp_isBreakeven p = false
             /\ bp_quantity p * price signal * commission e <= equity e
             /\ equity e1 == equity e - bp_quantity p * price signal * commission e)
  /\ trades e1 = trades e
  /\ positionSizer e1 = positionSizer e
  /\ (0 < price signal -> 0 < commission e -> 0 <= slippage e <= 1 ->
      close c2 = price signal ->
      let e2 := executeSellSignal e1 coin c2 a None in
      positions e2 !! coin = None
      /\ equity e2 < equity e
      /\ exists t, trades e2 = trades e ++ [t] /\ bt_status t = LOSS).
Proof.
  unfold tryOpen.
  destruct (intelligentSizing _ _) as [[sz|]|err]; [|discriminate|discriminate].
  destruct (Qle_bool (rec_quantity (recommendation sz)) 0) eqn:Esize; [discriminate|].
  destruct (Qltb (equity e) _) eqn:Efee; [discriminate|].
  intros E. injection E as <- <-.
  apply Qle_bool_gt in Esize. apply Qltb_ge in Efee.
  set (q := rec_quantity (recommendation sz)) in *.
  cbn [positions trades positionSizer equity].
  split; [|split; [reflexivity|split; [reflexivity|]]].
  - eexists. split; [apply lookup_insert_eq|].
    cbn [bp_quantity bp_type bp_highWaterMark bp_isBreakeven].
    repeat split; try assumption; reflexivity.
  - intros Hp Hc [Hs0 Hs1] Hclose. cbv zeta. unfold executeSellSignal.
    cbn [positions]. rewrite lookup_insert_eq.
    cbn [positions trades equity bp_type bp_quantity bp_entryPrice slippage commission
         bp_stopLoss bp_takeProfit].
    rewrite Hclose.
    set (p := price signal) in *. set (c := commission e) in *. set (s := slippage e) in *.
    assert (HA : 0 < q * p) by (apply Qmult_lt_0_compat; assumption).
    assert (HB : 0 < q * p * c) by (apply Qmult_lt_0_compat; assumption).
    assert (HC : 0 <= q * p * s) by (apply Qmult_le_0_compat; lra).
    assert (HD : 0 <= q * p * c * (1 - s)) by (apply Qmult_le_0_compat; lra).
    assert (HE : 0 <= q * p * c * s) by (apply Qmult_le_0_compat; lra).
    split; [apply lookup_delete_eq|].
    destruct (action signal); cbn [sideOf].
    + split.
      * assert (Eq : q * (p * (1 - s)) - q * (p * (1 + s)) - q * (p * (1 - s)) * c
                     == - (2 * (q * p * s)) - q * p * c * (1 - s)) by ring.
        rewrite Eq. lra.
      * eexists. split; [reflexivity|]. cbn [bt_status].
        assert (Eq : q * (p * (1 - s)) - q * (p * (1 + s)) - q * (p * (1 - s)) * c
                     == - (2 * (q * p * s)) - q * p * c * (1 - s)) by ring.
        assert (Hl : Qltb 0 (q * (p * (1 - s)) - q * (p * (1 + s)) - q * (p * (1 - s)) * c)
                     = false) by (apply Qltb_ge; rewrite Eq; lra).
        rewrite Hl. reflexivity.
    + split.
      * assert (Eq : q * (p * (1 - s)) - q * (p * (1 + s)) - q * (p * (1 + s)) * c
                     == - (2 * (q * p * s)) - q * p * c - q * p * c * s) by ring.
        rewrite Eq. lra.
      * eexists. split; [reflexivity|]. cbn [bt_status].
        assert (Eq : q * (p * (1 - s)) - q * (p * (1 + s)) - q * (p * (1 + s)) * c
                     == - (2 * (q * p * s)) - q * p * c - q * p * c * s) by ring.
        assert (Hl : Qltb 0 (q * (p * (1 - s)) - q * (p * (1 + s)) - q * (p * (1 + s)) * c)
                     = false) by (apply Qltb_ge; rewrite Eq; lra).
        rewrite Hl. reflexivity.
    + split.
      * assert (Eq : q * (p * (1 - s)) - q * (p * (1 + s)) - q * (p * (1 + s)) * c
                     == - (2 * (q * p * s)) - q * p * c - q * p * c * s) by ring.
        rewrite Eq. lra.
      * eexists. split; [reflexivity|]. cbn [bt_status].
        assert (Eq : q * (p * (1 - s)) - q * (p * (1 + s)) - q * (p * (1 + s)) * c
                     == - (2 * (q * p * s)) - q * p * c - q * p * c * s) by ring.
        assert (Hl : Qltb 0 (q * (p * (1 - s)) - q * (p * (1 + s)) - q * (p * (1 + s)) * c)
                     = false) by (apply Qltb_ge; rewrite Eq; lra).
        rewrite Hl. reflexivity.
Qed.

Lemma round_trip_at_entry_price_loses_witness :
  exists e1 sizing,
    tryOpen defaultEngine "BTCUSD" (candle 0 100 100 98 100)
      (mkTradeSignal BUY (8 # 10) [] 100 0 (Some 99) (Some 200) None None)
    = Opened e1 sizing
    /\ trades e1 = trades defaultEngine.
Proof.
  destruct (tryOpen defaultEngine "BTCUSD" (candle 0 100 100 98 100)
              (mkTradeSignal BUY (8 # 10) [] 100 0 (Some 99) (Some 200) None None))
    as [e1 sz| | |] eqn:E.
  - exists e1, sz. split; [reflexivity|].
    exact (proj1 (proj2 (round_trip_at_entry_price_loses defaultEngine e1 "BTCUSD"
                           (candle 0 100 100 98 100) (candle 1 100 100 98 100)
                           (mkTradeSignal BUY (8 # 10) [] 100 0 (Some 99) (Some 200) None None)
                           sz SELL E))).
  - vm_compute in E. discriminate.
  - vm_compute in E. discriminate.
  - vm_compute in E. discriminate.
Defined.

(** * Reported metrics *)

Lemma filter_partition_length {A : Type} (f : A -> bool) (l : list A) :
  (length (List.filter f l) + length (List.filter (fun x => negb (f x)) l))%nat = length l.
Proof.
  induction l as [|x l IH]; [reflexivity|]. cbn. destruct (f x); cbn; lia.
Qed.

Lemma ratio_percent_bounds (w n : nat) :
  (0 < n)%nat -> (w <= n)%nat ->
  0 <= inject_Z (Z.of_nat w) / inject_Z (Z.of_nat n) * 100 <= 100.
Proof.
  intros Hn Hw.
  assert (HN : 0 < inject_Z (Z.of_nat n)).
  { change 0 with (inject_Z 0). rewrite <- Zlt_Qlt. lia. }
  assert (HW : 0 <= inject_Z (Z.of_nat w)).
  { change 0 with (inject_Z 0). rewrite <- Zle_Qle. lia. }
  assert (HWN : inject_Z (Z.of_nat w) <= inject_Z (Z.of_nat n)).
  { rewrite <- Zle_Qle. lia. }
  assert (H0 : 0 <= inject_Z (Z.of_nat w) / inject_Z (Z.of_nat n)).
  { apply Qle_shift_div_l; [exact HN|]. rewrite Qmult_0_l. exact HW. }
  assert (H1 : inject_Z (Z.of_nat w) / inject_Z (Z.of_nat n) <= 1).
  { apply Qle_shift_div_r; [exact HN|]. rewrite Qmult_1_l. exact HWN. }
  set (r := inject_Z (Z.of_nat w) / inject_Z (Z.of_nat n)) in *. lra.
Qed.

Lemma calculateMetrics_nonempty (e : BacktestEngine) :
  trades e <> [] ->
  calculateMetrics e
  = Some (mkMetrics (toFixed 2 (equity e - initialCapital e))
            (toFixed 2 ((equity e - initialCapital e) / initialCapital e * 100))
            (toFixed 2 (inject_Z (Z.of_nat (length (List.filter isWin (trades e))))
                        / inject_Z (Z.of_nat (length (trades e))) * 100))
            (profitFactor (trades e))
            (length (trades e)) (length (List.filter isWin (trades e)))
            (length (List.filter (fun t => negb (isWin t)) (trades e)))).
Proof.
  unfold calculateMetrics. destruct (trades e); [congruence | reflexivity].
Qed.

(** X17: [calculateMetrics] returns the empty object exactly when there are
    no trades; otherwise totalTrades is the number of trades and the sum of
    winningTrades and losingTrades, and winRate lies between 0 and 100, is
    100 when no trade lost and 0 when none won. *)
Theorem metrics_counts_and_rates (e : BacktestEngine) :
  (calculateMetrics e = None <-> trades e = [])
  /\ forall m, calculateMetrics e = Some m ->
       mt_totalTrades m = length (trades e)
       /\ (0 < mt_totalTrades m)%nat
       /\ mt_totalTrades m = (mt_winningTrades m + mt_losingTrades m)%nat
       /\ 0 <= mt_winRate m <= 100
       /\ (mt_losingTrades m = 0%nat -> mt_winRate m == 100)
       /\ (mt_winningTrades m = 0%nat -> mt_winRate m == 0).
Proof.
  destruct (trades e) as [|t ts] eqn:Et.
  - unfold calculateMetrics. rewrite Et. split; [tauto|]. intros m H. discriminate.
  - assert (Hne : trades e <> []) by (rewrite Et; discriminate).
    rewrite (calculateMetrics_nonempty e Hne). rewrite <- Et. clear Et t ts.
    split; [split; [discriminate | contradiction]|]. intros m E. injection E as <-.
    set (l := trades e) in *.
    cbn [mt_totalTrades mt_winningTrades mt_losingTrades mt_winRate mt_totalReturn].
    pose proof (filter_partition_length isWin l) as Hsum.
    assert (Hpos : (0 < length l)%nat) by (destruct l; [contradiction | cbn; lia]).
    assert (Hw : (length (List.filter isWin l) <= length l)%nat) by lia.
    pose proof (ratio_percent_bounds _ _ Hpos Hw) as [Hlo Hhi].
    assert (E0 : toFixed 2 0 == 0) by reflexivity.
    assert (E100 : toFixed 2 100 == 100) by reflexivity.
    split; [reflexivity|]. split; [exact Hpos|]. split; [lia|].
    split; [|split].
    + split.
      * rewrite <- E0. now apply toFixed_mono.
      * rewrite <- E100 at 2. now apply toFixed_mono.
    + intros Hnone. replace (length (List.filter isWin l)) with (length l) by lia.
      assert (HN : 0 < inject_Z (Z.of_nat (length l))).
      { change 0 with (inject_Z 0). rewrite <- Zlt_Qlt. lia. }
      assert (Eq : inject_Z (Z.of_nat (length l)) / inject_Z (Z.of_nat (length l)) * 100
                   == 100) by (field; lra).
      apply Qle_antisym.
      * rewrite <- E100 at 2. apply toFixed_mono. lra.
      * rewrite <- E100 at 1. apply toFixed_mono. lra.
    + intros Hnone. rewrite Hnone. change (inject_Z (Z.of_nat 0)) with 0.
      assert (Eq : 0 / inject_Z (Z.of_nat (length l)) * 100 == 0).
      { unfold Qdiv. rewrite !Qmult_0_l. reflexivity. }
      apply Qle_antisym.
      * rewrite <- E0 at 2. apply toFixed_mono. lra.
      * rewrite <- E0 at 1. apply toFixed_mono. lra.
Qed.

(** * The strategy backtest *)

Lemma sumPnl_snoc (ts : list Trade) (t : Trade) : sumPnl (ts ++ [t]) = sumPnl ts + t_pnl t.
Proof. unfold sumPnl. now rewrite foldl_app. Qed.

(** X18: a long position opened by [openPosition] with its stop below the
    entry carries a risk amount equal to shares * (entry - stop); when a
    candle's low touches the stop, [checkExit] exits at the stop price as
    STOP_LOSS (also when the same candle reaches the target), and
    [closePosition] books a loss of exactly the risk amount plus the exit
    cost shares * stop * (commission + slippage). *)
Theorem stopped_long_loses_risk_plus_costs (b : StrategyBacktest) (signal : Signal)
    (candle : OHLCV) (name : string) :
  s_action signal = SA_BUY ->
  s_stopLoss signal < s_price signal ->
  0 < shares (calculatePositionSize (accountManager b) (s_price signal) (s_stopLoss signal)) ->
  exists pos,
    currentPosition (openPosition b signal candle name) = Some pos
    /\ p_direction pos = LONG
    /\ p_riskAmount pos == p_shares pos * (s_price signal - s_stopLoss signal)
    /\ forall (c : OHLCV) (b' : StrategyBacktest),
         low c <= p_stopLoss pos ->
         checkExit pos c = Some (p_stopLoss pos, STOP_LOSS)
         /\ currentPosition (closePosition b' pos (p_stopLoss pos) STOP_LOSS c) = None
         /\ exists t,
              sb_trades (closePosition b' pos (p_stopLoss pos) STOP_LOSS c)
              = sb_trades b' ++ [t]
              /\ t_pnl t == - (p_riskAmount pos
                               + p_shares pos * p_stopLoss pos
                                 * (am_commission (sb_config b') + am_slippage (sb_config b'))).
Proof.
  intros Ha Hstop Hshares. unfold openPosition.
  assert (Eb : Qle_bool (shares (calculatePositionSize (accountManager b) (s_price signal)
                                   (s_stopLoss signal))) 0 = false)
    by (now apply Qle_bool_gt).
  rewrite Eb. cbn [currentPosition]. eexists. split; [reflexivity|].
  cbn [p_direction p_riskAmount p_shares p_stopLoss p_entryPrice]. rewrite Ha.
  split; [reflexivity|].
  assert (Hrisk : ps_riskAmount (calculatePositionSize (accountManager b) (s_price signal)
                                   (s_stopLoss signal))
                  == shares (calculatePositionSize (accountManager b) (s_price signal)
                               (s_stopLoss signal))
                     * (s_price signal - s_stopLoss signal)).
  { revert Hshares. lazy beta iota zeta delta [calculatePositionSize].
    destruct (Qeq_bool _ 0); cbn [shares ps_riskAmount]; [intros H; lra|]. intros _.
    set (sh := floor2 _).
    assert (E : Qabs (s_price signal - s_stopLoss signal)
                == s_price signal - s_stopLoss signal) by (apply Qabs_pos; lra).
    rewrite E. reflexivity. }
  split; [exact Hrisk|].
  intros c b' Hlow. unfold checkExit, closePosition.
  cbn [p_direction p_stopLoss p_shares p_entryPrice currentPosition sb_trades].
  apply Qle_bool_iff in Hlow. rewrite Hlow.
  split; [reflexivity|]. split; [reflexivity|].
  eexists. split; [reflexivity|]. cbn [t_pnl]. rewrite Hrisk. ring.
Qed.

Lemma stopped_long_loses_risk_plus_costs_witness :
  exists pos,
    currentPosition (openPosition strategyBacktest (mkSignal SA_BUY 100 98 200 (8 # 10) None)
                       (candle 0 100 101 99 100) "trend")
    = Some pos
    /\ p_direction pos = LONG.
Proof.
  assert (H1 : s_action (mkSignal SA_BUY 100 98 200 (8 # 10) None) = SA_BUY) by reflexivity.
  assert (H2 : s_stopLoss (mkSignal SA_BUY 100 98 200 (8 # 10) None)
               < s_price (mkSignal SA_BUY 100 98 200 (8 # 10) None)) by reflexivity.
  assert (H3 : 0 < shares (calculatePositionSize (accountManager strategyBacktest)
                             (s_price (mkSignal SA_BUY 100 98 200 (8 # 10) None))
                             (s_stopLoss (mkSignal SA_BUY 100 98 200 (8 # 10) None))))
    by (vm_compute; reflexivity).
  destruct (stopped_long_loses_risk_plus_costs strategyBacktest
              (mkSignal SA_BUY 100 98 200 (8 # 10) None) (candle 0 100 101 99 100) "trend"
              H1 H2 H3) as (pos & Hpos & Hdir & _).
  exists pos. split; assumption.
Defined.

Lemma closePosition_fields (b : StrategyBacktest) (pos : Position) (x : Q) (ty : ExitType)
    (c : OHLCV) :
  sb_config (closePosition b pos x ty c) = sb_config b
  /\ equityCurve (closePosition b pos x ty c) = equityCurve b
  /\ exists t, sb_trades (closePosition b pos x ty c) = sb_trades b ++ [t]
               /\ t_position t = pos /\ t_exitPrice t = x /\ t_exitType t = ty
               /\ as_capital (am_state (accountManager (closePosition b pos x ty c)))
                  == as_capital (am_state (accountManager b)) + t_pnl t.
Proof.
  unfold closePosition. cbn [sb_config equityCurve sb_trades accountManager].
  split; [reflexivity|]. split; [reflexivity|].
  eexists. split; [reflexivity|]. cbn [t_position t_exitPrice t_exitType t_pnl].
  split; [reflexivity|]. split; [reflexivity|]. split; [reflexivity|].
  unfold updateOnTradeEnd. cbn [am_state as_capital]. reflexivity.
Qed.

Lemma openPosition_fields (b : StrategyBacktest) (signal : Signal) (c : OHLCV)
    (name : string) :
  0 <= am_commission (sb_config b) -> 0 <= s_price signal ->
  sb_config (openPosition b signal c name) = sb_config b
  /\ equityCurve (openPosition b signal c name) = equityCurve b
  /\ sb_trades (openPosition b signal c name) = sb_trades b
  /\ as_capital (am_state (accountManager (openPosition b signal c name)))
     <= as_capital (am_state (accountManager b)).
Proof.
  intros Hc Hp. unfold openPosition.
  destruct (Qle_bool (shares _) 0) eqn:E.
  - repeat split; try reflexivity. apply Qle_refl.
  - apply Qle_bool_gt in E.
    cbn [sb_config equityCurve sb_trades accountManager p_shares p_entryPrice].
    repeat split; try reflexivity.
    unfold updateOnTradeEnd, updateOnTradeStart. cbn [am_state as_capital].
    set (sh := shares _) in *.
    assert (0 <= sh * s_price signal * am_commission (sb_config b)).
    { apply Qmult_le_0_compat; [apply Qmult_le_0_compat|]; lra. }
    lra.
Qed.

(** X19: a run of the strategy backtest adds exactly one equity point per
    candle from index 50 on to the curve it started with (the curve is not
    reset), every trade it books was closed by [checkExit] (exit type
    STOP_LOSS at the position's stop or TAKE_PROFIT at its target, never at a
    candle price or at the end of the data), and, with a non-negative
    commission and non-negative signal prices, the final capital is at most
    the starting capital plus the summed P&L of the booked trades. *)
Theorem run_books_only_stop_and_target_exits
    (analyzeStrategy : list OHLCV -> Signal) (name : string)
    (b : StrategyBacktest) (historicalData : list OHLCV) :
  let b' := run analyzeStrategy name b historicalData in
  sb_config b' = sb_config b
  /\ length (equityCurve b')
     = (length (equityCurve b) + (length historicalData - 50))%nat
  /\ (forall t, In t (sb_trades b') ->
        (t_exitType t = STOP_LOSS /\ t_exitPrice t = p_stopLoss (t_position t))
        \/ (t_exitType t = TAKE_PROFIT /\ t_exitPrice t = p_takeProfit (t_position t)))
  /\ (0 <= am_commission (sb_config b) ->
      (forall cs, 0 <= s_price (analyzeStrategy cs)) ->
      as_capital (am_state (accountManager b'))
      <= as_capital (am_state (accountManager b)) + sumPnl (sb_trades b')).
Proof.
  cbv zeta. unfold run.
  induction (length historicalData - 50)%nat as [|n IH].
  - cbn [for_loop sb_config equityCurve sb_trades accountManager].
    split; [reflexivity|]. split; [lia|]. split; [intros t []|].
    intros _ _. unfold sumPnl. cbn [foldl]. lra.
  - rewrite for_loop_snoc.
    set (s := for_loop n 50 (strategyStep analyzeStrategy name historicalData) _) in *.
    destruct IH as (Hcfg & Hlen & Hex & Hcap).
    unfold strategyStep.
    set (c := historicalData !!! (50 + n)%nat).
    set (b1 := match currentPosition s with Some _ => _ | None => s end).
    assert (H1 : sb_config b1 = sb_config b
                 /\ equityCurve b1 = equityCurve s
                 /\ (forall t, In t (sb_trades b1) ->
                       (t_exitType t = STOP_LOSS /\ t_exitPrice t = p_stopLoss (t_position t))
                       \/ (t_exitType t = TAKE_PROFIT
                           /\ t_exitPrice t = p_takeProfit (t_position t)))
                 /\ (0 <= am_commission (sb_config b) ->
                     (forall cs, 0 <= s_price (analyzeStrategy cs)) ->
                     as_capital (am_state (accountManager b1))
                     <= as_capital (am_state (accountManager b)) + sumPnl (sb_trades b1))).
    { subst b1. destruct (currentPosition s) as [pos|]; [|now repeat split].
      destruct (checkExit pos c) as [[x ty]|] eqn:Ex; [|now repeat split].
      destruct (closePosition_fields s pos x ty c)
        as (Hc1 & Hq1 & t & Ht & Htp & Htx & Hty & Hcap1).
      split; [congruence|]. split; [exact Hq1|]. split.
      - intros t' Hin. rewrite Ht in Hin. apply in_app_iff in Hin as [Hin|[<-|[]]];
          [now apply Hex|].
        rewrite Htp, Htx, Hty. unfold checkExit in Ex.
        destruct (p_direction pos);
          repeat (destruct (Qle_bool _ _) in Ex); inversion Ex; subst; auto.
      - intros Hcom Hprice. rewrite Ht, sumPnl_snoc, Hcap1.
        specialize (Hcap Hcom Hprice). lra. }
    destruct H1 as (Hc1 & Hq1 & Hex1 & Hcap1).
    set (b2 := match s_action (analyzeStrategy (take (50 + n + 1) historicalData)) with
               | WAIT => b1 | _ => _ end).
    assert (H2 : sb_config b2 = sb_config b
                 /\ equityCurve b2 = equityCurve s
                 /\ sb_trades b2 = sb_trades b1
                 /\ (0 <= am_commission (sb_config b) ->
                     (forall cs, 0 <= s_price (analyzeStrategy cs)) ->
                     as_capital (am_state (accountManager b2))
                     <= as_capital (am_state (accountManager b1)))).
    { subst b2.
      destruct (s_action (analyzeStrategy (take (50 + n + 1) historicalData)));
        try (repeat split; try assumption; intros; apply Qle_refl).
      - split; [|split; [|split]].
        + unfold openPosition. destruct (Qle_bool _ 0); assumption.
        + unfold openPosition. destruct (Qle_bool _ 0); assumption.
        + unfold openPosition. destruct (Qle_bool _ 0); reflexivity.
        + intros Hcom Hprice. apply openPosition_fields; [now rewrite Hc1 | apply Hprice].
      - split; [|split; [|split]].
        + unfold openPosition. destruct (Qle_bool _ 0); assumption.
        + unfold openPosition. destruct (Qle_bool _ 0); assumption.
        + unfold openPosition. destruct (Qle_bool _ 0); reflexivity.
        + intros Hcom Hprice. apply openPosition_fields; [now rewrite Hc1 | apply Hprice]. }
    destruct H2 as (Hc2 & Hq2 & Ht2 & Hcap2).
    cbn [sb_config equityCurve sb_trades accountManager].
    split; [exact Hc2|]. split; [rewrite Hq2, length_app, Hlen; cbn; lia|].
    split; [rewrite Ht2; exact Hex1|].
    intros Hcom Hprice. rewrite Ht2.
    specialize (Hcap1 Hcom Hprice). specialize (Hcap2 Hcom Hprice). lra.
Qed.

(** * The order-block detector of the strategy engine *)

Lemma existsb_false_In {A : Type} (f : A -> bool) (l : list A) (x : A) :
  existsb f l = false -> In x l -> f x = false.
Proof.
  intros H Hin. destruct (f x) eqn:E; [|reflexivity].
  assert (existsb f l = true) by (apply existsb_exists; eauto). congruence.
Qed.

Lemma pricesPositive_at (candles : list OHLCV) (i : nat) :
  pricesPositive candles = true -> (i < length candles)%nat ->
  0 < low (candles !!! i) /\ 0 < high (candles !!! i).
Proof.
  intros H Hi. unfold pricesPositive in H. rewrite forallb_forall in H.
  specialize (H (candles !!! i)).
  assert (Hin : In (candles !!! i) candles)
    by (apply list_elem_of_In, list_elem_of_lookup_total_2, Hi).
  apply H, andb_true_iff in Hin as [Hl Hh]. split; now apply Qltb_lt.
Qed.

Lemma move_percent_floor (base moved : Q) :
  0 < base -> (15 # 10) <= moved / base * 100 -> (15 # 1000) * base <= moved.
Proof.
  intros Hb H.
  assert (E : moved == moved / base * base) by (field; lra).
  assert (Hr : (15 # 1000) <= moved / base) by lra.
  rewrite E. apply Qmult_le_compat_r; lra.
Qed.

Lemma checkIfMitigated_false (candles : list OHLCV) (i : nat) (lo hi : Q) (d : Direction) :
  OrderBlockAnalyzer.checkIfMitigated candles i lo hi d = false ->
  forall k, (i + 4 <= k < length candles)%nat ->
            match d with
            | BULLISH => lo <= close (candles !!! k)
            | BEARISH => close (candles !!! k) <= hi
            end.
Proof.
  unfold OrderBlockAnalyzer.checkIfMitigated. intros H k Hk.
  assert (Hin : In k (seq (i + 4) (length candles - (i + 4)))) by (apply in_seq; lia).
  pose proof (existsb_false_In _ _ k H Hin) as Hf. cbv beta in Hf.
  destruct d; now apply Qltb_ge in Hf.
Qed.

(** X22: every block returned by [detectOrderBlocks] on candles with positive
    prices is unmitigated, lies in the lookback window with three candles
    after it, carries its candle's high, low and midpoint, has strength at
    least 1.5, was followed within three candles by a high at least 1.5%
    above its high (BULLISH) or a low at least 1.5% below its low (BEARISH),
    and no candle from the fourth after it on has closed through its far
    side; fewer than ten candles give no block. *)
Theorem detected_blocks_are_unmitigated_impulses (candles : list OHLCV) (lookback : nat)
    (ob : OrderBlockAnalyzer.OrderBlock) :
  pricesPositive candles = true ->
  In ob (OrderBlockAnalyzer.detectOrderBlocks candles lookback) ->
  unmitigatedBlock candles lookback ob.
Proof.
  intros Hpos. unfold OrderBlockAnalyzer.detectOrderBlocks.
  destruct (length candles <? 10)%nat eqn:Elen; [intros []|].
  apply Nat.ltb_ge in Elen.
  rewrite filter_In, for_loop_push. cbn [app].
  intros [Hin Hmit]. apply negb_true_iff in Hmit.
  apply in_flat_map in Hin as (i & Hi & Hin). apply in_seq in Hi.
  unfold OrderBlockAnalyzer.blocksAt in Hin. apply in_app_iff in Hin as [Hin|Hin].
  - unfold OrderBlockAnalyzer.checkBullishOrderBlock in Hin.
    destruct (length candles - 3 <=? i)%nat eqn:Eend; [destruct Hin|].
    apply Nat.leb_gt in Eend.
    destruct (Qle_bool OrderBlockAnalyzer.MIN_OB_MOVE_PERCENT _) eqn:Emove; [|destruct Hin].
    destruct Hin as [<-|[]]. cbn [OrderBlockAnalyzer.oba_isMitigated] in Hmit.
    apply Qle_bool_iff in Emove.
    destruct (pricesPositive_at candles i Hpos ltac:(lia)) as [Hl Hh].
    unfold unmitigatedBlock.
    cbn [OrderBlockAnalyzer.oba_index OrderBlockAnalyzer.oba_candle
         OrderBlockAnalyzer.oba_high OrderBlockAnalyzer.oba_low
         OrderBlockAnalyzer.oba_price OrderBlockAnalyzer.oba_isMitigated
         OrderBlockAnalyzer.oba_strength OrderBlockAnalyzer.oba_type].
    split; [exact Elen|]. split; [lia|]. split; [lia|].
    do 4 (split; [reflexivity|]). split; [exact Hmit|]. split; [exact Emove|].
    split.
    + pose proof (move_percent_floor _ _ Hh Emove). lra.
    + exact (checkIfMitigated_false _ _ _ _ BULLISH Hmit).
  - unfold OrderBlockAnalyzer.checkBearishOrderBlock in Hin.
    destruct (length candles - 3 <=? i)%nat eqn:Eend; [destruct Hin|].
    apply Nat.leb_gt in Eend.
    destruct (Qle_bool OrderBlockAnalyzer.MIN_OB_MOVE_PERCENT _) eqn:Emove; [|destruct Hin].
    destruct Hin as [<-|[]]. cbn [OrderBlockAnalyzer.oba_isMitigated] in Hmit.
    apply Qle_bool_iff in Emove.
    destruct (pricesPositive_at candles i Hpos ltac:(lia)) as [Hl Hh].
    unfold unmitigatedBlock.
    cbn [OrderBlockAnalyzer.oba_index OrderBlockAnalyzer.oba_candle
         OrderBlockAnalyzer.oba_high OrderBlockAnalyzer.oba_low
         OrderBlockAnalyzer.oba_price OrderBlockAnalyzer.oba_isMitigated
         OrderBlockAnalyzer.oba_strength OrderBlockAnalyzer.oba_type].
    split; [exact Elen|]. split; [lia|]. split; [lia|].
    do 4 (split; [reflexivity|]). split; [exact Hmit|]. split; [exact Emove|].
    split.
    + pose proof (move_percent_floor _ _ Hl Emove). lra.
    + exact (checkIfMitigated_false _ _ _ _ BEARISH Hmit).
Qed.

Lemma detected_blocks_are_unmitigated_impulses_witness :
  match head (OrderBlockAnalyzer.detectOrderBlocks impulseCandles 50) with
  | Some ob => unmitigatedBlock impulseCandles 50 ob
  | None => False
  end.
Proof.
  destruct (head (OrderBlockAnalyzer.detectOrderBlocks impulseCandles 50)) as [ob|] eqn:E.
  - apply (detected_blocks_are_unmitigated_impulses impulseCandles 50 ob).
    + vm_compute. reflexivity.
    + destruct (OrderBlockAnalyzer.detectOrderBlocks impulseCandles 50) as [|x l];
        [discriminate|]. injection E as ->. now left.
  - vm_compute in E. discriminate.
Defined.

(** * The synchronous SMC evaluator *)





(** * Trend strength and alignment confidence *)

Lemma counting_loop_bound (f : nat -> bool) (n i c : nat) :
  (c <= for_loop n i (fun k m => if f k then S m else m) c <= c + n)%nat.
Proof.
  revert i c. induction n as [|n IH]; intros i c; cbn [for_loop]; [lia|].
  destruct (f i); specialize (IH (S i)); [specialize (IH (S c)) | specialize (IH c)]; lia.
Qed.

Lemma calculateTrendStrength_range (candles : list OHLCV) (trend : TrendDirection) :
  (2 <= length candles)%nat ->
  0 <= calculateTrendStrength candles trend <= 100.
Proof.
  intros Hlen. unfold calculateTrendStrength.
  destruct (isRanging trend); [split; lra|].
  set (recent := lastN (Nat.min 20 (length candles)) candles).
  assert (Hr : (2 <= length recent)%nat).
  { subst recent. unfold lastN. rewrite length_drop. lia. }
  unfold trendingCandles.
  pose proof (counting_loop_bound
                (fun i => movesWith trend (recent !!! (i - 1)%nat) (recent !!! i))
                (length recent - 1) 1 0) as [_ Hb].
  apply ratio_percent_bounds; lia.
Qed.

(** X20: the trend strength computed from at least two candles lies between
    0 and 100 (it is 0 for a RANGING trend); and for two contexts with
    strengths in that range the alignment confidence lies between 0 and 1, is
    at most 2/3 when the timeframes are not aligned, and is positive only for
    a non-RANGING aligned trend.  Missing contexts give RANGING, unaligned,
    confidence 0. *)
Theorem strength_and_confidence_ranges (daily fourHour : HTFContext) :
  0 <= htf_trendStrength daily <= 100 ->
  0 <= htf_trendStrength fourHour <= 100 ->
  let r := determineAlignedTrend (Some daily) (Some fourHour) in
  0 <= confidence r <= 1
  /\ (isAligned r = false -> confidence r <= 2 # 3)
  /\ (0 < confidence r -> alignedTrend r <> RANGING)
  /\ (forall c, determineAlignedTrend None c = mkAlignedTrend RANGING false 0
                /\ determineAlignedTrend c None = mkAlignedTrend RANGING false 0)
  /\ (forall candles trend, (2 <= length candles)%nat ->
        0 <= htf_trendStrength (analyzedContext candles trend) <= 100)
  /\ (forall candles, htf_trendStrength (analyzedContext candles RANGING) = 0).
Proof.
  intros [Hd0 Hd1] [Hf0 Hf1]. cbv zeta.
  split; [|split; [|split; [|split; [|split]]]].
  - destruct (determineAlignedTrend_cases daily fourHour)
      as [(_ & _ & ->)|[(_ & _ & _ & H60 & ->)|(_ & _ & ->)]]; cbn [confidence].
    + split.
      * apply Qle_shift_div_l; [reflexivity|]. rewrite Qmult_0_l.
        apply Qle_shift_div_l; [reflexivity|]. lra.
      * apply Qle_shift_div_r; [reflexivity|]. apply Qle_shift_div_r; [reflexivity|]. lra.
    + split.
      * apply Qle_shift_div_l; [reflexivity|]. lra.
      * apply Qle_shift_div_r; [reflexivity|]. lra.
    + split; lra.
  - destruct (determineAlignedTrend_cases daily fourHour)
      as [(_ & _ & ->)|[(_ & _ & _ & H60 & ->)|(_ & _ & ->)]]; cbn [confidence isAligned].
    + discriminate.
    + intros _. apply Qle_shift_div_r; [reflexivity|]. lra.
    + intros _. lra.
  - destruct (determineAlignedTrend_cases daily fourHour)
      as [(_ & Hnr & ->)|[(_ & Hnr & _ & H60 & ->)|(_ & _ & ->)]];
      cbn [confidence alignedTrend]; intros Hc; try assumption.
    exfalso. lra.
  - intros c. split; [reflexivity|]. destruct c; reflexivity.
  - intros candles trend Hlen. apply calculateTrendStrength_range, Hlen.
  - intros candles. reflexivity.
Qed.

Lemma strength_and_confidence_ranges_witness :
  confidence (determineAlignedTrend (Some (context (Trending BULLISH) 80))
                                    (Some (context RANGING 0))) <= 2 # 3.
Proof.
  assert (H1 : 0 <= htf_trendStrength (context (Trending BULLISH) 80) <= 100)
    by (split; vm_compute; discriminate).
  assert (H2 : 0 <= htf_trendStrength (context RANGING 0) <= 100)
    by (split; vm_compute; discriminate).
  exact (proj1 (proj2 (strength_and_confidence_ranges _ _ H1 H2)) eq_refl).
Defined.

(** * Dealing range and projection targets *)

Lemma last_of_ascending (swings : list SwingPoint) (lastSwing : SwingPoint) :
  ascending swings -> last swings = Some lastSwing ->
  In lastSwing swings /\ latestSwing swings (sp_index lastSwing).
Proof.
  intros Hasc Hlast. rewrite last_lookup in Hlast.
  assert (Hin : In lastSwing swings)
    by (apply list_elem_of_In; eapply list_elem_of_lookup_2; exact Hlast).
  split; [exact Hin|]. split; [now exists lastSwing|].
  intros sp Hsp. apply list_elem_of_In, list_elem_of_lookup_1 in Hsp as [i Hi].
  pose proof (lookup_lt_Some _ _ _ Hi) as Hlt.
  destruct (decide (i = Init.Nat.pred (length swings))) as [->|Hne].
  - rewrite Hlast in Hi. injection Hi as <-. lia.
  - assert (sp_index sp < sp_index lastSwing)%nat; [|lia].
    apply (Hasc i (Init.Nat.pred (length swings)) sp lastSwing Hi Hlast). lia.
Qed.

(** X23: the dealing range reported by [analyze] exists exactly when there is
    at least one swing high and one swing low; its high is the high of the
    latest swing-high candle, its low the low of the latest swing-low candle
    (nothing orders the two, so the range is not necessarily the right way
    up), both confirmed by two later candles, and its equilibrium is their
    midpoint. *)
Theorem dealing_range_spans_latest_swings (candles : list OHLCV) :
  (dealingRange (analyze candles) = None <->
   swingHighs (analyze candles) = [] \/ swingLows (analyze candles) = [])
  /\ forall dr, dealingRange (analyze candles) = Some dr ->
       latestSwing (swingHighs (analyze candles)) (dr_indexHigh dr)
       /\ latestSwing (swingLows (analyze candles)) (dr_indexLow dr)
       /\ (dr_indexHigh dr + 2 < length candles)%nat
       /\ (dr_indexLow dr + 2 < length candles)%nat
       /\ SwingHighAt candles 2 2 (dr_indexHigh dr)
       /\ SwingLowAt candles 2 2 (dr_indexLow dr)
       /\ dr_high dr = high (candles !!! dr_indexHigh dr)
       /\ dr_low dr = low (candles !!! dr_indexLow dr)
       /\ dr_equilibrium dr = (dr_high dr + dr_low dr) / 2.
Proof.
  unfold analyze. cbn [dealingRange swingHighs swingLows]. unfold findDealingRange.
  set (hs := findSwingHighs candles 2 2). set (ls := findSwingLows candles 2 2).
  split.
  - destruct (last hs) as [h|] eqn:Eh; [destruct (last ls) as [l|] eqn:El|].
    + split; [discriminate|]. intros [E|E]; rewrite E in *; discriminate.
    + split; [|reflexivity]. intros _. right. apply last_None. exact El.
    + split; [|reflexivity]. intros _. left. apply last_None. exact Eh.
  - intros dr.
    destruct (last hs) as [h|] eqn:Eh; [|discriminate].
    destruct (last ls) as [l|] eqn:El; [|discriminate].
    intros E. injection E as <-.
    cbn [dr_indexHigh dr_indexLow dr_high dr_low dr_equilibrium].
    destruct (last_of_ascending hs h (findSwingHighs_ascending candles 2 2) Eh)
      as [Hinh Hlh].
    destruct (last_of_ascending ls l (findSwingLows_ascending candles 2 2) El)
      as [Hinl Hll].
    apply in_findSwingHighs in Hinh as (_ & Hrh & Heqh & Hsh).
    apply in_findSwingLows in Hinl as (_ & Hrl & Heql & Hsl).
    split; [exact Hlh|]. split; [exact Hll|]. split; [exact Hrh|]. split; [exact Hrl|].
    split; [exact Hsh|]. split; [exact Hsl|].
    split; [rewrite Heqh at 1; reflexivity|].
    split; [rewrite Heql at 1; reflexivity|]. reflexivity.
Qed.

(** X24: the three projection targets of a leg carry the levels 2, 2.5 and
    4, and every one of them is priced at anchor + level * (anchor - origin):
    the three prices are anchor + 2 * leg, anchor + 2.5 * leg and
    anchor + 4 * leg.  They rise strictly above the anchor for a rising leg
    (origin below anchor), fall strictly below it for a falling leg, and all
    equal the anchor for an empty leg. *)
Theorem projection_targets_extend_the_leg (origin anchor : Q) :
  map sd_level (calculateSDTargets origin anchor) = [2; 5 # 2; 4]
  /\ (forall t, In t (calculateSDTargets origin anchor) ->
        sd_price t = anchor + sd_level t * (anchor - origin))
  /\ exists t1 t2 t3,
       map sd_price (calculateSDTargets origin anchor) = [t1; t2; t3]
       /\ t1 == anchor + 2 * (anchor - origin)
       /\ t2 == anchor + (5 # 2) * (anchor - origin)
       /\ t3 == anchor + 4 * (anchor - origin)
       /\ (origin < anchor -> anchor < t1 /\ t1 < t2 /\ t2 < t3)
       /\ (anchor < origin -> t3 < t2 /\ t2 < t1 /\ t1 < anchor)
       /\ (origin == anchor -> t1 == anchor /\ t2 == anchor /\ t3 == anchor).
Proof.
  unfold calculateSDTargets. cbn [map sd_level sd_price].
  split; [reflexivity|]. split.
  - intros t [<-|[<-|[<-|[]]]]; reflexivity.
  - eexists. eexists. eexists. split; [reflexivity|].
    repeat split; intros; lra.
Qed.

(** * Signal quality *)

(** X25: the quality score is a multiple of 5 between 0 and 100, grows with
    the confluence count and saturates at four confluences; grade A+ is given
    exactly from 85 points on and needs higher-timeframe alignment, a regime
    match and at least three confluences; grade D is given exactly below 50
    points, and the quality gate (score at least 45) lets a grade D signal
    through exactly when its score is 45. *)
Theorem signal_quality_grades (n : nat) (r h v : bool) :
  let q := calculateSignalQuality n r h v in
  (sq_score q <= 100)%nat
  /\ (sq_score q mod 5 = 0)%nat
  /\ (forall n', (n <= n')%nat ->
        (sq_score q <= sq_score (calculateSignalQuality n' r h v))%nat)
  /\ ((4 <= n)%nat -> sq_score q = sq_score (calculateSignalQuality 4 r h v))
  /\ (sq_grade q = "A+" <-> (85 <= sq_score q)%nat)
  /\ (sq_grade q = "A+" -> h = true /\ r = true /\ (3 <= n)%nat)
  /\ (sq_grade q = "D" <-> (sq_score q < 50)%nat)
  /\ (sq_grade q = "D" -> (passesQualityGate q = true <-> sq_score q = 45%nat)).
Proof.
  cbv zeta. unfold passesQualityGate.
  pose (base := fun m : nat => Nat.min (m * 10) 40).
  pose (total := fun m : nat =>
                   let s1 := if r then (base m + 20)%nat else base m in
                   let s2 := if h then (s1 + 25)%nat else s1 in
                   if v then (s2 + 15)%nat else s2).
  assert (Escore : forall m, sq_score (calculateSignalQuality m r h v) = total m)
    by reflexivity.
  assert (Egrade : sq_grade (calculateSignalQuality n r h v)
                   = if (85 <=? total n)%nat then "A+"
                     else if (70 <=? total n)%nat then "A"
                     else if (60 <=? total n)%nat then "B"
                     else if (50 <=? total n)%nat then "C" else "D")
    by reflexivity.
  rewrite !Escore, Egrade. clear Egrade.
  assert (Hbase : exists k, (base n = 10 * k /\ k <= 4 /\ k <= n)%nat).
  { unfold base. destruct (Nat.le_gt_cases n 4); [exists n | exists 4%nat]; lia. }
  assert (Hgrade : forall g,
             (if (85 <=? total n)%nat then "A+"
              else if (70 <=? total n)%nat then "A"
              else if (60 <=? total n)%nat then "B"
              else if (50 <=? total n)%nat then "C" else "D") = g ->
             (g = "A+" <-> (85 <= total n)%nat) /\ (g = "D" <-> (total n < 50)%nat)).
  { intros g <-.
    destruct (85 <=? total n)%nat eqn:E1; [apply Nat.leb_le in E1 | apply Nat.leb_gt in E1];
      [split; split; intros; try discriminate; try reflexivity; lia|].
    destruct (70 <=? total n)%nat eqn:E2; [apply Nat.leb_le in E2 | apply Nat.leb_gt in E2];
      [split; split; intros; try discriminate; try reflexivity; lia|].
    destruct (60 <=? total n)%nat eqn:E3; [apply Nat.leb_le in E3 | apply Nat.leb_gt in E3];
      [split; split; intros; try discriminate; try reflexivity; lia|].
    destruct (50 <=? total n)%nat eqn:E4; [apply Nat.leb_le in E4 | apply Nat.leb_gt in E4];
      split; split; intros; try discriminate; try reflexivity; lia. }
  destruct (Hgrade _ eq_refl) as [HA HD]. clear Hgrade.
  split; [unfold total, base; destruct r, h, v; lia|].
  split.
  { destruct Hbase as (k & Hk & Hk4 & _). unfold total. cbv zeta. rewrite Hk.
    destruct k as [|[|[|[|[|k]]]]]; [| | | | |lia]; destruct r, h, v; reflexivity. }
  split.
  { intros n' Hn. rewrite Escore.
    assert (Hb : (base n <= base n')%nat) by (unfold base; lia).
    unfold total. cbv beta zeta. clearbody base. destruct r, h, v; lia. }
  split.
  { intros Hn.
    assert (Hb : base n = base 4%nat) by (unfold base; lia).
    unfold total. cbv beta zeta. now rewrite Hb. }
  split; [exact HA|].
  split.
  { intros Hg. apply HA in Hg. destruct Hbase as (k & Hk & Hk4 & Hkn).
    unfold total in Hg. cbv zeta in Hg. rewrite Hk in Hg.
    destruct r, h, v; repeat split; try reflexivity; lia. }
  split; [exact HD|].
  intros Hg. apply HD in Hg. rewrite negb_true_iff, Nat.ltb_ge.
  destruct Hbase as (k & Hk & Hk4 & _). unfold total in *. cbv zeta in *. rewrite Hk in *.
  destruct r, h, v; lia.
Qed.

(** * Results of the strategy backtest *)

Lemma sumPnl_losses_nonpos (ts : list Trade) : sumPnl (losses ts) <= 0.
Proof.
  induction ts as [|t ts IH]; [apply Qle_refl|].
  unfold losses in *. cbn [List.filter]. destruct (Qle_bool (t_pnl t) 0) eqn:E; [|exact IH].
  apply Qle_bool_iff in E. rewrite sumPnl_cons. lra.
Qed.

Lemma wins_losses_length (ts : list Trade) :
  (length (wins ts) + length (losses ts))%nat = length ts.
Proof.
  unfold wins, losses.
  replace (List.filter (fun t => Qle_bool (t_pnl t) 0) ts)
    with (List.filter (fun t => negb (Qltb 0 (t_pnl t))) ts).
  - apply filter_partition_length.
  - apply filter_ext. intros t. unfold Qltb. now rewrite negb_involutive.
Qed.

Lemma wins_losses_count (ts : list Trade) : countQ (wins ts) + countQ (losses ts) == countQ ts.
Proof.
  unfold countQ. rewrite <- inject_Z_plus, <- Nat2Z.inj_add, wins_losses_length.
  reflexivity.
Qed.

Lemma countQ_nonneg {A : Type} (l : list A) : 0 <= countQ l.
Proof.
  unfold countQ. change 0 with (inject_Z 0). rewrite <- Zle_Qle. lia.
Qed.

(** X26: for a non-empty trade list the reported expectancy is exactly the
    mean P&L per trade (total P&L divided by the number of trades), the win
    rate lies between 0 and 100, and winning and losing trades (P&L above
    zero, P&L at most zero) partition the list; an empty list gives a win
    rate and an expectancy of 0. *)
Theorem expectancy_is_mean_pnl (ts : list Trade) :
  ts <> [] ->
  expectancy ts == sumPnl ts / countQ ts
  /\ 0 <= resultsWinRate ts <= 100
  /\ (length (wins ts) + length (losses ts))%nat = length ts
  /\ sumPnl ts == sumPnl (wins ts) + sumPnl (losses ts)
  /\ resultsWinRate [] == 0 /\ expectancy [] == 0.
Proof.
  intros Hne. destruct ts as [|t0 ts0]; [contradiction|].
  set (ts := t0 :: ts0) in *.
  pose proof (countQ_pos t0 ts0) as Hn. fold ts in Hn.
  pose proof (wins_losses_count ts) as Hcount.
  pose proof (countQ_nonneg (wins ts)) as Hw0.
  pose proof (countQ_nonneg (losses ts)) as Hl0.
  pose proof (sumPnl_split ts) as Hsplit.
  pose proof (sumPnl_losses_nonpos ts) as Hlneg.
  assert (Erate : resultsWinRate ts = countQ (wins ts) / countQ ts * 100) by reflexivity.
  assert (EW : countQ (wins ts) * avgWin ts == sumPnl (wins ts)).
  { unfold avgWin. destruct (wins ts) as [|w W] eqn:E.
    - unfold sumPnl, countQ. cbn. reflexivity.
    - pose proof (countQ_pos w W). field. lra. }
  assert (EL : countQ (losses ts) * avgLoss ts == - sumPnl (losses ts)).
  { unfold avgLoss. destruct (losses ts) as [|l L] eqn:E.
    - unfold sumPnl, countQ. cbn. reflexivity.
    - pose proof (countQ_pos l L) as Hc.
      assert (Hq : sumPnl (l :: L) / countQ (l :: L) <= 0).
      { apply Qle_shift_div_r; [exact Hc|]. lra. }
      rewrite (Qabs_neg _ Hq). field. lra. }
  split; [|split; [|split; [|split; [|split]]]].
  - unfold expectancy. rewrite Erate.
    set (w := countQ (wins ts)) in *. set (l := countQ (losses ts)) in *.
    set (n := countQ ts) in *. set (aw := avgWin ts) in *. set (al := avgLoss ts) in *.
    assert (E1 : w / n * 100 / 100 * aw - (1 - w / n * 100 / 100) * al
                 == (w * aw - (n - w) * al) / n) by (field; lra).
    rewrite E1.
    assert (E2 : w * aw - (n - w) * al == sumPnl ts).
    { assert (El : n - w == l) by lra.
      assert (E3 : (n - w) * al == l * al) by (rewrite El; reflexivity).
      rewrite E3, EW, EL, Hsplit. ring. }
    rewrite E2. reflexivity.
  - rewrite Erate.
    assert (H0 : 0 <= countQ (wins ts) / countQ ts).
    { apply Qle_shift_div_l; [exact Hn|]. lra. }
    assert (H1 : countQ (wins ts) / countQ ts <= 1).
    { apply Qle_shift_div_r; [exact Hn|]. lra. }
    set (x := countQ (wins ts) / countQ ts) in *. lra.
  - apply wins_losses_length.
  - exact Hsplit.
  - reflexivity.
  - reflexivity.
Qed.

Lemma expectancy_is_mean_pnl_witness : expectancy twoTrades == 40.
Proof.
  assert (Hne : twoTrades <> []) by discriminate.
  apply (Qeq_trans _ _ _ (proj1 (expectancy_is_mean_pnl twoTrades Hne))).
  reflexivity.
Defined.

(** * The daily reset and the Kelly fraction *)

(** X27: what [resetDailyStats] clears.  It zeroes the day's P&L and trade
    count and leaves capital, streaks, peak and drawdown alone; so a losing
    streak of three or more keeps [isRevengeTrading] raised across the reset,
    while with a shorter streak, a positive daily trade limit and a positive
    daily loss limit the reset always lowers it. *)
Theorem daily_reset_keeps_streak_lock (am : AccountManager) :
  let am' := resetDailyStats am in
  as_todayPNL (am_state am') = 0
  /\ as_tradesToday (am_state am') = 0%nat
  /\ as_capital (am_state am') = as_capital (am_state am)
  /\ as_losingStreak (am_state am') = as_losingStreak (am_state am)
  /\ as_maxDrawdown (am_state am') = as_maxDrawdown (am_state am)
  /\ ((3 <= as_losingStreak (am_state am))%nat ->
      rc_status (isRevengeTrading am') = true)
  /\ ((as_losingStreak (am_state am) < 3)%nat ->
      (0 < am_maxTradesPerDay (am_config am))%nat ->
      0 < am_maxDailyLoss (am_config am) ->
      isRevengeTrading am' = mkRevengeCheck false None).
Proof.
  cbv zeta. unfold resetDailyStats, isRevengeTrading.
  cbn [am_state am_config as_todayPNL as_tradesToday as_capital as_losingStreak
       as_maxDrawdown].
  do 5 (split; [reflexivity|]). split.
  - intros Hs. destruct (_ <=? 0)%nat; [reflexivity|].
    apply Nat.leb_le in Hs. rewrite Hs. reflexivity.
  - intros Hs Ht Hd.
    assert (E1 : (am_maxTradesPerDay (am_config am) <=? 0)%nat = false)
      by (apply Nat.leb_gt; lia).
    assert (E2 : (3 <=? as_losingStreak (am_state am))%nat = false)
      by (apply Nat.leb_gt; lia).
    rewrite E1, E2.
    assert (E3 : Qle_bool (0 / am_initialCapital (am_config am))
                   (- am_maxDailyLoss (am_config am)) = false).
    { apply Qle_bool_gt. unfold Qdiv. rewrite Qmult_0_l. lra. }
    rewrite E3. reflexivity.
Qed.

(** X28: the Kelly method.  It answers only for a win probability between 0
    and 1 and a positive reward-to-risk ratio; without an edge
    (ratio * p <= 1 - p) the risk amount is zero; and with a non-negative
    balance the risk amount is never negative and the half-Kelly amount never
    exceeds the full-Kelly amount. *)
Theorem kelly_risk_needs_an_edge (ps : PositionSizer) (p b : Q) (half : bool) :
  0 <= currentBalance ps ->
  0 <= maxRiskPercentage (config ps) ->
  (kellyCriterion ps p b half = None <-> (p < 0 \/ 1 < p) \/ b <= 0)
  /\ (forall r, kellyCriterion ps p b half = Some r ->
        0 <= r /\ (b * p <= 1 - p -> r == 0))
  /\ (forall r1 r2, kellyCriterion ps p b true = Some r1 ->
                    kellyCriterion ps p b false = Some r2 -> r1 <= r2).
Proof.
  intros Hbal Hmax.
  assert (E0 : toFixed 2 0 == 0) by reflexivity.
  assert (Hcap : 0 <= maxRiskPercentage (config ps) / 100).
  { apply Qle_shift_div_l; [reflexivity|]. lra. }
  unfold kellyCriterion.
  destruct (Qltb p 0 || Qltb 1 p) eqn:Ep.
  { split; [|split]; try (intros; discriminate).
    split; [|reflexivity]. intros _. left.
    apply orb_true_iff in Ep as [Ep|Ep]; apply Qltb_lt in Ep; tauto. }
  apply orb_false_iff in Ep as [Ep0 Ep1]. apply Qltb_ge in Ep0, Ep1.
  destruct (Qle_bool b 0) eqn:Eb.
  { apply Qle_bool_iff in Eb. split; [|split]; try (intros; discriminate).
    split; [|reflexivity]. intros _. now right. }
  apply Qle_bool_gt in Eb.
  set (kf0 := (b * p - (1 - p)) / b).
  assert (Hkf : forall kf, kf = (if Qltb kf0 0 then 0 else kf0) ->
                           0 <= kf /\ (b * p <= 1 - p -> kf == 0)).
  { intros kf ->. destruct (Qltb kf0 0) eqn:Ek;
      [apply Qltb_lt in Ek | apply Qltb_ge in Ek].
    - split; [apply Qle_refl | reflexivity].
    - split; [exact Ek|]. intros Hedge. apply Qle_antisym; [|exact Ek].
      subst kf0. apply Qle_shift_div_r; [exact Eb|]. lra. }
  destruct (Hkf _ eq_refl) as [Hkf0 Hkfz]. clear Hkf.
  set (kf := if Qltb kf0 0 then 0 else kf0) in *.
  split; [|split].
  - split; [discriminate|]. intros [[H|H]|H]; lra.
  - intros r E. injection E as <-.
    set (ff := Qmin (if half then kf * (1 # 2) else kf) (maxRiskPercentage (config ps) / 100)).
    assert (Hff : 0 <= ff).
    { subst ff. apply Q.min_glb; [destruct half; lra | exact Hcap]. }
    split.
    + apply Qle_trans with (toFixed 2 0); [now rewrite E0|].
      apply toFixed_mono. apply Qmult_le_0_compat; assumption.
    + intros Hedge. specialize (Hkfz Hedge).
      assert (Hz : ff <= 0).
      { subst ff. eapply Qle_trans; [apply Q.le_min_l|]. destruct half; lra. }
      assert (Ez : currentBalance ps * ff == 0).
      { assert (E : ff == 0) by lra. rewrite E. ring. }
      apply Qle_antisym.
      * apply Qle_trans with (toFixed 2 0); [apply toFixed_mono; lra | now rewrite E0].
      * apply Qle_trans with (toFixed 2 0); [now rewrite E0 | apply toFixed_mono; lra].
  - intros r1 r2 E1 E2. injection E1 as <-. injection E2 as <-.
    apply toFixed_mono. apply Qmult_le_nonneg_l; [exact Hbal|].
    apply Q.min_le_compat_r. lra.
Qed.

Lemma kelly_risk_needs_an_edge_witness :
  match kellyCriterion (newPositionSizer (sizingConfig 10000 2)) (4 # 10) 1 true with
  | Some r => r == 0
  | None => False
  end.
Proof.
  assert (Hb : 0 <= currentBalance (newPositionSizer (sizingConfig 10000 2)))
    by (vm_compute; discriminate).
  assert (Hm : 0 <= maxRiskPercentage (config (newPositionSizer (sizingConfig 10000 2))))
    by (vm_compute; discriminate).
  destruct (kellyCriterion (newPositionSizer (sizingConfig 10000 2)) (4 # 10) 1 true)
    as [r|] eqn:E.
  - apply (proj2 (proj1 (proj2 (kelly_risk_needs_an_edge
                                  (newPositionSizer (sizingConfig 10000 2)) (4 # 10) 1 true
                                  Hb Hm)) r E)).
    vm_compute. discriminate.
  - vm_compute in E. discriminate.
Defined.

(** * Liquidity sweeps *)

Lemma find_seq_first (f : nat -> bool) (a n i : nat) :
  List.find f (seq a n) = Some i ->
  (a <= i < a + n)%nat /\ f i = true /\ forall k, (a <= k < i)%nat -> f k = false.
Proof.
  revert a. induction n as [|n IH]; intros a; cbn [seq List.find]; [discriminate|].
  destruct (f a) eqn:Ea.
  - intros E. injection E as <-. split; [lia|]. split; [exact Ea|]. intros k Hk. lia.
  - intros E. apply IH in E as (Hi & Hf & Hfirst). split; [lia|]. split; [exact Hf|].
    intros k Hk. destruct (decide (k = a)) as [->|Hne]; [exact Ea|]. apply Hfirst. lia.
Qed.

Lemma find_seq_none (f : nat -> bool) (a n : nat) :
  List.find f (seq a n) = None -> forall k, (a <= k < a + n)%nat -> f k = false.
Proof.
  intros E k Hk. apply (find_none f _ E). apply in_seq. lia.
Qed.

Lemma detectLiquiditySweep_cases (candles : list OHLCV) (level : Q) (type : SwingType)
    (lookback : nat) :
  (1 <= lookback)%nat ->
  match LiquidityAnalyzer.detectLiquiditySweep candles level type lookback with
  | Some s =>
      let i := LiquidityAnalyzer.ls_sweepIndex s in
      LiquidityAnalyzer.ls_level s = level
      /\ LiquidityAnalyzer.ls_type s = type
      /\ (length candles - lookback <= i)%nat /\ (i + 3 < length candles)%nat
      /\ LiquidityAnalyzer.ls_sweepCandle s = candles !!! i
      /\ LiquidityAnalyzer.swept type level (candles !!! i) = true
      /\ (forall k, (length candles - lookback <= k < i)%nat ->
                    LiquidityAnalyzer.swept type level (candles !!! k) = false)
      /\ LiquidityAnalyzer.ls_reversalConfirmed s
         = match type with
           | HIGH => Qltb (close (candles !!! (i + 3)%nat)) (close (candles !!! (i + 1)%nat))
           | LOW => Qltb (close (candles !!! (i + 1)%nat)) (close (candles !!! (i + 3)%nat))
           end
  | None =>
      (length candles < lookback + 3)%nat
      \/ forall k, (length candles - lookback <= k)%nat -> (k + 3 < length candles)%nat ->
                   LiquidityAnalyzer.swept type level (candles !!! k) = false
  end.
Proof.
  intros Hlb. unfold LiquidityAnalyzer.detectLiquiditySweep,
    LiquidityAnalyzer.SWEEP_CONFIRMATION_CANDLES.
  destruct (length candles <? lookback + 3)%nat eqn:Elen;
    [apply Nat.ltb_lt in Elen; now left | apply Nat.ltb_ge in Elen].
  unfold LiquidityAnalyzer.sliceLast.
  replace (lookback =? 0)%nat with false by (symmetry; apply Nat.eqb_neq; lia).
  set (off := (length candles - lookback)%nat).
  set (recent := drop off candles).
  assert (Hrl : length recent = lookback) by (subst recent off; rewrite length_drop; lia).
  assert (Hat : forall k, recent !!! k = candles !!! (off + k)%nat)
    by (intros k; subst recent; apply lookup_total_drop).
  rewrite Hrl.
  destruct (List.find _ (seq 0 (lookback - 3))) as [i|] eqn:Ef.
  - apply find_seq_first in Ef as (Hi & Hsw & Hfirst).
    cbn [LiquidityAnalyzer.ls_sweepIndex LiquidityAnalyzer.ls_level LiquidityAnalyzer.ls_type
         LiquidityAnalyzer.ls_sweepCandle LiquidityAnalyzer.ls_reversalConfirmed].
    cbv zeta. rewrite Hat in Hsw.
    split; [reflexivity|]. split; [reflexivity|]. split; [lia|]. split; [lia|].
    split; [apply Hat|]. split; [exact Hsw|]. split.
    + intros k Hk. specialize (Hfirst (k - off)%nat ltac:(lia)). rewrite Hat in Hfirst.
      now replace (off + (k - off))%nat with k in Hfirst by lia.
    + unfold LiquidityAnalyzer.checkReversalConfirmation, LiquidityAnalyzer.slice,
        LiquidityAnalyzer.SWEEP_CONFIRMATION_CANDLES.
      replace (i + 1 + 3 - (i + 1))%nat with 3%nat by lia.
      assert (Hcl : length (take 3 (drop (i + 1) recent)) = 3%nat).
      { rewrite length_take, length_drop. lia. }
      rewrite Hcl. cbn [Nat.ltb Nat.leb Nat.sub].
      rewrite !lookup_total_take_lt by lia. rewrite !lookup_total_drop, !Hat.
      replace (off + (i + 1 + 0))%nat with (off + i + 1)%nat by lia.
      replace (off + (i + 1 + 2))%nat with (off + i + 3)%nat by lia.
      reflexivity.
  - right. intros k Hk1 Hk2.
    pose proof (find_seq_none _ _ _ Ef (k - off)%nat ltac:(lia)) as Hn. cbv beta in Hn.
    rewrite Hat in Hn. now replace (off + (k - off))%nat with k in Hn by lia.
Qed.


(** X29: [detectLiquiditySweep] with a positive lookback.  On an array
    shorter than lookback + 3 it reports nothing.  Otherwise it reports the
    first candle of the last [lookback] candles, the final three excluded,
    that traded through the level and closed back inside it; the reported
    index is that candle's index in the whole array, and the reversal is
    confirmed exactly when the third candle after the sweep closed beyond the
    first one in the reversal direction.  It reports nothing exactly when the
    array is shorter than lookback + 3 or no candle of that window swept the
    level. *)
Theorem sweep_is_first_pierce (candles : list OHLCV) (level : Q) (type : SwingType)
    (lookback : nat) :
  (1 <= lookback)%nat ->
  ((length candles < lookback + 3)%nat ->
   LiquidityAnalyzer.detectLiquiditySweep candles level type lookback = None)
  /\ (LiquidityAnalyzer.detectLiquiditySweep candles level type lookback = None
      <-> (length candles < lookback + 3)%nat
          \/ forall k, (length candles - lookback <= k)%nat -> (k + 3 < length candles)%nat ->
                       LiquidityAnalyzer.swept type level (candles !!! k) = false)
  /\ forall s,
       LiquidityAnalyzer.detectLiquiditySweep candles level type lookback = Some s ->
       let i := LiquidityAnalyzer.ls_sweepIndex s in
       (lookback + 3 <= length candles)%nat
       /\ LiquidityAnalyzer.ls_level s = level
       /\ LiquidityAnalyzer.ls_type s = type
       /\ (length candles - lookback <= i)%nat /\ (i + 3 < length candles)%nat
       /\ LiquidityAnalyzer.ls_sweepCandle s = candles !!! i
       /\ LiquidityAnalyzer.swept type level (candles !!! i) = true
       /\ (forall k, (length candles - lookback <= k < i)%nat ->
                     LiquidityAnalyzer.swept type level (candles !!! k) = false)
       /\ LiquidityAnalyzer.ls_reversalConfirmed s
          = match type with
            | HIGH => Qltb (close (candles !!! (i + 3)%nat)) (close (candles !!! (i + 1)%nat))
            | LOW => Qltb (close (candles !!! (i + 1)%nat)) (close (candles !!! (i + 3)%nat))
            end.
Proof.
  intros Hlb.
  assert (Hshort : (length candles < lookback + 3)%nat ->
                   LiquidityAnalyzer.detectLiquiditySweep candles level type lookback = None).
  { intros Hlen. unfold LiquidityAnalyzer.detectLiquiditySweep,
      LiquidityAnalyzer.SWEEP_CONFIRMATION_CANDLES.
    apply Nat.ltb_lt in Hlen. now rewrite Hlen. }
  pose proof (detectLiquiditySweep_cases candles level type lookback Hlb) as Hcases.
  split; [exact Hshort|]. split; [split|].
  - intros E. rewrite E in Hcases. exact Hcases.
  - intros [Hlen|Hnone]; [now apply Hshort|].
    destruct (LiquidityAnalyzer.detectLiquiditySweep candles level type lookback) as [s|];
      [|reflexivity].
    cbv zeta in Hcases. destruct Hcases as (_ & _ & Hlo & Hhi & _ & Hsw & _).
    rewrite (Hnone _ Hlo Hhi) in Hsw. discriminate.
  - intros s E. rewrite E in Hcases. cbv zeta in *.
    split; [|exact Hcases].
    destruct (Nat.lt_ge_cases (length candles) (lookback + 3)) as [Hlen|Hlen]; [|exact Hlen].
    rewrite (Hshort Hlen) in E. discriminate.
Qed.

Lemma sweep_is_first_pierce_witness :
  match LiquidityAnalyzer.detectLiquiditySweep sweepCandles 102 HIGH 10 with
  | Some s =>
      LiquidityAnalyzer.ls_sweepCandle s = sweepCandles !!! LiquidityAnalyzer.ls_sweepIndex s
      /\ LiquidityAnalyzer.swept HIGH 102 (sweepCandles !!! LiquidityAnalyzer.ls_sweepIndex s)
         = true
  | None => False
  end
  /\ LiquidityAnalyzer.detectLiquiditySweep (take 12 sweepCandles) 102 HIGH 10 = None.
Proof.
  assert (Hlb : (1 <= 10)%nat) by lia.
  split.
  - pose proof (proj2 (proj2 (sweep_is_first_pierce sweepCandles 102 HIGH 10 Hlb))) as H.
    destruct (LiquidityAnalyzer.detectLiquiditySweep sweepCandles 102 HIGH 10) as [s|] eqn:E.
    + destruct (H s eq_refl) as (_ & _ & _ & _ & _ & Hc & Hs & _). split; assumption.
    + vm_compute in E. discriminate.
  - apply (proj1 (sweep_is_first_pierce (take 12 sweepCandles) 102 HIGH 10 Hlb)).
    vm_compute. reflexivity.
Defined.

(** * Equal highs and lows *)

Lemma sumAt_snoc (f : nat -> Q) (l : list nat) (i : nat) :
  sumAt f (l ++ [i]) == sumAt f l + f i.
Proof.
  unfold sumAt. induction l as [|x l IH]; cbn [foldr app].
  - lra.
  - rewrite IH. lra.
Qed.

Lemma sumAt_pos (f : nat -> Q) (l : list nat) :
  l <> [] -> (forall i, In i l -> 0 < f i) -> 0 < sumAt f l.
Proof.
  induction l as [|x l IH]; [congruence|]. intros _ Hpos. cbn [sumAt foldr].
  assert (Hx : 0 < f x) by (apply Hpos; now left).
  destruct l as [|y l]; [cbn; lra|].
  assert (0 < sumAt f (y :: l)) by (apply IH; [discriminate | intros i Hi; apply Hpos; now right]).
  unfold sumAt in *. lra.
Qed.

Lemma countQ_S_pos (n : nat) : 0 < inject_Z (Z.of_nat (S n)).
Proof. change 0 with (inject_Z 0). rewrite <- Zlt_Qlt. lia. Qed.

Lemma addSwing_inv (priceAt : nat -> Q) (valid : nat -> Prop) (type : SwingType)
    (off : nat) (swing : LiquidityAnalyzer.Pivot)
    (levels : list LiquidityAnalyzer.LiquidityLevel) :
  valid (off + LiquidityAnalyzer.pv_index swing)%nat ->
  priceAt (off + LiquidityAnalyzer.pv_index swing)%nat = LiquidityAnalyzer.pv_price swing ->
  0 < LiquidityAnalyzer.pv_price swing ->
  (forall l, In l levels -> LevelInv priceAt valid type l) ->
  forall l, In l (LiquidityAnalyzer.addSwing type off swing levels) ->
            LevelInv priceAt valid type l.
Proof.
  intros Hv Hp Hpos. induction levels as [|level rest IH]; intros Hall l Hin.
  - destruct Hin as [<-|[]]. unfold LevelInv.
    cbn [LiquidityAnalyzer.ll_type LiquidityAnalyzer.ll_isSwept LiquidityAnalyzer.ll_strength
         LiquidityAnalyzer.ll_indices LiquidityAnalyzer.ll_price length].
    split; [reflexivity|]. split; [reflexivity|]. split; [lia|]. split; [reflexivity|].
    split.
    + intros i [<-|[]]. split; [exact Hv | now rewrite Hp].
    + cbn [sumAt foldr]. rewrite Hp. change (inject_Z (Z.of_nat 1)) with 1. ring.
  - cbn [LiquidityAnalyzer.addSwing] in Hin.
    destruct (Qle_bool _ LiquidityAnalyzer.EQUAL_LEVEL_TOLERANCE).
    + destruct Hin as [<-|Hin]; [|apply Hall; now right].
      destruct (Hall level ltac:(now left)) as (Ht & Hs & H1 & Hlen & Hidx & Hmean).
      unfold LevelInv.
      cbn [LiquidityAnalyzer.ll_type LiquidityAnalyzer.ll_isSwept
           LiquidityAnalyzer.ll_strength LiquidityAnalyzer.ll_indices
           LiquidityAnalyzer.ll_price].
      split; [exact Ht|]. split; [exact Hs|]. split; [lia|].
      split; [rewrite length_app; cbn [length]; lia|]. split.
      * intros i Hi. apply in_app_iff in Hi as [Hi|[<-|[]]]; [now apply Hidx|].
        split; [exact Hv | now rewrite Hp].
      * rewrite sumAt_snoc, Hp, <- Hmean.
        replace (S (LiquidityAnalyzer.ll_strength level) - 1)%nat
          with (LiquidityAnalyzer.ll_strength level) by lia.
        pose proof (countQ_S_pos (LiquidityAnalyzer.ll_strength level)).
        field. lra.
    + destruct Hin as [<-|Hin]; [apply Hall; now left|].
      apply IH; [intros l' Hl'; apply Hall; now right | exact Hin].
Qed.

Lemma groupedLevels_inv (priceAt : nat -> Q) (valid : nat -> Prop) (type : SwingType)
    (off : nat) (swings : list LiquidityAnalyzer.Pivot) :
  (forall p, In p swings ->
     valid (off + LiquidityAnalyzer.pv_index p)%nat
     /\ priceAt (off + LiquidityAnalyzer.pv_index p)%nat = LiquidityAnalyzer.pv_price p
     /\ 0 < LiquidityAnalyzer.pv_price p) ->
  forall l, In l (LiquidityAnalyzer.groupedLevels swings type off) ->
            LevelInv priceAt valid type l.
Proof.
  unfold LiquidityAnalyzer.groupedLevels.
  induction swings as [|p swings IH] using rev_ind; intros Hsw l Hin; [destruct Hin|].
  rewrite foldl_app in Hin. cbn [foldl] in Hin.
  destruct (Hsw p ltac:(apply in_app_iff; right; now left)) as (Hv & Hp & Hpos).
  refine (addSwing_inv priceAt valid type off p _ Hv Hp Hpos _ l Hin).
  apply IH. intros q Hq. apply Hsw. apply in_app_iff. now left.
Qed.

Lemma insertByStrength_In (x y : LiquidityAnalyzer.LiquidityLevel)
    (l : list LiquidityAnalyzer.LiquidityLevel) :
  In y (LiquidityAnalyzer.insertByStrength x l) <-> y = x \/ In y l.
Proof.
  induction l as [|z l IH]; cbn [LiquidityAnalyzer.insertByStrength].
  - cbn. intuition.
  - destruct (_ <? _)%nat; cbn [In]; [intuition|]. rewrite IH. intuition.
Qed.

Lemma sortByStrength_In (y : LiquidityAnalyzer.LiquidityLevel)
    (l : list LiquidityAnalyzer.LiquidityLevel) :
  In y (LiquidityAnalyzer.sortByStrength l) <-> In y l.
Proof.
  unfold LiquidityAnalyzer.sortByStrength.
  induction l as [|x l IH] using rev_ind; [reflexivity|].
  rewrite foldl_app. cbn [foldl]. rewrite insertByStrength_In, IH, in_app_iff. cbn. intuition.
Qed.

Lemma insertByStrength_sorted (x : LiquidityAnalyzer.LiquidityLevel)
    (l : list LiquidityAnalyzer.LiquidityLevel) :
  strengthDescending l -> strengthDescending (LiquidityAnalyzer.insertByStrength x l).
Proof.
  induction l as [|z l IH]; cbn [LiquidityAnalyzer.insertByStrength strengthDescending].
  - intros _. split; [intros b []|exact I].
  - intros [Hz Hl]. destruct (_ <? _)%nat eqn:E.
    + apply Nat.ltb_lt in E. cbn [strengthDescending]. split; [|split; assumption].
      intros b [<-|Hb]; [lia|]. specialize (Hz b Hb). lia.
    + apply Nat.ltb_ge in E. cbn [strengthDescending]. split; [|now apply IH].
      intros b Hb. apply insertByStrength_In in Hb as [->|Hb]; [exact E | now apply Hz].
Qed.

Lemma sortByStrength_sorted (l : list LiquidityAnalyzer.LiquidityLevel) :
  strengthDescending (LiquidityAnalyzer.sortByStrength l).
Proof.
  unfold LiquidityAnalyzer.sortByStrength.
  induction l as [|x l IH] using rev_ind; [exact I|].
  rewrite foldl_app. cbn [foldl]. now apply insertByStrength_sorted.
Qed.

Lemma liquidity_findSwingHighs_spec (candles : list OHLCV) (p : LiquidityAnalyzer.Pivot) :
  In p (LiquidityAnalyzer.findSwingHighs candles 3 3) ->
  LiquidityAnalyzer.pv_price p = high (candles !!! LiquidityAnalyzer.pv_index p)
  /\ strictPivot high true candles (LiquidityAnalyzer.pv_index p).
Proof.
  unfold LiquidityAnalyzer.findSwingHighs. rewrite for_loop_push. cbn [app].
  intros Hin. apply in_flat_map in Hin as (i & Hi & Hin). apply in_seq in Hi.
  destruct (LiquidityAnalyzer.isPivotHigh candles 3 3 i) eqn:E; [|destruct Hin].
  destruct Hin as [<-|[]]. cbn [LiquidityAnalyzer.pv_price LiquidityAnalyzer.pv_index].
  split; [reflexivity|]. unfold strictPivot. split; [lia|]. split; [lia|].
  intros k Hk Hne. unfold LiquidityAnalyzer.isPivotHigh in E.
  apply andb_true_iff in E as [EL ER]. rewrite forallb_forall in EL, ER.
  assert (Hb : negb (Qle_bool (high (candles !!! i)) (high (candles !!! k))) = true).
  { destruct (Nat.lt_ge_cases k i).
    - apply EL. apply in_seq. lia.
    - apply ER. apply in_seq. lia. }
  apply negb_true_iff, Qle_bool_gt in Hb. exact Hb.
Qed.

Lemma liquidity_findSwingLows_spec (candles : list OHLCV) (p : LiquidityAnalyzer.Pivot) :
  In p (LiquidityAnalyzer.findSwingLows candles 3 3) ->
  LiquidityAnalyzer.pv_price p = low (candles !!! LiquidityAnalyzer.pv_index p)
  /\ strictPivot low false candles (LiquidityAnalyzer.pv_index p).
Proof.
  unfold LiquidityAnalyzer.findSwingLows. rewrite for_loop_push. cbn [app].
  intros Hin. apply in_flat_map in Hin as (i & Hi & Hin). apply in_seq in Hi.
  destruct (LiquidityAnalyzer.isPivotLow candles 3 3 i) eqn:E; [|destruct Hin].
  destruct Hin as [<-|[]]. cbn [LiquidityAnalyzer.pv_price LiquidityAnalyzer.pv_index].
  split; [reflexivity|]. unfold strictPivot. split; [lia|]. split; [lia|].
  intros k Hk Hne. unfold LiquidityAnalyzer.isPivotLow in E.
  apply andb_true_iff in E as [EL ER]. rewrite forallb_forall in EL, ER.
  assert (Hb : negb (Qle_bool (low (candles !!! k)) (low (candles !!! i))) = true).
  { destruct (Nat.lt_ge_cases k i).
    - apply EL. apply in_seq. lia.
    - apply ER. apply in_seq. lia. }
  apply negb_true_iff, Qle_bool_gt in Hb. exact Hb.
Qed.

Lemma strictPivot_shift (f : OHLCV -> Q) (above : bool) (candles : list OHLCV) (off k : nat) :
  strictPivot f above (drop off candles) k -> strictPivot f above candles (off + k).
Proof.
  intros (H3 & Hlen & Hcmp). rewrite length_drop in Hlen.
  split; [lia|]. split; [lia|]. intros j Hj Hne.
  specialize (Hcmp (j - off)%nat ltac:(lia) ltac:(lia)).
  rewrite !lookup_total_drop in Hcmp.
  now replace (off + (j - off))%nat with j in Hcmp by lia.
Qed.

Lemma grouped_levels_of_pivots (f : OHLCV -> Q) (above : bool) (type : SwingType)
    (candles : list OHLCV) (lookback off : nat) (swings : list LiquidityAnalyzer.Pivot)
    (level : LiquidityAnalyzer.LiquidityLevel) :
  (forall i, (i < length candles)%nat -> 0 < f (candles !!! i)) ->
  (length candles - lookback <= off)%nat ->
  (forall p, In p swings ->
     LiquidityAnalyzer.pv_price p = f (drop off candles !!! LiquidityAnalyzer.pv_index p)
     /\ strictPivot f above (drop off candles) (LiquidityAnalyzer.pv_index p)) ->
  In level (LiquidityAnalyzer.groupEqualLevels swings type off) ->
  levelOfPivots f above type candles lookback level.
Proof.
  intros Hpos Hoff Hsw Hin. unfold LiquidityAnalyzer.groupEqualLevels in Hin.
  apply sortByStrength_In, filter_In in Hin as [Hin Hmin].
  apply Nat.leb_le in Hmin. unfold LiquidityAnalyzer.MIN_TOUCHES in Hmin.
  apply (groupedLevels_inv (fun i => f (candles !!! i))
           (fun i => (length candles - lookback <= i)%nat /\ strictPivot f above candles i)
           type off swings) in Hin.
  - destruct Hin as (Ht & Hs & _ & Hlen & Hidx & Hmean).
    unfold levelOfPivots. split; [exact Ht|]. split; [exact Hs|]. split; [exact Hmin|].
    split; [exact Hlen|]. split; [intros i Hi; apply (Hidx i Hi)|]. split; [exact Hmean|].
    assert (Hsum : 0 < sumAt (fun i => f (candles !!! i)) (LiquidityAnalyzer.ll_indices level)).
    { apply sumAt_pos.
      - intros E. rewrite E in Hlen. cbn in Hlen. lia.
      - intros i Hi. apply (Hidx i Hi). }
    rewrite <- Hmean in Hsum.
    assert (Hn : 0 < inject_Z (Z.of_nat (LiquidityAnalyzer.ll_strength level))).
    { change 0 with (inject_Z 0). rewrite <- Zlt_Qlt. lia. }
    destruct (Qlt_le_dec 0 (LiquidityAnalyzer.ll_price level)) as [Hp|Hp]; [exact Hp|].
    exfalso.
    assert (LiquidityAnalyzer.ll_price level
            * inject_Z (Z.of_nat (LiquidityAnalyzer.ll_strength level)) <= 0).
    { apply Qle_trans
        with (0 * inject_Z (Z.of_nat (LiquidityAnalyzer.ll_strength level))).
      - apply Qmult_le_compat_r; lra.
      - rewrite Qmult_0_l. apply Qle_refl. }
    lra.
  - intros p Hp. destruct (Hsw p Hp) as [Hprice Hpiv].
    apply strictPivot_shift in Hpiv. rewrite lookup_total_drop in Hprice.
    pose proof Hpiv as (_ & Hlt & _).
    split; [split; [lia | exact Hpiv]|]. split; [now rewrite Hprice|].
    rewrite Hprice. apply Hpos. lia.
Qed.

(** X30: with positive prices and a positive lookback, every level returned
    by [findEqualHighs] (and likewise [findEqualLows]) has at least two
    touches and one index per touch, each index points at a candle of the
    lookback window whose high (low) strictly beats the three bars on either
    side, the level's price is the mean of the touched highs (lows) and is
    positive, and the levels come sorted by descending strength. *)
Theorem equal_levels_are_means_of_pivots (candles : list OHLCV) (lookback : nat) :
  pricesPositive candles = true ->
  (1 <= lookback)%nat ->
  (forall level, In level (LiquidityAnalyzer.findEqualHighs candles lookback) ->
                 levelOfPivots high true HIGH candles lookback level)
  /\ strengthDescending (LiquidityAnalyzer.findEqualHighs candles lookback)
  /\ (forall level, In level (LiquidityAnalyzer.findEqualLows candles lookback) ->
                    levelOfPivots low false LOW candles lookback level)
  /\ strengthDescending (LiquidityAnalyzer.findEqualLows candles lookback).
Proof.
  intros Hpos Hlb.
  set (window := if (length candles <? lookback)%nat then length candles else lookback).
  assert (Hw : (window <= lookback)%nat /\ (window <= length candles)%nat
               /\ (window = 0%nat -> candles = [])).
  { subst window. destruct (length candles <? lookback)%nat eqn:E;
      [apply Nat.ltb_lt in E | apply Nat.ltb_ge in E].
    - split; [lia|]. split; [lia|]. intros E0. now destruct candles.
    - split; [lia|]. split; [lia|]. intros E0. lia. }
  destruct Hw as (Hwl & Hwc & Hw0).
  assert (Hslice : LiquidityAnalyzer.sliceLast window candles
                   = drop (length candles - window) candles).
  { unfold LiquidityAnalyzer.sliceLast. destruct (window =? 0)%nat eqn:E; [|reflexivity].
    apply Nat.eqb_eq in E. rewrite (Hw0 E). reflexivity. }
  assert (Hhigh : forall i, (i < length candles)%nat -> 0 < high (candles !!! i))
    by (intros i Hi; apply (pricesPositive_at candles i Hpos Hi)).
  assert (Hlow : forall i, (i < length candles)%nat -> 0 < low (candles !!! i))
    by (intros i Hi; apply (pricesPositive_at candles i Hpos Hi)).
  unfold LiquidityAnalyzer.findEqualHighs, LiquidityAnalyzer.findEqualLows.
  fold window. cbv zeta. rewrite Hslice.
  split; [|split; [|split]].
  - intros level Hin.
    refine (grouped_levels_of_pivots high true HIGH candles lookback _ _ level
              Hhigh _ _ Hin); [lia|].
    intros p Hp. now apply liquidity_findSwingHighs_spec.
  - apply sortByStrength_sorted.
  - intros level Hin.
    refine (grouped_levels_of_pivots low false LOW candles lookback _ _ level
              Hlow _ _ Hin); [lia|].
    intros p Hp. now apply liquidity_findSwingLows_spec.
  - apply sortByStrength_sorted.
Qed.

Lemma equal_levels_are_means_of_pivots_witness :
  match head (LiquidityAnalyzer.findEqualHighs doubleTopCandles 50) with
  | Some level => levelOfPivots high true HIGH doubleTopCandles 50 level
  | None => False
  end.
Proof.
  assert (Hpos : pricesPositive doubleTopCandles = true) by (vm_compute; reflexivity).
  assert (Hlb : (1 <= 50)%nat) by lia.
  destruct (head (LiquidityAnalyzer.findEqualHighs doubleTopCandles 50)) as [level|] eqn:E.
  - apply (proj1 (equal_levels_are_means_of_pivots doubleTopCandles 50 Hpos Hlb)).
    destruct (LiquidityAnalyzer.findEqualHighs doubleTopCandles 50) as [|x l];
      [discriminate|]. injection E as ->. now left.
  - vm_compute in E. discriminate.
Defined.
